(** * GeographicLib.py: geodesic solver, accumulator and polygon area

    A shallow embedding of [src/python/GeographicLib.py] (Python 2: the
    module assigns into the lists returned by [range] and relies on the
    integer [/]) and the properties of its specification.

    Python floats are IEEE binary64 numbers: they are modelled by Rocq's
    primitive floats.  The platform C library behind Python's [math] module
    is a parameter ([Libm]) of every definition that reaches it.  Exceptions
    are results of an error monad. *)

From Stdlib Require Import ZArith Bool List String Lia.
From Stdlib Require Import Floats FunctionalExtensionality.
Import ListNotations.

Set Warnings "-inexact-float".

(** ** The Python run time *)

Module Py.

(** Exceptions the interpreter raises on its own. *)
Inductive py_error : Type :=
| ZeroDivisionError
| MathDomainError                       (* ValueError: math domain error *)
| MathRangeError                        (* OverflowError: math range error *)
| NameError (name : string)
| UnboundLocalError (name : string)
| AttributeError (name : string)
| IndexError.

(** The [raise ValueError(...)] statements of the source. *)
Inductive input_error : Type :=
| BadLatitude (lat : float)             (* "latitude ... not in [-90, 90]" *)
| BadLongitude (lon : float)            (* "longitude ... not in [-180, 360]" *)
| BadAzimuth (azi : float)              (* "azimuth ... not in [-180, 360]" *)
| BadDistance (s : float)               (* "distance ... not a finite number" *)
| BadMajorRadius                        (* "Major radius is not positive" *)
| BadMinorRadius.                       (* "Minor radius is not positive" *)

Inductive exn : Type :=
| InputError (e : input_error)
| RuntimeError (e : py_error).

Inductive result (E A : Type) : Type :=
| Ok (v : A)
| Raise (e : E).
Arguments Ok {E A} v.
Arguments Raise {E A} e.

Definition bind {E A B} (m : result E A) (k : A -> result E B) : result E B :=
  match m with
  | Ok v => k v
  | Raise e => Raise e
  end.

(** Computations of the solver raise run-time errors only. *)
Definition M (A : Type) : Type := result py_error A.

(** Computations of the public entry points can also raise input errors. *)
Definition lift {A} (m : M A) : result exn A :=
  match m with
  | Ok v => Ok v
  | Raise e => Raise (RuntimeError e)
  end.

Definition raises {E A} (m : result E A) : bool :=
  match m with Ok _ => false | Raise _ => true end.

End Py.
Export Py.

Declare Scope py_scope.
Delimit Scope py_scope with py.
Notation "x <- m ;; k" := (bind m (fun x => k))
  (at level 61, m at next level, right associativity) : py_scope.
Notation "' p <- m ;; k" := (bind m (fun x => let 'p := x in k))
  (at level 61, p pattern, m at next level, right associativity) : py_scope.
Open Scope py_scope.
Open Scope float_scope.

(** ** Floats as Python sees them *)

Module PyFloat.

Definition Mf : Type := M float.
Definition pure (x : float) : Mf := Ok x.

(** Python's [/] on floats raises on a zero divisor. *)
Definition div (a b : Mf) : Mf :=
  x <- a ;; y <- b ;;
  if y =? 0 then Raise ZeroDivisionError else Ok (x / y).
Definition add (a b : Mf) : Mf := x <- a ;; y <- b ;; Ok (x + y).
Definition sub (a b : Mf) : Mf := x <- a ;; y <- b ;; Ok (x - y).
Definition mul (a b : Mf) : Mf := x <- a ;; y <- b ;; Ok (x * y).
Definition neg (a : Mf) : Mf := x <- a ;; Ok (- x).

(** [max(a, b)] and [min(a, b)] keep the first argument unless the second
    is strictly larger (smaller): with a NaN, or with zeros of both signs,
    the first argument is returned. *)
Definition max (a b : float) : float := if a <? b then b else a.
Definition min (a b : float) : float := if b <? a then b else a.

Definition neb (a b : float) : bool := negb (a =? b).

(** Small integers convert exactly; the integer 0 becomes +0.0. *)
Definition of_Z (z : Z) : float :=
  match z with
  | Z0 => 0
  | Zpos _ => of_uint63 (Uint63.of_Z z)
  | Zneg p => - of_uint63 (Uint63.of_Z (Zpos p))
  end.

End PyFloat.

Coercion PyFloat.pure : float >-> PyFloat.Mf.

Declare Scope pyf_scope.
Delimit Scope pyf_scope with pyf.
Bind Scope pyf_scope with PyFloat.Mf.
Notation "a + b" := (PyFloat.add a b) : pyf_scope.
Notation "a - b" := (PyFloat.sub a b) : pyf_scope.
Notation "a * b" := (PyFloat.mul a b) : pyf_scope.
Notation "a / b" := (PyFloat.div a b) : pyf_scope.
Notation "- a" := (PyFloat.neg a) : pyf_scope.

(** ** Numbers that may still be Python integers

    A few variables of the solver are assigned integer literals ([salp2 = 0],
    [calp2 = 1], ...).  An integer zero has no sign, so [-salp2] and
    [salp2 * -1] stay [0] where the float would become [-0.0]; [math.atan2]
    tells the two apart. *)

Module PyNum.

Inductive pynum : Type :=
| PInt (z : Z)
| PFloat (f : float).

Definition to_float (x : pynum) : float :=
  match x with
  | PInt z => PyFloat.of_Z z
  | PFloat f => f
  end.

Definition mul (x y : pynum) : pynum :=
  match x, y with
  | PInt a, PInt b => PInt (a * b)
  | _, _ => PFloat (to_float x * to_float y)
  end.

Definition add (x y : pynum) : pynum :=
  match x, y with
  | PInt a, PInt b => PInt (a + b)
  | _, _ => PFloat (to_float x + to_float y)
  end.

Definition sub (x y : pynum) : pynum :=
  match x, y with
  | PInt a, PInt b => PInt (a - b)
  | _, _ => PFloat (to_float x - to_float y)
  end.

Definition neg (x : pynum) : pynum :=
  match x with
  | PInt a => PInt (- a)
  | PFloat f => PFloat (- f)
  end.

End PyNum.
Export PyNum(pynum, PInt, PFloat).

(** ** The [math] module *)

Module math.

(** The C library: what [math.sin] and the others call.  Its results differ
    between platforms in the last bit, so it is a parameter. *)
Record Libm : Type := {
  c_sin : float -> float;
  c_cos : float -> float;
  c_atan : float -> float;
  c_atan2 : float -> float -> float;
  c_atanh : float -> float;
  c_hypot : float -> float -> float;
  c_pow : float -> float -> float;
  c_floor : float -> float
}.

Definition pi : float := 0x1.921fb54442d18p+1.

(** CPython's wrapper of a unary C function ([math_1] in mathmodule.c): a NaN
    made from a number, and an infinity made from a finite number, are
    errors. *)
Definition math_1 (f : float -> float) (x : float) : M float :=
  let r := f x in
  if is_nan r && negb (is_nan x) then Raise MathDomainError
  else if is_infinity r && is_finite x then Raise MathDomainError
  else Ok r.

(** The wrapper of a binary C function ([math_2], and [math_hypot]). *)
Definition math_2 (f : float -> float -> float) (x y : float) : M float :=
  let r := f x y in
  if is_nan r && negb (is_nan x) && negb (is_nan y) then Raise MathDomainError
  else if is_infinity r && is_finite x && is_finite y then Raise MathRangeError
  else Ok r.

Section WithLibm.
Variable L : Libm.

Definition sqrt (x : PyFloat.Mf) : PyFloat.Mf := v <- x ;; math_1 PrimFloat.sqrt v.
Definition sin (x : PyFloat.Mf) : PyFloat.Mf := v <- x ;; math_1 (c_sin L) v.
Definition cos (x : PyFloat.Mf) : PyFloat.Mf := v <- x ;; math_1 (c_cos L) v.
Definition atan (x : PyFloat.Mf) : PyFloat.Mf := v <- x ;; math_1 (c_atan L) v.
Definition atanh (x : PyFloat.Mf) : PyFloat.Mf := v <- x ;; math_1 (c_atanh L) v.
Definition floor (x : PyFloat.Mf) : PyFloat.Mf := v <- x ;; math_1 (c_floor L) v.
Definition atan2 (y x : PyFloat.Mf) : PyFloat.Mf :=
  a <- y ;; b <- x ;; math_2 (c_atan2 L) a b.
Definition hypot (x y : PyFloat.Mf) : PyFloat.Mf :=
  a <- x ;; b <- y ;; math_2 (c_hypot L) a b.
Definition pow (x y : PyFloat.Mf) : PyFloat.Mf :=
  a <- x ;; b <- y ;; math_2 (c_pow L) a b.

End WithLibm.
End math.
Export math(Libm).

(** ** class Math *)

Module Math.

Definition epsilon : float := 0x1p-52.            (* math.pow(2.0, -52) *)
Definition minval : float := 0x1p-1022.           (* math.pow(2.0, -1022) *)
Definition maxval : float := 0x1p1023 * (2 - epsilon).
Definition degree : float := math.pi / 180.
Definition nan : float := PrimFloat.nan.
Definition inf : float := PrimFloat.infinity.

Definition sq (x : float) : float := x * x.

Definition cbrt (L : Libm) (x : float) : M float :=
  y <- math.pow L (abs x) (1 / 3) ;;
  Ok (if 0 <=? x then y else - y).

Definition isfinite (x : float) : bool := abs x <=? maxval.

End Math.

(** Python lists used as arrays: [c[k]] with Python's negative indices, and
    [IndexError] out of range. *)
Module PyList.

Definition position {A} (c : list A) (k : Z) : option nat :=
  let n := Z.of_nat (List.length c) in
  if (k <? - n)%Z then None
  else if (k <? 0)%Z then Some (Z.to_nat (n + k))
  else if (k <? n)%Z then Some (Z.to_nat k)
  else None.

Definition getitem {A} (c : list A) (k : Z) : M A :=
  match position c k with
  | Some i => match nth_error c i with Some v => Ok v | None => Raise IndexError end
  | None => Raise IndexError
  end.

Fixpoint update {A} (c : list A) (i : nat) (v : A) : list A :=
  match c, i with
  | [], _ => []
  | _ :: c', O => v :: c'
  | x :: c', S i' => x :: update c' i' v
  end.

Definition setitem {A} (c : list A) (k : Z) (v : A) : M (list A) :=
  match position c k with
  | Some i => Ok (update c i v)
  | None => Raise IndexError
  end.

(** [range(n)], its integers already as the floats they convert to. *)
Definition range (n : nat) : list float :=
  map (fun i => PyFloat.of_Z (Z.of_nat i)) (seq 0 n).

End PyList.

(** ** class Accumulator *)

Module Accumulator.

(** The two words [_s] and [_t] of an accumulator object. *)
Record t : Type := mk { _s : float; _t : float }.

(** Error free transformation of a sum. *)
Definition sum (u v : float) : float * float :=
  let s := u + v in
  let up := s - v in
  let vpp := s - up in
  let up := up - u in
  let vpp := vpp - v in
  let t := - (up + vpp) in
  (s, t).

(** [Set(y)] with a number, and with another accumulator. *)
Definition Set_float (y : float) : t := mk y 0.
Definition Set_copy (y : t) : t := mk (_s y) (_t y).

Definition Add (self : t) (y : float) : t :=
  let '(y, u) := sum y (_t self) in
  let '(s, t) := sum y (_s self) in
  if s =? 0 then mk u t else mk s (t + u).

(** [Sum(y)] works on a copy [b] of the accumulator. *)
Definition Sum (self : t) (y : float) : float :=
  if y =? 0 then _s self
  else let b := Set_copy self in _s (Add b y).

Definition Negate (self : t) : t := mk (_s self * -1) (_t self * -1).

End Accumulator.

(** ** class Geodesic *)

Module Geodesic.

Definition GEOD_ORD : nat := 6.
Definition nA1_ := GEOD_ORD.
Definition nC1_ := GEOD_ORD.
Definition nC1p_ := GEOD_ORD.
Definition nA2_ := GEOD_ORD.
Definition nC2_ := GEOD_ORD.
Definition nA3_ := GEOD_ORD.
Definition nA3x_ := nA3_.
Definition nC3_ := GEOD_ORD.
Definition nC3x_ : nat := Nat.div (nC3_ * (nC3_ - 1)) 2.
Definition nC4_ := GEOD_ORD.
Definition nC4x_ : nat := Nat.div (nC4_ * (nC4_ + 1)) 2.
Definition maxit_ : nat := 50.

Definition tiny_ : float := PrimFloat.sqrt Math.minval.
Definition tol0_ : float := Math.epsilon.
Definition tol1_ : float := 200 * tol0_.
Definition tol2_ : float := PrimFloat.sqrt Math.epsilon.
Definition xthresh_ : float := 1000 * tol2_.

Definition CAP_NONE : Z := 0.
Definition CAP_C1 : Z := Z.shiftl 1 0.
Definition CAP_C1p : Z := Z.shiftl 1 1.
Definition CAP_C2 : Z := Z.shiftl 1 2.
Definition CAP_C3 : Z := Z.shiftl 1 3.
Definition CAP_C4 : Z := Z.shiftl 1 4.
Definition CAP_ALL : Z := 0x1F.
Definition OUT_ALL : Z := 0x7F80.
Definition NONE : Z := 0.
Definition LATITUDE : Z := Z.lor (Z.shiftl 1 7) CAP_NONE.
Definition LONGITUDE : Z := Z.lor (Z.shiftl 1 8) CAP_C3.
Definition AZIMUTH : Z := Z.lor (Z.shiftl 1 9) CAP_NONE.
Definition DISTANCE : Z := Z.lor (Z.shiftl 1 10) CAP_C1.
Definition DISTANCE_IN : Z := Z.lor (Z.lor (Z.shiftl 1 11) CAP_C1) CAP_C1p.
Definition REDUCEDLENGTH : Z := Z.lor (Z.lor (Z.shiftl 1 12) CAP_C1) CAP_C2.
Definition GEODESICSCALE : Z := Z.lor (Z.lor (Z.shiftl 1 13) CAP_C1) CAP_C2.
Definition AREA : Z := Z.lor (Z.shiftl 1 14) CAP_C4.
Definition ALL : Z := Z.lor OUT_ALL CAP_ALL.

(** [outmask & BIT] used as a condition. *)
Definition has (outmask bit : Z) : bool := negb (Z.land outmask bit =? 0)%Z.

(** The Clenshaw loop: [while n: n -= 1; k -= 1; y1 = ...; k -= 1; y0 = ...]. *)
Fixpoint clenshaw (n : nat) (ar : float) (c : list float) (k : Z) (y0 y1 : float)
  : M (float * float) :=
  match n with
  | O => Ok (y0, y1)
  | S n' =>
      let k := (k - 1)%Z in
      ck <- PyList.getitem c k ;;
      let y1 := ar * y0 - y1 + ck in
      let k := (k - 1)%Z in
      ck <- PyList.getitem c k ;;
      let y0 := ar * y1 - y0 + ck in
      clenshaw n' ar c k y0 y1
  end.

Definition SinCosSeries (sinp : bool) (sinx cosx : float) (c : list float) (n : nat)
  : M float :=
  let k := (Z.of_nat n + (if sinp then 1 else 0))%Z in
  let ar := 2 * (cosx - sinx) * (cosx + sinx) in
  let y1 := 0 in
  '(k, y0) <- (if Nat.odd n
               then let k := (k - 1)%Z in
                    ck <- PyList.getitem c k ;; Ok (k, ck)
               else Ok (k, 0)) ;;
  let n := Nat.div n 2 in
  '(y0, y1) <- clenshaw n ar c k y0 y1 ;;
  Ok (if sinp then 2 * sinx * cosx * y0 else cosx * (y0 - y1)).

(** Place angle in [-180, 180).  Assumes x is in [-540, 540). *)
Definition AngNormalize (x : float) : float :=
  if 180 <=? x then x - 360
  else if x <? -180 then x + 360 else x.

Definition AngRound (x : float) : float :=
  let z := 0.0625 in
  let y := abs x in
  let y := if y <? z then z - (z - y) else y in
  if x <? 0 then - y else y.

Definition SinCosNorm (L : Libm) (sinx cosx : float) : M (float * float) :=
  r <- math.hypot L sinx cosx ;;
  s <- (sinx / r)%pyf ;;
  c <- (cosx / r)%pyf ;;
  Ok (s, c).

(** Solve k^4+2*k^3-(x^2+y^2-1)*k^2-2*y^2*k-y^2 = 0 for positive root k.
    On the branch [disc < 0] the source calls [sqrt] without [math.]: the
    name is not defined in the module. *)
Definition Astroid (L : Libm) (x y : float) : M float :=
  let p := Math.sq x in
  let q := Math.sq y in
  let r := (p + q - 1) / 6 in
  if negb ((q =? 0) && (r <=? 0)) then
    let S := p * q / 4 in
    let r2 := Math.sq r in
    let r3 := r * r2 in
    let disc := S * (S + 2 * r3) in
    let u := r in
    u <- (if 0 <=? disc then
            let T3 := S + r3 in
            sd <- math.sqrt disc ;;
            let T3 := T3 + (if T3 <? 0 then - sd else sd) in
            T <- Math.cbrt L T3 ;;
            d <- (if PyFloat.neb T 0 then (r2 / T)%pyf else Ok 0) ;;
            Ok (u + (T + d))
          else
            Raise (NameError "sqrt")) ;;
    v <- math.sqrt (Math.sq u + q) ;;
    uv <- (if u <? 0 then (q / (v - u))%pyf else Ok (u + v)) ;;
    w <- ((uv - q) / (2 * v))%pyf ;;
    s <- math.sqrt (uv + Math.sq w) ;;
    (uv / (s + w))%pyf
  else
    Ok 0.

Definition A1m1f (eps : float) : M float :=
  let eps2 := Math.sq eps in
  let t := eps2*(eps2*(eps2+4)+64)/256 in
  ((t + eps) / (1 - eps))%pyf.

Definition C1f (eps : float) (c : list float) : M (list float) :=
  let eps2 := Math.sq eps in
  let d := eps in
  c <- PyList.setitem c 1 (d*((6-eps2)*eps2-16)/32) ;;
  let d := d * eps in
  c <- PyList.setitem c 2 (d*((64-9*eps2)*eps2-128)/2048) ;;
  let d := d * eps in
  c <- PyList.setitem c 3 (d*(9*eps2-16)/768) ;;
  let d := d * eps in
  c <- PyList.setitem c 4 (d*(3*eps2-5)/512) ;;
  let d := d * eps in
  c <- PyList.setitem c 5 (-7*d/1280) ;;
  let d := d * eps in
  PyList.setitem c 6 (-7*d/2048).

Definition C1pf (eps : float) (c : list float) : M (list float) :=
  let eps2 := Math.sq eps in
  let d := eps in
  c <- PyList.setitem c 1 (d*(eps2*(205*eps2-432)+768)/1536) ;;
  let d := d * eps in
  c <- PyList.setitem c 2 (d*(eps2*(4005*eps2-4736)+3840)/12288) ;;
  let d := d * eps in
  c <- PyList.setitem c 3 (d*(116-225*eps2)/384) ;;
  let d := d * eps in
  c <- PyList.setitem c 4 (d*(2695-7173*eps2)/7680) ;;
  let d := d * eps in
  c <- PyList.setitem c 5 (3467*d/7680) ;;
  let d := d * eps in
  PyList.setitem c 6 (38081*d/61440).

Definition A2m1f (eps : float) : float :=
  let eps2 := Math.sq eps in
  let t := eps2*(eps2*(25*eps2+36)+64)/256 in
  t * (1 - eps) - eps.

Definition C2f (eps : float) (c : list float) : M (list float) :=
  let eps2 := Math.sq eps in
  let d := eps in
  c <- PyList.setitem c 1 (d*(eps2*(eps2+2)+16)/32) ;;
  let d := d * eps in
  c <- PyList.setitem c 2 (d*(eps2*(35*eps2+64)+384)/2048) ;;
  let d := d * eps in
  c <- PyList.setitem c 3 (d*(15*eps2+80)/768) ;;
  let d := d * eps in
  c <- PyList.setitem c 4 (d*(7*eps2+35)/512) ;;
  let d := d * eps in
  c <- PyList.setitem c 5 (63*d/1280) ;;
  let d := d * eps in
  PyList.setitem c 6 (77*d/2048).

(** The fields of a Geodesic object. *)
Record t : Type := mk {
  _a : float;
  _f : float;
  _f1 : float;
  _e2 : float;
  _ep2 : float;
  _n : float;
  _b : float;
  _c2 : float;
  _etol2 : float;
  _A3x : list float;
  _C3x : list float;
  _C4x : list float
}.

(** [A3coeff], [C3coeff] and [C4coeff] assign every element of the lists
    that [__init__] made with [range]. *)
Definition A3coeff (_n : float) : list float :=
  [ 1;
    (_n-1)/2;
    (_n*(3*_n-1)-2)/8;
    ((-_n-3)*_n-1)/16;
    (-2*_n-3)/64;
    -3/128 ].

Definition C3coeff (_n : float) : list float :=
  [ (1-_n)/4;
    (1-_n*_n)/8;
    ((3-_n)*_n+3)/64;
    (2*_n+5)/128;
    3/128;
    ((_n-3)*_n+2)/32;
    ((-3*_n-2)*_n+3)/64;
    (_n+3)/128;
    5/256;
    (_n*(5*_n-9)+5)/192;
    (9-10*_n)/384;
    7/512;
    (7-14*_n)/512;
    7/512;
    21/2560 ].

Definition C4coeff (_ep2 : float) : list float :=
  [ (_ep2*(_ep2*(_ep2*((832-640*_ep2)*_ep2-1144)+1716)-3003)+30030)/45045;
    (_ep2*(_ep2*((832-640*_ep2)*_ep2-1144)+1716)-3003)/60060;
    (_ep2*((208-160*_ep2)*_ep2-286)+429)/18018;
    ((104-80*_ep2)*_ep2-143)/10296;
    (13-10*_ep2)/1430;
    -1/156;
    (_ep2*(_ep2*(_ep2*(640*_ep2-832)+1144)-1716)+3003)/540540;
    (_ep2*(_ep2*(160*_ep2-208)+286)-429)/108108;
    (_ep2*(80*_ep2-104)+143)/51480;
    (10*_ep2-13)/6435;
    5/3276;
    (_ep2*((208-160*_ep2)*_ep2-286)+429)/900900;
    ((104-80*_ep2)*_ep2-143)/257400;
    (13-10*_ep2)/25025;
    -1/2184;
    (_ep2*(80*_ep2-104)+143)/2522520;
    (10*_ep2-13)/140140;
    5/45864;
    (13-10*_ep2)/1621620;
    -1/58968;
    1/792792 ].

(** [Geodesic(a, f)]. *)
Definition __init__ (L : Libm) (a f : float) : result exn t :=
  let _a := a in
  let _f := if f <=? 1 then f else 1 / f in
  let _f1 := 1 - _f in
  let _e2 := _f * (2 - _f) in
  _ep2 <- lift (_e2 / Math.sq _f1)%pyf ;;
  _n <- lift (_f / (2 - _f))%pyf ;;
  let _b := _a * _f1 in
  k <- lift (if _e2 =? 0 then Ok 1
             else ((if 0 <? _e2
                    then math.atanh L (math.sqrt _e2)
                    else math.atan L (math.sqrt (- _e2)))
                   / math.sqrt (abs _e2))%pyf) ;;
  let _c2 := (Math.sq _a + Math.sq _b * k) / 2 in
  se <- lift (math.sqrt (abs _e2)) ;;
  let _etol2 := tol2_ / PyFloat.max 0.1 se in
  if negb (Math.isfinite _a && (0 <? _a)) then Raise (InputError BadMajorRadius)
  else if negb (Math.isfinite _b && (0 <? _b)) then Raise (InputError BadMinorRadius)
  else Ok (mk _a _f _f1 _e2 _ep2 _n _b _c2 _etol2
              (A3coeff _n) (C3coeff _n) (C4coeff _ep2)).

(** [count] times [j -= 1; t = x * t + coeff[j]]: the inner loops of [A3f],
    [C3f] and [C4f]. *)
Fixpoint horner (x : float) (coeff : list float) (count : nat) (j : Z) (t : float)
  : M (Z * float) :=
  match count with
  | O => Ok (j, t)
  | S count' =>
      let j := (j - 1)%Z in
      cj <- PyList.getitem coeff j ;;
      horner x coeff count' j (x * t + cj)
  end.

(** [for k in range(k, k + count): mult *= x; c[k] *= mult]. *)
Fixpoint scale (x : float) (count : nat) (k : Z) (mult : float) (c : list float)
  : M (list float) :=
  match count with
  | O => Ok c
  | S count' =>
      let mult := mult * x in
      ck <- PyList.getitem c k ;;
      c <- PyList.setitem c k (ck * mult) ;;
      scale x count' (k + 1)%Z mult c
  end.

Section Solver.
Variable L : Libm.
Variable self : t.

(** Evaluation sum(_A3c[k] * eps^k, k, 0, nA3x_-1) by Horner's method. *)
Definition A3f (eps : float) : M float :=
  '(_, v) <- horner eps (_A3x self) nA3x_ (Z.of_nat nA3x_) 0 ;;
  Ok v.

(** [while k: t = 0; for i in range(nC3_ - k): ...; c[k] = t; k -= 1]. *)
Fixpoint C3f_rows (eps : float) (k : nat) (j : Z) (c : list float) : M (list float) :=
  match k with
  | O => Ok c
  | S k' =>
      '(j, t) <- horner eps (_C3x self) (nC3_ - k) j 0 ;;
      c <- PyList.setitem c (Z.of_nat k) t ;;
      C3f_rows eps k' j c
  end.

Definition C3f (eps : float) (c : list float) : M (list float) :=
  c <- C3f_rows eps (nC3_ - 1) (Z.of_nat nC3x_) c ;;
  scale eps (nC3_ - 1) 1 1 c.

(** [while k: t = 0; for i in range(nC4_ - k + 1): ...; k -= 1; c[k] = t]. *)
Fixpoint C4f_rows (k2 : float) (k : nat) (j : Z) (c : list float) : M (list float) :=
  match k with
  | O => Ok c
  | S k' =>
      '(j, t) <- horner k2 (_C4x self) (nC4_ - k + 1) j 0 ;;
      c <- PyList.setitem c (Z.of_nat k') t ;;
      C4f_rows k2 k' j c
  end.

Definition C4f (k2 : float) (c : list float) : M (list float) :=
  c <- C4f_rows k2 nC4_ (Z.of_nat nC4x_) c ;;
  scale k2 (nC4_ - 1) 1 1 c.

(** [Lengths] returns [s12b, m12a, m0, M12, M21].  It fills the scratch
    lists [C1a] and [C2a] of its caller; every later use fills them again
    before reading them, so the lists are not returned. *)
Definition Lengths (eps sig12 ssig1 csig1 ssig2 csig2 cbet1 cbet2 : float)
    (scalep : bool) (C1a C2a : list float)
  : M (float * float * float * float * float) :=
  C1a <- C1f eps C1a ;;
  C2a <- C2f eps C2a ;;
  A1m1 <- A1m1f eps ;;
  x2 <- SinCosSeries true ssig2 csig2 C1a nC1_ ;;
  x1 <- SinCosSeries true ssig1 csig1 C1a nC1_ ;;
  let AB1 := (1 + A1m1) * (x2 - x1) in
  let A2m1 := A2m1f eps in
  y2 <- SinCosSeries true ssig2 csig2 C2a nC2_ ;;
  y1 <- SinCosSeries true ssig1 csig1 C2a nC2_ ;;
  let AB2 := (1 + A2m1) * (y2 - y1) in
  let cbet1sq := Math.sq cbet1 in
  let cbet2sq := Math.sq cbet2 in
  w1 <- math.sqrt (1 - _e2 self * cbet1sq) ;;
  w2 <- math.sqrt (1 - _e2 self * cbet2sq) ;;
  let m0x := A1m1 - A2m1 in
  let J12 := m0x * sig12 + (AB1 - AB2) in
  let m0 := m0x in
  let m12a := (w2 * (csig1 * ssig2) - w1 * (ssig1 * csig2))
              - _f1 self * csig1 * csig2 * J12 in
  let s12b := (1 + A1m1) * sig12 + AB1 in
  if scalep then
    let csig12 := csig1 * csig2 + ssig1 * ssig2 in
    let J12 := J12 * _f1 self in
    M12 <- (csig12 + (_e2 self * (cbet1sq - cbet2sq) * ssig2 / (w1 + w2)
                      - csig2 * J12) * ssig1 / w1)%pyf ;;
    M21 <- (csig12 - (_e2 self * (cbet1sq - cbet2sq) * ssig1 / (w1 + w2)
                      - csig1 * J12) * ssig2 / w2)%pyf ;;
    Ok (s12b, m12a, m0, M12, M21)
  else
    Ok (s12b, m12a, m0, Math.nan, Math.nan).

(** [InverseStart] returns [sig12, salp1, calp1, salp2, calp2]; [sig12] is
    the integer [-1] when Newton's method has to be used.

    Two branches cannot complete.  For [_f < 0] the call of [Lengths] passes
    the local [dummy] that is only assigned by that very statement.  The
    astroid branch calls [Astroid(x, y)], a name the module does not define
    (the function is [Geodesic.Astroid]). *)
Definition InverseStart (sbet1 cbet1 sbet2 cbet2 lam12 : float)
    (C1a C2a : list float)
  : M (pynum * float * float * float * float) :=
  let sig12 := PInt (-1) in
  let salp2 := Math.nan in
  let calp2 := Math.nan in
  let sbet12 := sbet2 * cbet1 - cbet2 * sbet1 in
  let cbet12 := cbet2 * cbet1 + sbet2 * sbet1 in
  let sbet12a := sbet2 * cbet1 in
  let sbet12a := sbet12a + cbet2 * sbet1 in
  let shortline := (0 <=? cbet12) && (sbet12 <? 0.5) && (lam12 <=? math.pi / 6) in
  omg12 <- (if shortline
            then (lam12 / math.sqrt (1 - _e2 self * Math.sq cbet1))%pyf
            else Ok lam12) ;;
  somg12 <- math.sin L omg12 ;;
  comg12 <- math.cos L omg12 ;;
  let salp1 := cbet2 * somg12 in
  calp1 <- (if 0 <=? comg12
            then (sbet12 + cbet2 * sbet1 * Math.sq somg12 / (1 + comg12))%pyf
            else (sbet12a - cbet2 * sbet1 * Math.sq somg12 / (1 - comg12))%pyf) ;;
  ssig12 <- math.hypot L salp1 calp1 ;;
  let csig12 := sbet1 * sbet2 + cbet1 * cbet2 * comg12 in
  '(sig12, salp1, calp1, salp2, calp2) <-
    (if shortline && (ssig12 <? _etol2 self) then
       (* really short lines *)
       let salp2 := cbet1 * somg12 in
       calp2 <- (sbet12 - cbet1 * sbet2 * Math.sq somg12 / (1 + comg12))%pyf ;;
       '(salp2, calp2) <- SinCosNorm L salp2 calp2 ;;
       sig12 <- math.atan2 L ssig12 csig12 ;;
       Ok (PFloat sig12, salp1, calp1, salp2, calp2)
     else if (0 <=? csig12)
             || (3 * abs (_f self) * math.pi * Math.sq cbet1 <=? ssig12) then
       (* zeroth order spherical approximation is OK *)
       Ok (sig12, salp1, calp1, salp2, calp2)
     else
       '(x, y, lamscale) <-
         (if 0 <=? _f self then
            let k2 := Math.sq sbet1 * _ep2 self in
            eps <- (k2 / (2 * (1 + math.sqrt (1 + k2)) + k2))%pyf ;;
            a3 <- A3f eps ;;
            let lamscale := _f self * cbet1 * a3 * math.pi in
            let betscale := lamscale * cbet1 in
            x <- ((lam12 - math.pi) / lamscale)%pyf ;;
            y <- (sbet12a / betscale)%pyf ;;
            Ok (x, y, lamscale)
          else
            let cbet12a := cbet2 * cbet1 - sbet2 * sbet1 in
            bet12a <- math.atan2 L sbet12a cbet12a ;;
            (* dummy, m12a, m0, dummy, dummy = self.Lengths(..., dummy, ...) *)
            Raise (UnboundLocalError "dummy")) ;;
       if (- tol1_ <? y) && (-1 - xthresh_ <? x) then
         (* strip near cut; only [_f >= 0] arrives here *)
         let salp1 := PyFloat.min 1 (- x) in
         s <- math.sqrt (1 - Math.sq salp1) ;;
         let calp1 := - s in
         Ok (sig12, salp1, calp1, salp2, calp2)
       else
         (* k = Astroid(x, y) *)
         Raise (NameError "Astroid")) ;;
  '(salp1, calp1) <- SinCosNorm L salp1 calp1 ;;
  Ok (sig12, salp1, calp1, salp2, calp2).

(** What [Lambda12] returns: [lam12, salp2, calp2, sig12, ssig1, csig1,
    ssig2, csig2, eps, domg12, dlam12]. *)
Record lambda12 : Type := mkLambda12 {
  l_lam12 : float; l_salp2 : float; l_calp2 : float; l_sig12 : float;
  l_ssig1 : float; l_csig1 : float; l_ssig2 : float; l_csig2 : float;
  l_eps : float; l_domg12 : float; l_dlam12 : float
}.

Definition Lambda12 (sbet1 cbet1 sbet2 cbet2 salp1 calp1 : float) (diffp : bool)
    (C1a C2a C3a : list float) : M lambda12 :=
  let calp1 := if (sbet1 =? 0) && (calp1 =? 0) then - tiny_ else calp1 in
  let salp0 := salp1 * cbet1 in
  calp0 <- math.hypot L calp1 (salp1 * sbet1) ;;
  let ssig1 := sbet1 in
  let somg1 := salp0 * sbet1 in
  let csig1 := calp1 * cbet1 in
  let comg1 := csig1 in
  '(ssig1, csig1) <- SinCosNorm L ssig1 csig1 ;;
  '(somg1, comg1) <- SinCosNorm L somg1 comg1 ;;
  salp2 <- (if PyFloat.neb cbet2 cbet1 then (salp0 / cbet2)%pyf else Ok salp1) ;;
  calp2 <- (if PyFloat.neb cbet2 cbet1 || PyFloat.neb (abs sbet2) (- sbet1)
            then (math.sqrt (Math.sq (calp1 * cbet1)
                             + (if cbet1 <? - sbet1
                                then (cbet2 - cbet1) * (cbet1 + cbet2)
                                else (sbet1 - sbet2) * (sbet1 + sbet2)))
                  / cbet2)%pyf
            else Ok (abs calp1)) ;;
  let ssig2 := sbet2 in
  let somg2 := salp0 * sbet2 in
  let csig2 := calp2 * cbet2 in
  let comg2 := csig2 in
  '(ssig2, csig2) <- SinCosNorm L ssig2 csig2 ;;
  '(somg2, comg2) <- SinCosNorm L somg2 comg2 ;;
  sig12 <- math.atan2 L (PyFloat.max (csig1 * ssig2 - ssig1 * csig2) 0)
                        (csig1 * csig2 + ssig1 * ssig2) ;;
  omg12 <- math.atan2 L (PyFloat.max (comg1 * somg2 - somg1 * comg2) 0)
                        (comg1 * comg2 + somg1 * somg2) ;;
  let k2 := Math.sq calp0 * _ep2 self in
  eps <- (k2 / (2 * (1 + math.sqrt (1 + k2)) + k2))%pyf ;;
  C3a <- C3f eps C3a ;;
  b2 <- SinCosSeries true ssig2 csig2 C3a (nC3_ - 1) ;;
  b1 <- SinCosSeries true ssig1 csig1 C3a (nC3_ - 1) ;;
  let B312 := b2 - b1 in
  a3 <- A3f eps ;;
  let h0 := - _f self * a3 in
  let domg12 := salp0 * h0 * (sig12 + B312) in
  let lam12 := omg12 + domg12 in
  if diffp then
    dlam12 <- (if calp2 =? 0 then
                 (-2 * math.sqrt (1 - _e2 self * Math.sq cbet1) / sbet1)%pyf
               else
                 '(_, dlam12, _, _, _) <-
                     Lengths eps sig12 ssig1 csig1 ssig2 csig2 cbet1 cbet2 false C1a C2a ;;
                 (dlam12 / (calp2 * cbet2))%pyf) ;;
    Ok (mkLambda12 lam12 salp2 calp2 sig12 ssig1 csig1 ssig2 csig2 eps domg12 dlam12)
  else
    (* [dlam12] was never assigned when the [return] reads it *)
    Raise (UnboundLocalError "dlam12").

(** The Newton iteration of [GenInverse].  [fuel] is [maxit_ - numit].  The
    statement [++trip] of the source is the expression [+(+trip)]: it
    assigns nothing, and [trip] stays 0. *)
Inductive newton_result : Type :=
| Converged (salp1 calp1 : float) (r : lambda12)
| Exhausted.

Fixpoint newton (sbet1 cbet1 sbet2 cbet2 lam12 : float) (C1a C2a C3a : list float)
    (fuel : nat) (salp1 calp1 ov : float) (trip : Z) : M newton_result :=
  match fuel with
  | O => Ok Exhausted
  | S fuel' =>
      r <- Lambda12 sbet1 cbet1 sbet2 cbet2 salp1 calp1 (trip <? 1)%Z C1a C2a C3a ;;
      let v := l_lam12 r - lam12 in
      if negb (tiny_ <? abs v) || negb (trip <? 1)%Z then
        if negb (abs v <=? PyFloat.max tol1_ ov)
        then Ok Exhausted                           (* numit = maxit_; break *)
        else Ok (Converged salp1 calp1 r)           (* break *)
      else
        dalp1 <- ((- v)%float / l_dlam12 r)%pyf ;;
        sdalp1 <- math.sin L dalp1 ;;
        cdalp1 <- math.cos L dalp1 ;;
        let nsalp1 := salp1 * cdalp1 + calp1 * sdalp1 in
        let calp1 := calp1 * cdalp1 - salp1 * sdalp1 in
        let salp1 := PyFloat.max 0 nsalp1 in
        '(salp1, calp1) <- SinCosNorm L salp1 calp1 ;;
        let trip :=
          if negb ((tol1_ <=? abs v) && (ov * tol0_ <=? Math.sq v))
          then trip                                 (* ++trip *)
          else trip in
        newton sbet1 cbet1 sbet2 cbet2 lam12 C1a C2a C3a fuel' salp1 calp1 (abs v) trip
  end.

(** *** GenInverse *)

(** The coordinates in canonical form, and the three signs that record how
    they got there. *)
Record canonical : Type := mkCanonical {
  c_lat1 : float; c_lat2 : float; c_lon12 : float;
  c_lonsign : Z; c_swapp : Z; c_latsign : Z
}.

Definition canonicalize (lat1 lon1 lat2 lon2 : float) : canonical :=
  let lon1 := AngNormalize lon1 in
  let lon12 := AngNormalize (AngNormalize lon2 - lon1) in
  let lon12 := AngRound lon12 in
  let lonsign := if 0 <=? lon12 then 1%Z else (-1)%Z in
  let lon12 := lon12 * PyFloat.of_Z lonsign in
  let lonsign := if lon12 =? 180 then 1%Z else lonsign in
  let lat1 := AngRound lat1 in
  let lat2 := AngRound lat2 in
  let swapp := if abs lat2 <=? abs lat1 then 1%Z else (-1)%Z in
  let '(lonsign, lat1, lat2) :=
    if (swapp <? 0)%Z then ((lonsign * -1)%Z, lat2, lat1) else (lonsign, lat1, lat2) in
  let latsign := if lat1 <? 0 then 1%Z else (-1)%Z in
  let lat1 := lat1 * PyFloat.of_Z latsign in
  let lat2 := lat2 * PyFloat.of_Z latsign in
  mkCanonical lat1 lat2 lon12 lonsign swapp latsign.

(** The solution of the canonical problem, before the signs are put back:
    what the local variables hold when the source reaches "Convert calp,
    salp to azimuth".  [S12] is still without its sign. *)
Record solution : Type := mkSolution {
  s_a12 : float; s_s12 : float; s_m12 : float;
  s_M12 : float; s_M21 : float; s_S12 : float;
  s_salp1 : pynum; s_calp1 : pynum; s_salp2 : pynum; s_calp2 : pynum
}.

(** The Newton iteration can fail: the source then returns at once, with
    whatever [M12] and [M21] hold. *)
Inductive outcome : Type :=
| Solved (s : solution)
| NoConvergence (M12 M21 : float).

(** The local variables after the meridional attempt and the equatorial or
    general case. *)
Record locals : Type := mkLocals {
  v_meridian : bool;
  v_a12 : float; v_s12x : float; v_m12x : float;
  v_M12 : float; v_M21 : float;
  v_omg12 : float;                       (* unbound while [meridian] holds *)
  v_salp1 : pynum; v_calp1 : pynum; v_salp2 : pynum; v_calp2 : pynum
}.

Definition eq0 (x : pynum) : bool := PyNum.to_float x =? 0.
Definition lt0 (x : pynum) : bool := PyNum.to_float x <? 0.
Definition ge0 (x : pynum) : bool := 0 <=? PyNum.to_float x.

(** From [phi = lat1 * Math.degree] to [clam12 = math.cos(lam12)]. *)
Definition reduced (lat1 lat2 lon12 : float)
  : M (float * float * float * float * float * pynum * float) :=
  let phi := lat1 * Math.degree in
  s <- math.sin L phi ;;
  let sbet1 := _f1 self * s in
  cbet1 <- (if lat1 =? -90 then Ok tiny_ else math.cos L phi) ;;
  '(sbet1, cbet1) <- SinCosNorm L sbet1 cbet1 ;;
  let phi := lat2 * Math.degree in
  s <- math.sin L phi ;;
  let sbet2 := _f1 self * s in
  cbet2 <- (if abs lat2 =? 90 then Ok tiny_ else math.cos L phi) ;;
  '(sbet2, cbet2) <- SinCosNorm L sbet2 cbet2 ;;
  let '(sbet2, cbet2) :=
    if cbet1 <? - sbet1 then
      if cbet2 =? cbet1
      then ((if sbet2 <? 0 then sbet1 else - sbet1), cbet2)
      else (sbet2, cbet2)
    else
      if abs sbet2 =? - sbet1 then (sbet2, cbet1) else (sbet2, cbet2) in
  let lam12 := lon12 * Math.degree in
  slam12 <- (if lon12 =? 180 then Ok (PInt 0)
             else (s <- math.sin L lam12 ;; Ok (PFloat s))) ;;
  clam12 <- math.cos L lam12 ;;
  Ok (sbet1, cbet1, sbet2, cbet2, lam12, slam12, clam12).

(** [if meridian: ...]: the endpoints are on a single full meridian.  The
    result is [None] when the block sets [meridian = False]; [M12] and [M21]
    have been assigned by [Lengths] all the same. *)
Definition meridional (sbet1 cbet1 sbet2 cbet2 : float) (slam12 : pynum)
    (clam12 : float) (outmask : Z) (C1a C2a : list float)
  : M (option locals * float * float) :=
  let calp1 := PFloat clam12 in
  let salp1 := slam12 in
  let calp2 := PInt 1 in
  let salp2 := PInt 0 in
  let ssig1 := sbet1 in
  let csig1 := PyNum.to_float calp1 * cbet1 in
  let ssig2 := sbet2 in
  let csig2 := PyNum.to_float calp2 * cbet2 in
  sig12 <- math.atan2 L (PyFloat.max (csig1 * ssig2 - ssig1 * csig2) 0)
                        (csig1 * csig2 + ssig1 * ssig2) ;;
  '(s12x, m12x, _, M12, M21) <-
      Lengths (_n self) sig12 ssig1 csig1 ssig2 csig2 cbet1 cbet2
              (has outmask GEODESICSCALE) C1a C2a ;;
  if (sig12 <? 1) || (0 <=? m12x) then
    let m12x := m12x * _a self in
    let s12x := s12x * _b self in
    let a12 := sig12 / Math.degree in
    Ok (Some (mkLocals true a12 s12x m12x M12 M21 Math.nan
                       salp1 calp1 salp2 calp2), M12, M21)
  else
    Ok (None, M12, M21).

(** [if not meridian and sbet1 == 0 and ...]: geodesic runs along equator. *)
Definition equatorial (lon12 lam12 : float) (outmask : Z) (M12 M21 : float)
  : M locals :=
  let s12x := _a self * lam12 in
  s <- math.sin L (lam12 / _f1 self)%pyf ;;
  let m12x := _b self * s in
  '(M12, M21) <- (if has outmask GEODESICSCALE
                  then (c <- math.cos L (lam12 / _f1 self)%pyf ;; Ok (c, c))
                  else Ok (M12, M21)) ;;
  a12 <- (lon12 / _f1 self)%pyf ;;
  omg12 <- (lam12 / _f1 self)%pyf ;;
  Ok (mkLocals false a12 s12x m12x M12 M21 omg12
               (PInt 1) (PInt 0) (PInt 1) (PInt 0)).

(** [elif not meridian:]: the general case; [None] signals the failure of
    Newton's method. *)
Definition general (sbet1 cbet1 sbet2 cbet2 lam12 : float) (outmask : Z)
    (M12 M21 : float) (C1a C2a C3a : list float) : M (option locals) :=
  '(sig12, salp1, calp1, salp2, calp2) <-
      InverseStart sbet1 cbet1 sbet2 cbet2 lam12 C1a C2a ;;
  if ge0 sig12 then
    (* Short lines (InverseStart sets salp2, calp2) *)
    let sig12 := PyNum.to_float sig12 in
    w1 <- math.sqrt (1 - _e2 self * Math.sq cbet1) ;;
    let s12x := sig12 * _a self * w1 in
    m12x <- (Math.sq w1 * _a self / _f1 self
             * math.sin L (sig12 * _f1 self / w1))%pyf ;;
    '(M12, M21) <- (if has outmask GEODESICSCALE
                    then (c <- math.cos L (sig12 * _f1 self / w1)%pyf ;; Ok (c, c))
                    else Ok (M12, M21)) ;;
    let a12 := sig12 / Math.degree in
    omg12 <- (lam12 / w1)%pyf ;;
    Ok (Some (mkLocals false a12 s12x m12x M12 M21 omg12
                       (PFloat salp1) (PFloat calp1) (PFloat salp2) (PFloat calp2)))
  else
    (* Newton's method *)
    r <- newton sbet1 cbet1 sbet2 cbet2 lam12 C1a C2a C3a maxit_ salp1 calp1 0 0 ;;
    match r with
    | Exhausted => Ok None                          (* Signal failure. *)
    | Converged salp1 calp1 r =>
        '(s12x, m12x, _, M12, M21) <-
            Lengths (l_eps r) (l_sig12 r) (l_ssig1 r) (l_csig1 r) (l_ssig2 r)
                    (l_csig2 r) cbet1 cbet2 (has outmask GEODESICSCALE) C1a C2a ;;
        let m12x := m12x * _a self in
        let s12x := s12x * _b self in
        let a12 := l_sig12 r / Math.degree in
        let omg12 := lam12 - l_domg12 r in
        Ok (Some (mkLocals false a12 s12x m12x M12 M21 omg12
                           (PFloat salp1) (PFloat calp1)
                           (PFloat (l_salp2 r)) (PFloat (l_calp2 r))))
    end.

(** [if outmask & Geodesic.AREA:], up to [S12 += self._c2 * alp12]. *)
Definition area (sbet1 cbet1 sbet2 cbet2 : float) (v : locals) : M float :=
  let salp1 := v_salp1 v in
  let calp1 := v_calp1 v in
  let salp2 := v_salp2 v in
  let calp2 := v_calp2 v in
  let salp0 := PyNum.to_float salp1 * cbet1 in
  calp0 <- math.hypot L (PyNum.to_float calp1) (PyNum.to_float salp1 * sbet1) ;;
  S12 <- (if PyFloat.neb calp0 0 && PyFloat.neb salp0 0 then
            let ssig1 := sbet1 in
            let csig1 := PyNum.to_float calp1 * cbet1 in
            let ssig2 := sbet2 in
            let csig2 := PyNum.to_float calp2 * cbet2 in
            let k2 := Math.sq calp0 * _ep2 self in
            let A4 := Math.sq (_a self) * calp0 * salp0 * _e2 self in
            '(ssig1, csig1) <- SinCosNorm L ssig1 csig1 ;;
            '(ssig2, csig2) <- SinCosNorm L ssig2 csig2 ;;
            C4a <- C4f k2 (PyList.range nC4_) ;;
            B41 <- SinCosSeries false ssig1 csig1 C4a nC4_ ;;
            B42 <- SinCosSeries false ssig2 csig2 C4a nC4_ ;;
            Ok (A4 * (B42 - B41))
          else
            Ok 0) ;;
  alp12 <- (if negb (v_meridian v)
               && (v_omg12 v <? 0.75 * math.pi)
               && (sbet2 - sbet1 <? 1.75) then
              somg12 <- math.sin L (v_omg12 v) ;;
              c <- math.cos L (v_omg12 v) ;;
              let domg12 := 1 + c in
              let dbet1 := 1 + cbet1 in
              let dbet2 := 1 + cbet2 in
              a <- math.atan2 L (somg12 * (sbet1 * dbet2 + sbet2 * dbet1))
                                (domg12 * (sbet1 * sbet2 + dbet1 * dbet2)) ;;
              Ok (2 * a)
            else
              let salp12 := PyNum.sub (PyNum.mul salp2 calp1) (PyNum.mul calp2 salp1) in
              let calp12 := PyNum.add (PyNum.mul calp2 calp1) (PyNum.mul salp2 salp1) in
              let '(salp12, calp12) :=
                if eq0 salp12 && lt0 calp12
                then (PFloat (tiny_ * PyNum.to_float calp1), PInt (-1))
                else (salp12, calp12) in
              math.atan2 L (PyNum.to_float salp12) (PyNum.to_float calp12)) ;;
  Ok (S12 + _c2 self * alp12).

(** The canonical problem: from [phi = lat1 * Math.degree] to the end of the
    area block (without [S12 *= swapp * lonsign * latsign]). *)
Definition solve (lat1 lat2 lon12 : float) (outmask : Z) : M outcome :=
  '(sbet1, cbet1, sbet2, cbet2, lam12, slam12, clam12) <- reduced lat1 lat2 lon12 ;;
  let C1a := PyList.range (nC1_ + 1) in
  let C2a := PyList.range (nC2_ + 1) in
  let C3a := PyList.range nC3_ in
  let meridian := (lat1 =? -90) || eq0 slam12 in
  '(v, M12, M21) <-
    (if meridian
     then meridional sbet1 cbet1 sbet2 cbet2 slam12 clam12 outmask C1a C2a
     else Ok (None, Math.nan, Math.nan)) ;;
  v <- match v with
       | Some v => Ok (Some v)
       | None =>
           if (sbet1 =? 0)
              && ((_f self <=? 0) || (lam12 <=? math.pi - _f self * math.pi))
           then (v <- equatorial lon12 lam12 outmask M12 M21 ;; Ok (Some v))
           else general sbet1 cbet1 sbet2 cbet2 lam12 outmask M12 M21 C1a C2a C3a
       end ;;
  match v with
  | None => Ok (NoConvergence M12 M21)
  | Some v =>
      let s12 := if has outmask DISTANCE then 0 + v_s12x v else Math.nan in
      let m12 := if has outmask REDUCEDLENGTH then 0 + v_m12x v else Math.nan in
      S12 <- (if has outmask AREA then area sbet1 cbet1 sbet2 cbet2 v
              else Ok Math.nan) ;;
      Ok (Solved (mkSolution (v_a12 v) s12 m12 (v_M12 v) (v_M21 v) S12
                             (v_salp1 v) (v_calp1 v) (v_salp2 v) (v_calp2 v)))
  end.

(** "Convert calp, salp to azimuth accounting for lonsign, swapp, latsign",
    with the sign of [S12] that the source sets inside the area block. *)
Definition azimuth (salp calp : pynum) : M float :=
  a <- math.atan2 L (PyNum.to_float (PyNum.neg salp)) (PyNum.to_float calp) ;;
  Ok (0 - a / Math.degree).

(** The values after [salp1 *= swapp * lonsign; ...]: the two directions,
    the geodesic scales in the caller's order and the signed area. *)
Record directed : Type := mkDirected {
  d_salp1 : pynum; d_calp1 : pynum; d_salp2 : pynum; d_calp2 : pynum;
  d_M12 : float; d_M21 : float; d_S12 : float
}.

Definition signed (c : canonical) (outmask : Z) (s : solution) : directed :=
  let swapp := c_swapp c in
  let lonsign := c_lonsign c in
  let latsign := c_latsign c in
  let S12 := if has outmask AREA
             then s_S12 s * PyFloat.of_Z (swapp * lonsign * latsign) + 0
             else s_S12 s in
  let '(salp1, calp1, salp2, calp2, M12, M21) :=
    if (swapp <? 0)%Z then
      (s_salp2 s, s_calp2 s, s_salp1 s, s_calp1 s,
       (if has outmask GEODESICSCALE then s_M21 s else s_M12 s),
       (if has outmask GEODESICSCALE then s_M12 s else s_M21 s))
    else
      (s_salp1 s, s_calp1 s, s_salp2 s, s_calp2 s, s_M12 s, s_M21 s) in
  let salp1 := PyNum.mul salp1 (PInt (swapp * lonsign)) in
  let calp1 := PyNum.mul calp1 (PInt (swapp * latsign)) in
  let salp2 := PyNum.mul salp2 (PInt (swapp * lonsign)) in
  let calp2 := PyNum.mul calp2 (PInt (swapp * latsign)) in
  mkDirected salp1 calp1 salp2 calp2 M12 M21 S12.

Definition restore (c : canonical) (outmask : Z) (s : solution)
  : M (float * float * float * float * float * float * float * float) :=
  let d := signed c outmask s in
  '(azi1, azi2) <- (if has outmask AZIMUTH
                    then (azi1 <- azimuth (d_salp1 d) (d_calp1 d) ;;
                          azi2 <- azimuth (d_salp2 d) (d_calp2 d) ;;
                          Ok (azi1, azi2))
                    else Ok (Math.nan, Math.nan)) ;;
  Ok (s_a12 s, s_s12 s, azi1, azi2, s_m12 s, d_M12 d, d_M21 d, d_S12 d).

(** [GenInverse] returns [a12, s12, azi1, azi2, m12, M12, M21, S12]. *)
Definition GenInverse (lat1 lon1 lat2 lon2 : float) (outmask : Z)
  : M (float * float * float * float * float * float * float * float) :=
  let outmask := Z.land outmask OUT_ALL in
  let c := canonicalize lat1 lon1 lat2 lon2 in
  r <- solve (c_lat1 c) (c_lat2 c) (c_lon12 c) outmask ;;
  match r with
  | NoConvergence M12 M21 =>
      Ok (Math.nan, Math.nan, Math.nan, Math.nan, Math.nan, M12, M21, Math.nan)
  | Solved s => restore c outmask s
  end.

End Solver.

Definition CheckPosition (lat lon : float) : result exn float :=
  if negb (abs lat <=? 90) then Raise (InputError (BadLatitude lat))
  else if negb ((-180 <=? lon) && (lon <=? 360)) then Raise (InputError (BadLongitude lon))
  else Ok (AngNormalize lon).

Definition CheckAzimuth (azi : float) : result exn float :=
  if negb ((-180 <=? azi) && (azi <=? 360)) then Raise (InputError (BadAzimuth azi))
  else Ok (AngNormalize azi).

Definition CheckDistance (s : float) : result exn unit :=
  if negb (Math.isfinite s) then Raise (InputError (BadDistance s))
  else Ok tt.

(** The dictionary that [Inverse] returns: a key is [None] when the
    dictionary has no such entry. *)
Record inverse_result : Type := mkInverseResult {
  i_lat1 : float; i_lon1 : float; i_lat2 : float; i_lon2 : float;
  i_a12 : float;
  i_s12 : option float;
  i_azi1 : option float; i_azi2 : option float;
  i_m12 : option float;
  i_M12 : option float; i_M21 : option float;
  i_S12 : option float
}.

Definition entry (outmask bit : Z) (x : float) : option float :=
  if has outmask bit then Some x else None.

Definition Inverse (L : Libm) (self : t) (lat1 lon1 lat2 lon2 : float) (outmask : Z)
  : result exn inverse_result :=
  lon1 <- CheckPosition lat1 lon1 ;;
  lon2 <- CheckPosition lat2 lon2 ;;
  '(a12, s12, azi1, azi2, m12, M12, M21, S12) <-
      lift (GenInverse L self lat1 lon1 lat2 lon2 outmask) ;;
  let outmask := Z.land outmask OUT_ALL in
  Ok (mkInverseResult lat1 lon1 lat2 lon2 a12
        (entry outmask DISTANCE s12)
        (entry outmask AZIMUTH azi1) (entry outmask AZIMUTH azi2)
        (entry outmask REDUCEDLENGTH m12)
        (entry outmask GEODESICSCALE M12) (entry outmask GEODESICSCALE M21)
        (entry outmask AREA S12)).

End Geodesic.

(** ** class GeodesicLine *)

Module GeodesicLine.
Import Geodesic.

(** The attributes that [__init__] sets only for the capabilities asked. *)
Record cap_C1 : Type := mkC1 {
  _A1m1 : float; _C1a : list float; _B11 : float; _stau1 : float; _ctau1 : float }.
Record cap_C2 : Type := mkC2 { _A2m1 : float; _C2a : list float; _B21 : float }.
Record cap_C3 : Type := mkC3 { _C3a : list float; _A3c : float; _B31 : float }.
Record cap_C4 : Type := mkC4 { _C4a : list float; _A4 : float; _B41 : float }.

Record t : Type := mk {
  _a : float; _f : float; _b : float; _c2 : float; _f1 : float;
  _caps : Z;
  _lat1 : float; _lon1 : float; _azi1 : float;
  _salp1 : float; _calp1 : float;
  _salp0 : float; _calp0 : float;
  _ssig1 : float; _somg1 : float; _csig1 : float; _comg1 : float;
  _k2 : float;
  _C1 : option cap_C1;
  _C1pa : option (list float);
  _C2 : option cap_C2;
  _C3 : option cap_C3;
  _C4 : option cap_C4
}.

(** Reading an attribute that was not set. *)
Definition attr {A} (o : option A) (name : string) : M A :=
  match o with
  | Some v => Ok v
  | None => Raise (AttributeError name)
  end.

Definition when {A} (b : bool) (m : M A) : M (option A) :=
  if b then (v <- m ;; Ok (Some v)) else Ok None.

Definition __init__ (L : Libm) (geod : Geodesic.t) (lat1 lon1 azi1 : float) (caps : Z)
  : M t :=
  let _caps := Z.lor (Z.lor caps LATITUDE) AZIMUTH in
  let azi1 := AngNormalize azi1 in
  let azi1 := AngRound azi1 in
  let lon1 := AngNormalize lon1 in
  let alp1 := azi1 * Math.degree in
  _salp1 <- (if azi1 =? -180 then Ok 0 else math.sin L alp1) ;;
  _calp1 <- (if abs azi1 =? 90 then Ok 0 else math.cos L alp1) ;;
  let phi := lat1 * Math.degree in
  s <- math.sin L phi ;;
  let sbet1 := Geodesic._f1 geod * s in
  cbet1 <- (if abs lat1 =? 90 then Ok tiny_ else math.cos L phi) ;;
  '(sbet1, cbet1) <- SinCosNorm L sbet1 cbet1 ;;
  let _salp0 := _salp1 * cbet1 in
  _calp0 <- math.hypot L _calp1 (_salp1 * sbet1) ;;
  let _ssig1 := sbet1 in
  let _somg1 := _salp0 * sbet1 in
  let _csig1 := if PyFloat.neb sbet1 0 || PyFloat.neb _calp1 0
                then cbet1 * _calp1 else 1 in
  let _comg1 := _csig1 in
  '(_ssig1, _csig1) <- SinCosNorm L _ssig1 _csig1 ;;
  '(_somg1, _comg1) <- SinCosNorm L _somg1 _comg1 ;;
  let _k2 := Math.sq _calp0 * Geodesic._ep2 geod in
  eps <- (_k2 / (2 * (1 + math.sqrt (1 + _k2)) + _k2))%pyf ;;
  c1 <- when (has _caps CAP_C1)
          (_A1m1 <- A1m1f eps ;;
           _C1a <- C1f eps (PyList.range (nC1_ + 1)) ;;
           _B11 <- SinCosSeries true _ssig1 _csig1 _C1a nC1_ ;;
           s <- math.sin L _B11 ;;
           c <- math.cos L _B11 ;;
           let _stau1 := _ssig1 * c + _csig1 * s in
           let _ctau1 := _csig1 * c - _ssig1 * s in
           Ok (mkC1 _A1m1 _C1a _B11 _stau1 _ctau1)) ;;
  c1p <- when (has _caps CAP_C1p) (C1pf eps (PyList.range (nC1p_ + 1))) ;;
  c2 <- when (has _caps CAP_C2)
          (let _A2m1 := A2m1f eps in
           _C2a <- C2f eps (PyList.range (nC2_ + 1)) ;;
           _B21 <- SinCosSeries true _ssig1 _csig1 _C2a nC2_ ;;
           Ok (mkC2 _A2m1 _C2a _B21)) ;;
  c3 <- when (has _caps CAP_C3)
          (_C3a <- C3f geod eps (PyList.range nC3_) ;;
           a3 <- A3f geod eps ;;
           let _A3c := - Geodesic._f geod * _salp0 * a3 in
           _B31 <- SinCosSeries true _ssig1 _csig1 _C3a (nC3_ - 1) ;;
           Ok (mkC3 _C3a _A3c _B31)) ;;
  c4 <- when (has _caps CAP_C4)
          (_C4a <- C4f geod _k2 (PyList.range nC4_) ;;
           let _A4 := Math.sq (Geodesic._a geod) * _calp0 * _salp0 * Geodesic._e2 geod in
           _B41 <- SinCosSeries false _ssig1 _csig1 _C4a nC4_ ;;
           Ok (mkC4 _C4a _A4 _B41)) ;;
  Ok (mk (Geodesic._a geod) (Geodesic._f geod) (Geodesic._b geod) (Geodesic._c2 geod)
         (Geodesic._f1 geod) _caps lat1 lon1 azi1 _salp1 _calp1 _salp0 _calp0
         _ssig1 _somg1 _csig1 _comg1 _k2 c1 c1p c2 c3 c4).

Definition position : Type :=
  (float * float * float * float * float * float * float * float * float)%type.

(** [GenPosition] returns [a12, lat2, lon2, azi2, s12, m12, M12, M21, S12]. *)
Definition GenPosition (L : Libm) (self : t) (arcmode : bool) (s12_a12 : float)
    (outmask : Z) : M position :=
  let nan := Math.nan in
  let outmask := Z.land outmask (Z.land (_caps self) OUT_ALL) in
  if negb (arcmode || has (_caps self) (Z.land DISTANCE_IN OUT_ALL)) then
    Ok (nan, nan, nan, nan, nan, nan, nan, nan, nan)
  else
    '(B12, sig12, ssig12, csig12) <-
      (if arcmode then
         let sig12 := s12_a12 * Math.degree in
         let s12a := abs s12_a12 in
         fl <- math.floor L (s12a / 180) ;;
         let s12a := s12a - 180 * fl in
         ssig12 <- (if s12a =? 0 then Ok 0 else math.sin L sig12) ;;
         csig12 <- (if s12a =? 90 then Ok 0 else math.cos L sig12) ;;
         Ok (0, sig12, ssig12, csig12)
       else
         c1 <- attr (_C1 self) "_A1m1" ;;
         tau12 <- (s12_a12 / (_b self * (1 + _A1m1 c1)))%pyf ;;
         s <- math.sin L tau12 ;;
         c <- math.cos L tau12 ;;
         c1pa <- attr (_C1pa self) "_C1pa" ;;
         x <- SinCosSeries true (_stau1 c1 * c + _ctau1 c1 * s)
                (_ctau1 c1 * c - _stau1 c1 * s) c1pa nC1p_ ;;
         let B12 := - x in
         let sig12 := tau12 - (B12 - _B11 c1) in
         ssig12 <- math.sin L sig12 ;;
         csig12 <- math.cos L sig12 ;;
         Ok (B12, sig12, ssig12, csig12)) ;;
    let ssig2 := _ssig1 self * csig12 + _csig1 self * ssig12 in
    let csig2 := _csig1 self * csig12 - _ssig1 self * ssig12 in
    AB1 <- (if has outmask (Z.lor (Z.lor DISTANCE REDUCEDLENGTH) GEODESICSCALE) then
              B12 <- (if arcmode
                      then (c1 <- attr (_C1 self) "_C1a" ;;
                            SinCosSeries true ssig2 csig2 (_C1a c1) nC1_)
                      else Ok B12) ;;
              c1 <- attr (_C1 self) "_A1m1" ;;
              Ok ((1 + _A1m1 c1) * (B12 - _B11 c1))
            else Ok 0) ;;
    let sbet2 := _calp0 self * ssig2 in
    cbet2 <- math.hypot L (_salp0 self) (_calp0 self * csig2) ;;
    let '(cbet2, csig2) := if cbet2 =? 0 then (tiny_, tiny_) else (cbet2, csig2) in
    let somg2 := _salp0 self * ssig2 in
    let comg2 := csig2 in
    let salp2 := _salp0 self in
    let calp2 := _calp0 self * csig2 in
    omg12 <- math.atan2 L (somg2 * _comg1 self - comg2 * _somg1 self)
                          (comg2 * _comg1 self + somg2 * _somg1 self) ;;
    s12 <- (if has outmask DISTANCE then
              if arcmode
              then (c1 <- attr (_C1 self) "_A1m1" ;;
                    Ok (_b self * ((1 + _A1m1 c1) * sig12 + AB1)))
              else Ok s12_a12
            else Ok nan) ;;
    lon2 <- (if has outmask LONGITUDE then
               c3 <- attr (_C3 self) "_A3c" ;;
               x <- SinCosSeries true ssig2 csig2 (_C3a c3) (nC3_ - 1) ;;
               let lam12 := omg12 + _A3c c3 * (sig12 + (x - _B31 c3)) in
               let lon12 := lam12 / Math.degree in
               fl <- math.floor L (lon12 / 360 + 0.5) ;;
               let lon12 := lon12 - 360 * fl in
               Ok (AngNormalize (_lon1 self + lon12))
             else Ok nan) ;;
    lat2 <- (if has outmask LATITUDE
             then (a <- math.atan2 L sbet2 (_f1 self * cbet2) ;; Ok (a / Math.degree))
             else Ok nan) ;;
    azi2 <- (if has outmask AZIMUTH
             then (a <- math.atan2 L (- salp2) calp2 ;; Ok (0 - a / Math.degree))
             else Ok nan) ;;
    '(m12, M12, M21) <-
      (if has outmask (Z.lor REDUCEDLENGTH GEODESICSCALE) then
         let ssig1sq := Math.sq (_ssig1 self) in
         let ssig2sq := Math.sq ssig2 in
         w1 <- math.sqrt (1 + _k2 self * ssig1sq) ;;
         w2 <- math.sqrt (1 + _k2 self * ssig2sq) ;;
         c2 <- attr (_C2 self) "_C2a" ;;
         B22 <- SinCosSeries true ssig2 csig2 (_C2a c2) nC2_ ;;
         let AB2 := (1 + _A2m1 c2) * (B22 - _B21 c2) in
         c1 <- attr (_C1 self) "_A1m1" ;;
         let J12 := (_A1m1 c1 - _A2m1 c2) * sig12 + (AB1 - AB2) in
         let m12 := if has outmask REDUCEDLENGTH
                    then _b self * ((w2 * (_csig1 self * ssig2)
                                     - w1 * (_ssig1 self * csig2))
                                    - _csig1 self * csig2 * J12)
                    else nan in
         '(M12, M21) <-
           (if has outmask GEODESICSCALE then
              M12 <- (csig12 + (_k2 self * (ssig2sq - ssig1sq) * ssig2 / (w1 + w2)
                                - csig2 * J12) * _ssig1 self / w1)%pyf ;;
              M21 <- (csig12 - (_k2 self * (ssig2sq - ssig1sq) * _ssig1 self / (w1 + w2)
                                - _csig1 self * J12) * ssig2 / w2)%pyf ;;
              Ok (M12, M21)
            else Ok (nan, nan)) ;;
         Ok (m12, M12, M21)
       else Ok (nan, nan, nan)) ;;
    S12 <- (if has outmask AREA then
              c4 <- attr (_C4 self) "_C4a" ;;
              B42 <- SinCosSeries false ssig2 csig2 (_C4a c4) nC4_ ;;
              '(salp12, calp12) <-
                (if (_calp0 self =? 0) || (_salp0 self =? 0) then
                   let salp12 := salp2 * _calp1 self - calp2 * _salp1 self in
                   let calp12 := calp2 * _calp1 self + salp2 * _salp1 self in
                   if (salp12 =? 0) && (calp12 <? 0)
                   then Ok (tiny_ * _calp1 self, -1)
                   else Ok (salp12, calp12)
                 else
                   x <- (if csig12 <=? 0
                         then Ok (_csig1 self * (1 - csig12) + ssig12 * _ssig1 self)
                         else (ssig12 * (_csig1 self * ssig12 / (1 + csig12)
                                         + _ssig1 self))%pyf) ;;
                   let salp12 := _calp0 self * _salp0 self * x in
                   let calp12 := Math.sq (_salp0 self)
                                 + Math.sq (_calp0 self) * _csig1 self * csig2 in
                   Ok (salp12, calp12)) ;;
              a <- math.atan2 L salp12 calp12 ;;
              Ok (_c2 self * a + _A4 c4 * (B42 - _B41 c4))
            else Ok nan) ;;
    let a12 := if arcmode then s12_a12 else sig12 / Math.degree in
    Ok (a12, lat2, lon2, azi2, s12, m12, M12, M21, S12).

End GeodesicLine.

(** ** Geodesic.GenDirect and Geodesic.Direct *)

Module GeodesicDirect.
Import Geodesic.

Definition GenDirect (L : Libm) (self : Geodesic.t) (lat1 lon1 azi1 : float)
    (arcmode : bool) (s12_a12 : float) (outmask : Z) : M GeodesicLine.position :=
  line <- GeodesicLine.__init__ L self lat1 lon1 azi1
            (Z.lor outmask (if arcmode then NONE else DISTANCE_IN)) ;;
  GeodesicLine.GenPosition L line arcmode s12_a12 outmask.

(** The dictionary that [Direct] returns. *)
Record direct_result : Type := mkDirectResult {
  d_lat1 : float; d_lon1 : float; d_azi1 : float; d_s12 : float;
  d_a12 : float;
  d_lat2 : option float; d_lon2 : option float; d_azi2 : option float;
  d_m12 : option float;
  d_M12 : option float; d_M21 : option float;
  d_S12 : option float
}.

Definition Direct (L : Libm) (self : Geodesic.t) (lat1 lon1 azi1 s12 : float)
    (outmask : Z) : result exn direct_result :=
  lon1 <- CheckPosition lat1 lon1 ;;
  azi1 <- CheckAzimuth azi1 ;;
  _ <- CheckDistance s12 ;;
  let s12_in := s12 in
  '(a12, lat2, lon2, azi2, s12, m12, M12, M21, S12) <-
      lift (GenDirect L self lat1 lon1 azi1 false s12 outmask) ;;
  let outmask := Z.land outmask OUT_ALL in
  Ok (mkDirectResult lat1 lon1 azi1 s12_in a12
        (entry outmask LATITUDE lat2) (entry outmask LONGITUDE lon2)
        (entry outmask AZIMUTH azi2)
        (entry outmask REDUCEDLENGTH m12)
        (entry outmask GEODESICSCALE M12) (entry outmask GEODESICSCALE M21)
        (entry outmask AREA S12)).

End GeodesicDirect.

(** ** class PolygonArea *)

Module PolygonArea.

Definition inverse : Type :=
  (float * float * float * float * float * float * float * float)%type.

(** What [PolygonArea] needs of the [earth] object it is given: the attribute
    [_c2] and the method [GenInverse]. *)
Record Earth : Type := mkEarth {
  earth_c2 : float;
  earth_GenInverse : float -> float -> float -> float -> Z -> M inverse
}.

Definition of_Geodesic (L : Libm) (g : Geodesic.t) : Earth :=
  mkEarth (Geodesic._c2 g) (Geodesic.GenInverse L g).

(** Return 1 or -1 if crossing prime meridian in east or west direction.
    Otherwise return zero. *)
Definition transit (lon1 lon2 : float) : Z :=
  let lon1 := Geodesic.AngNormalize lon1 in
  let lon2 := Geodesic.AngNormalize lon2 in
  let lon12 := - Geodesic.AngNormalize (lon1 - lon2) in
  if (lon1 <? 0) && (0 <=? lon2) && (0 <? lon12) then 1%Z
  else if (lon2 <? 0) && (0 <=? lon1) && (lon12 <? 0) then (-1)%Z
  else 0%Z.

(** *** The Accumulator objects

    Accumulators are objects: a PolygonArea holds references to two of them,
    and [Accumulator(other)] makes a new object with the words of [other]. *)
Definition ref : Type := nat.
Definition heap : Type := list Accumulator.t.

Definition load (h : heap) (r : ref) : Accumulator.t :=
  nth r h (Accumulator.mk 0 0).
Definition store (h : heap) (r : ref) (v : Accumulator.t) : heap :=
  PyList.update h r v.
Definition new (h : heap) (v : Accumulator.t) : ref * heap :=
  (List.length h, h ++ [v]).

Definition Accumulator_of_float (h : heap) (y : float) : ref * heap :=
  new h (Accumulator.Set_float y).
Definition Accumulator_of (h : heap) (other : ref) : ref * heap :=
  new h (Accumulator.Set_copy (load h other)).
Definition Set_float (h : heap) (r : ref) (y : float) : heap :=
  store h r (Accumulator.Set_float y).
Definition Add (h : heap) (r : ref) (y : float) : heap :=
  store h r (Accumulator.Add (load h r) y).
Definition Negate (h : heap) (r : ref) : heap :=
  store h r (Accumulator.Negate (load h r)).
Definition Sum (h : heap) (r : ref) (y : float) : float * heap :=
  if y =? 0 then (Accumulator._s (load h r), h)
  else
    let '(b, h) := Accumulator_of h r in
    let h := Add h b y in
    (Accumulator._s (load h b), h).

(** *** The PolygonArea object *)
Record t : Type := mk {
  _earth : Earth;
  _area0 : float;
  _polyline : bool;
  _mask : Z;
  _areasum : option ref;                 (* not set for a polyline *)
  _perimetersum : ref;
  _num : Z;
  _crossings : Z;
  _lat0 : float; _lon0 : float; _lat1 : float; _lon1 : float
}.

Definition Clear (self : t) (h : heap) : t * heap :=
  let h := match _areasum self with
           | Some r => if negb (_polyline self) then Set_float h r 0 else h
           | None => h
           end in
  let h := Set_float h (_perimetersum self) 0 in
  (mk (_earth self) (_area0 self) (_polyline self) (_mask self)
      (_areasum self) (_perimetersum self) 0 0 0 0 0 0, h).

Definition __init__ (earth : Earth) (polyline : bool) (h : heap) : t * heap :=
  let _area0 := 4 * math.pi * earth_c2 earth in
  let _mask := Z.lor Geodesic.DISTANCE (if polyline then 0%Z else Geodesic.AREA) in
  let '(_areasum, h) :=
    if negb polyline
    then (let '(r, h) := Accumulator_of_float h 0 in (Some r, h))
    else (None, h) in
  let '(_perimetersum, h) := Accumulator_of_float h 0 in
  Clear (mk earth _area0 polyline _mask _areasum _perimetersum 0 0 0 0 0 0) h.

Definition get_areasum (self : t) : M ref :=
  match _areasum self with
  | Some r => Ok r
  | None => Raise (AttributeError "_areasum")
  end.

Definition set_point (self : t) (first : bool) (crossings : Z) (lat lon : float) : t :=
  mk (_earth self) (_area0 self) (_polyline self) (_mask self)
     (_areasum self) (_perimetersum self) (_num self + 1) crossings
     (if first then lat else _lat0 self) (if first then lon else _lon0 self) lat lon.

Definition AddPoint (self : t) (lat lon : float) (h : heap) : M unit * t * heap :=
  if (_num self =? 0)%Z then
    (Ok tt, set_point self true (_crossings self) lat lon, h)
  else
    match earth_GenInverse (_earth self) (_lat1 self) (_lon1 self) lat lon (_mask self) with
    | Raise e => (Raise e, self, h)
    | Ok (_, s12, _, _, _, _, _, S12) =>
        let h := Add h (_perimetersum self) s12 in
        if negb (_polyline self) then
          match get_areasum self with
          | Raise e => (Raise e, self, h)
          | Ok r =>
              let h := Add h r S12 in
              let crossings := (_crossings self + transit (_lon1 self) lon)%Z in
              (Ok tt, set_point self false crossings lat lon, h)
          end
        else
          (Ok tt, set_point self false (_crossings self) lat lon, h)
    end.

(** [tempsum < 0] in [Compute] compares an Accumulator object with an
    integer.  The class defines no comparison, so Python 2 orders the two by
    its default rule, under which a number is smaller than any object that
    is not a number: the comparison is false whatever the sum. *)
Definition Accumulator_lt_int (h : heap) (tempsum : ref) (n : Z) : bool := false.

(** If sign put area in (-area0/2, area0/2], else put area in [0, area0). *)
Definition Compute_normalize (area0 : float) (sign : bool) (tempsum : ref) (h : heap)
  : heap :=
  if sign then
    let '(s, h) := Sum h tempsum 0 in
    if area0 / 2 <? s then Add h tempsum (- area0)
    else
      let '(s, h) := Sum h tempsum 0 in
      if s <=? - area0 / 2 then Add h tempsum area0 else h
  else
    let '(s, h) := Sum h tempsum 0 in
    if area0 <=? s then Add h tempsum (- area0)
    else
      let '(s, h) := Sum h tempsum 0 in
      if s <? 0 then Add h tempsum area0 else h.

(** The closing edge of [Compute]: from the call of [GenInverse] to
    [if not reverse: tempsum.Negate()].  It returns the perimeter and the
    new object [tempsum]. *)
Definition Compute_closing (self : t) (reverse : bool) (h : heap)
  : M (float * ref) * heap :=
  match earth_GenInverse (_earth self) (_lat1 self) (_lon1 self)
                         (_lat0 self) (_lon0 self) (_mask self) with
  | Raise e => (Raise e, h)
  | Ok (_, s12, _, _, _, _, _, S12) =>
      let '(perimeter, h) := Sum h (_perimetersum self) s12 in
      match get_areasum self with
      | Raise e => (Raise e, h)
      | Ok r =>
          let '(tempsum, h) := Accumulator_of h r in
          let h := Add h tempsum S12 in
          let crossings := (_crossings self + transit (_lon1 self) (_lon0 self))%Z in
          let h := if negb (Z.land crossings 1 =? 0)%Z
                   then Add h tempsum
                          (PyFloat.of_Z (if Accumulator_lt_int h tempsum 0
                                         then 1 else -1) * _area0 self / 2)
                   else h in
          let h := if negb reverse then Negate h tempsum else h in
          (Ok (perimeter, tempsum), h)
      end
  end.

(** [Compute] returns [number, perimeter, area]. *)
Definition Compute (self : t) (reverse sign : bool) (h : heap)
  : M (Z * pynum * pynum) * heap :=
  let area := PFloat Math.nan in          (* read only when [_polyline] *)
  if (_num self <? 2)%Z then
    let perimeter := PInt 0 in
    let area := if negb (_polyline self) then PInt 0 else area in
    (Ok (_num self, perimeter, area), h)
  else if _polyline self then
    let '(perimeter, h) := Sum h (_perimetersum self) 0 in
    (Ok (_num self, PFloat perimeter, area), h)
  else
    match Compute_closing self reverse h with
    | (Raise e, h) => (Raise e, h)
    | (Ok (perimeter, tempsum), h) =>
        let h := Compute_normalize (_area0 self) sign tempsum h in
        let '(s, h) := Sum h tempsum 0 in
        (Ok (_num self, PFloat perimeter, PFloat (0 + s)), h)
    end.





(** [for p in points: poly.AddPoint(p['lat'], p['lon'])]. *)
Fixpoint AddPoints (self : t) (points : list (float * float)) (h : heap)
  : M unit * t * heap :=
  match points with
  | [] => (Ok tt, self, h)
  | (lat, lon) :: points' =>
      match AddPoint self lat lon h with
      | (Raise e, self, h) => (Raise e, self, h)
      | (Ok _, self, h) => AddPoints self points' h
      end
  end.

Definition Area (earth : Earth) (points : list (float * float)) (polyline : bool)
  : M (Z * pynum * pynum) :=
  let '(poly, h) := __init__ earth polyline [] in
  match AddPoints poly points h with
  | (Raise e, _, _) => Raise e
  | (Ok _, poly, h) => fst (Compute poly false true h)
  end.

End PolygonArea.

(** ** Geodesic.Area *)

Module GeodesicArea.
Import Geodesic.

(** [for p in points: Geodesic.CheckPosition(p['lat'], p['lon'])]. *)
Fixpoint CheckPositions (points : list (float * float)) : result exn unit :=
  match points with
  | [] => Ok tt
  | (lat, lon) :: points' =>
      _ <- CheckPosition lat lon ;;
      CheckPositions points'
  end.

(** The dictionary that [Area] returns: [area] is [None] when the
    dictionary has no such entry. *)
Record area_result : Type := mkAreaResult {
  r_number : Z;
  r_perimeter : pynum;
  r_area : option pynum
}.

Definition Area (L : Libm) (self : Geodesic.t) (points : list (float * float))
    (polyline : bool) : result exn area_result :=
  _ <- CheckPositions points ;;
  '(num, perimeter, area) <-
      lift (PolygonArea.Area (PolygonArea.of_Geodesic L self) points polyline) ;;
  Ok (mkAreaResult num perimeter (if negb polyline then Some area else None)).

End GeodesicArea.

(** ** A reference C library

    [RefLibm] is an instance of [Libm] to run the model with: it follows
    C99 (Annex F) at the special arguments (zeros, infinities, NaN) and
    computes the other values from series, to within a few units in the last
    place.  No theorem that is stated for every [Libm] depends on it. *)

Module RefLibm.

Definition two52 : float := 0x1p52.

(** The integer part of a finite float, rounded towards minus infinity. *)
Definition floorZ (x : float) : Z :=
  match Prim2SF x with
  | S754_finite s m e =>
      let n := match e with
               | Zneg p => if s then (- ((Zpos m + 2 ^ Zpos p - 1) / 2 ^ Zpos p))%Z
                           else (Zpos m / 2 ^ Zpos p)%Z
               | _ => if s then (- (Zpos m * 2 ^ e))%Z else (Zpos m * 2 ^ e)%Z
               end in
      n
  | _ => 0%Z
  end.

Definition floor (x : float) : float :=
  if is_nan x || is_infinity x || (two52 <=? abs x) || (x =? 0) then x
  else
    let n := floorZ x in
    if (n =? 0)%Z then 0 else PyFloat.of_Z n.

(** [c0 + z * (c1 + z * (c2 + ...))]. *)
Fixpoint horner (c : list float) (z : float) : float :=
  match c with
  | [] => 0
  | c0 :: c' => c0 + z * horner c' z
  end.

(** pi/2 in three pieces, for the argument reduction. *)
Definition pio2_1 : float := 0x1.921fb544p+0.
Definition pio2_2 : float := 0x1.0b4611a6p-34.
Definition pio2_3 : float := 0x1.3198a2ep-69.
Definition pio2_4 : float := 0x1.b839a252049c1p-104.

Definition reduce (x : float) : Z * float :=
  let n := floorZ (x * (2 / math.pi) + 0.5) in
  let fn := PyFloat.of_Z n in
  let r := (((x - fn * pio2_1) - fn * pio2_2) - fn * pio2_3) - fn * pio2_4 in
  ((n mod 4)%Z, r).

Definition sin_coeff : list float :=
  [ 1; -1/6; 1/120; -1/5040; 1/362880; -1/39916800; 1/6227020800;
    -1/1307674368000; 1/355687428096000; -1/121645100408832000 ].

Definition cos_coeff : list float :=
  [ 1; -1/2; 1/24; -1/720; 1/40320; -1/3628800; 1/479001600;
    -1/87178291200; 1/20922789888000; -1/6402373705728000 ].

Definition ksin (r : float) : float := r * horner sin_coeff (r * r).
Definition kcos (r : float) : float := horner cos_coeff (r * r).

Definition sin (x : float) : float :=
  if is_nan x || is_infinity x then nan
  else if x =? 0 then x
  else
    let '(q, r) := reduce x in
    if (q =? 0)%Z then ksin r
    else if (q =? 1)%Z then kcos r
    else if (q =? 2)%Z then - ksin r
    else - kcos r.

Definition cos (x : float) : float :=
  if is_nan x || is_infinity x then nan
  else
    let '(q, r) := reduce x in
    if (q =? 0)%Z then kcos r
    else if (q =? 1)%Z then - ksin r
    else if (q =? 2)%Z then - kcos r
    else ksin r.

Definition atan_coeff : list float :=
  [ 1; -1/3; 1/5; -1/7; 1/9; -1/11; 1/13; -1/15; 1/17; -1/19; 1/21; -1/23 ].

(** [atan t = 2 * atan (t / (1 + sqrt (1 + t^2)))]. *)
Definition halve (t : float) : float := t / (1 + sqrt (1 + t * t)).

(** The arc tangent of [0 <= t <= 1]. *)
Definition atan01 (t : float) : float :=
  let u := halve (halve (halve t)) in
  8 * (u * horner atan_coeff (u * u)).

Definition pi_lo : float := 0x1.1a62633145c07p-53.

Definition atan (x : float) : float :=
  if is_nan x then nan
  else if x =? 0 then x
  else
    let a := abs x in
    let r := if a <=? 1 then atan01 a
             else (math.pi / 2 - (atan01 (1 / a) - pi_lo / 2)) in
    if x <? 0 then - r else r.

Definition atan2 (y x : float) : float :=
  if is_nan x || is_nan y then nan
  else
    let neg := get_sign y in
    let sgn (r : float) := if neg then - r else r in
    if y =? 0 then (if get_sign x then sgn math.pi else sgn 0)
    else if x =? 0 then sgn (math.pi / 2)
    else if is_infinity x then
      (if is_infinity y
       then (if x <? 0 then sgn (3 * (math.pi / 4)) else sgn (math.pi / 4))
       else (if x <? 0 then sgn math.pi else sgn 0))
    else if is_infinity y then sgn (math.pi / 2)
    else
      let q := atan (abs y / abs x) in
      if x <? 0 then sgn (math.pi - (q - pi_lo)) else sgn q.

Definition hypot (x y : float) : float :=
  if is_infinity x || is_infinity y then infinity
  else if is_nan x || is_nan y then nan
  else
    let a := abs x in
    let b := abs y in
    let '(a, b) := if a <? b then (b, a) else (a, b) in
    if a =? 0 then 0
    else let r := b / a in a * sqrt (1 + r * r).

Definition atanh_coeff : list float :=
  [ 1; 1/3; 1/5; 1/7; 1/9; 1/11; 1/13; 1/15; 1/17; 1/19; 1/21; 1/23; 1/25;
    1/27; 1/29; 1/31; 1/33; 1/35; 1/37; 1/39; 1/41; 1/43; 1/45; 1/47; 1/49 ].

(** The series of [atanh], for small arguments. *)
Definition atanh_series (x : float) : float := x * horner atanh_coeff (x * x).

Definition ln2_hi : float := 0x1.62e42feep-1.
Definition ln2_lo : float := 0x1.a39ef35793c76p-33.

(** The logarithm of a positive finite float. *)
Definition log_pos (x : float) : float :=
  let '(m, e) := Z.frexp x in
  let '(m, e) := if m <? 0x1.6a09e667f3bcdp-1 then (2 * m, (e - 1)%Z) else (m, e) in
  let fe := PyFloat.of_Z e in
  fe * ln2_hi + (fe * ln2_lo + 2 * atanh_series ((m - 1) / (m + 1))).

Definition log (x : float) : float :=
  if is_nan x then nan
  else if x =? 0 then neg_infinity
  else if x <? 0 then nan
  else if is_infinity x then infinity
  else log_pos x.

Definition atanh (x : float) : float :=
  if is_nan x then nan
  else if x =? 0 then x
  else if 1 <? abs x then nan
  else if abs x =? 1 then (if x <? 0 then neg_infinity else infinity)
  else if abs x <? 0.25 then atanh_series x
  else log ((1 + x) / (1 - x)) / 2.

Definition exp_coeff : list float :=
  [ 1; 1; 1/2; 1/6; 1/24; 1/120; 1/720; 1/5040; 1/40320; 1/362880; 1/3628800;
    1/39916800; 1/479001600; 1/6227020800; 1/87178291200 ].

Definition exp (x : float) : float :=
  if is_nan x then nan
  else if 710 <? x then infinity
  else if x <? -746 then 0
  else
    let n := floorZ (x / (ln2_hi + ln2_lo) + 0.5) in
    let fn := PyFloat.of_Z n in
    let r := (x - fn * ln2_hi) - fn * ln2_lo in
    Z.ldexp (horner exp_coeff r) n.

(** Powers of a non-negative base; the solver takes cube roots only. *)
Definition pow (x y : float) : float :=
  if y =? 0 then 1
  else if is_nan x || is_nan y then nan
  else if x <? 0 then nan
  else if x =? 0 then (if y <? 0 then infinity else 0)
  else exp (y * log x).

Definition libm : Libm :=
  math.Build_Libm sin cos atan atan2 atanh hypot pow floor.

End RefLibm.

(** The module's instance [Geodesic.WGS84], over a C library. *)
Module Constants.
Definition WGS84_a : float := 6378137.
Definition WGS84_f : float := 1 / 298.257223563.
End Constants.

Definition WGS84 (L : Libm) : result exn Geodesic.t :=
  Geodesic.__init__ L Constants.WGS84_a Constants.WGS84_f.

(** * Properties *)

(** ** Comparisons of floats *)

Module FloatFacts.

Lemma SFcompare_antisym x y :
  SFcompare y x = option_map CompOpp (SFcompare x y).
Proof.
  destruct x as [sx|sx| |sx mx ex], y as [sy|sy| |sy my ey]; simpl; auto;
    try (destruct sx; reflexivity); try (destruct sy; reflexivity);
    try (destruct sx, sy; reflexivity).
  destruct sx, sy; simpl; auto; f_equal;
    rewrite (Z.compare_antisym ey ex); destruct (ey ?= ex)%Z; simpl; auto.
  - f_equal. symmetry. apply (Pos.compare_cont_antisym mx my Eq).
  - symmetry. apply (Pos.compare_cont_antisym mx my Eq).
Qed.

Lemma leb_not_ltb x y : (x <=? y) = true -> (y <? x) = false.
Proof.
  rewrite leb_spec, ltb_spec. unfold SFleb, SFltb.
  rewrite (SFcompare_antisym (Prim2SF x) (Prim2SF y)).
  destruct (SFcompare (Prim2SF x) (Prim2SF y)) as [[]|]; simpl; congruence.
Qed.

Lemma ltb_not_leb x y : (x <? y) = true -> (y <=? x) = false.
Proof.
  rewrite leb_spec, ltb_spec. unfold SFleb, SFltb.
  rewrite (SFcompare_antisym (Prim2SF x) (Prim2SF y)).
  destruct (SFcompare (Prim2SF x) (Prim2SF y)) as [[]|]; simpl; congruence.
Qed.

(** Adding the integer 0 changes no comparison: it only turns -0.0 into 0.0. *)
Lemma SFcompare_zero_add_l x y :
  SFcompare (Prim2SF (0 + x)) y = SFcompare (Prim2SF x) y.
Proof.
  rewrite add_spec. change (Prim2SF 0) with (S754_zero false).
  destruct (Prim2SF x) as [s|s| |s m e]; try reflexivity.
  destruct s; reflexivity.
Qed.

Lemma SFcompare_zero_add_r x y :
  SFcompare y (Prim2SF (0 + x)) = SFcompare y (Prim2SF x).
Proof.
  rewrite (SFcompare_antisym (Prim2SF (0 + x)) y), (SFcompare_antisym (Prim2SF x) y).
  now rewrite SFcompare_zero_add_l.
Qed.

Lemma ltb_zero_add_l x y : (0 + x <? y) = (x <? y).
Proof. rewrite !ltb_spec. unfold SFltb. now rewrite SFcompare_zero_add_l. Qed.
Lemma ltb_zero_add_r x y : (y <? 0 + x) = (y <? x).
Proof. rewrite !ltb_spec. unfold SFltb. now rewrite SFcompare_zero_add_r. Qed.
Lemma leb_zero_add_l x y : (0 + x <=? y) = (x <=? y).
Proof. rewrite !leb_spec. unfold SFleb. now rewrite SFcompare_zero_add_l. Qed.
Lemma leb_zero_add_r x y : (y <=? 0 + x) = (y <=? x).
Proof. rewrite !leb_spec. unfold SFleb. now rewrite SFcompare_zero_add_r. Qed.

(** [abs x <= c] says that [x] lies in [[-c, c]], for a positive number [c]. *)
Lemma abs_leb x c mc ec :
  Prim2SF c = S754_finite false mc ec ->
  (abs x <=? c) = ((- c <=? x) && (x <=? c)).
Proof.
  intros Hc. rewrite !leb_spec, abs_spec, opp_spec, Hc. unfold SFleb.
  destruct (Prim2SF x) as [s|s| |s m e]; simpl; try reflexivity;
    try (destruct s; reflexivity).
  destruct s; simpl; [|reflexivity].
  rewrite andb_true_r.
  rewrite (Z.compare_antisym e ec). destruct (e ?= ec)%Z; simpl; auto.
  change (PosDef.Pos.compare_cont Eq mc m) with (Pos.compare_cont (CompOpp Eq) mc m).
  rewrite <- (Pos.compare_cont_antisym m mc Eq).
  change (PosDef.Pos.compare_cont Eq m mc) with (Pos.compare_cont Eq m mc).
  destruct (Pos.compare_cont Eq m mc); reflexivity.
Qed.

(** A finite float has a mantissa below [2^53] and an exponent in range. *)
Lemma digits2_pos_lt m : (Zpos m < 2 ^ Zpos (digits2_pos m))%Z.
Proof.
  induction m as [p IH|p IH|]; simpl digits2_pos;
    rewrite ?Pos2Z.inj_succ, ?Z.pow_succ_r by lia; lia.
Qed.

Lemma valid_finite x s m e :
  Prim2SF x = S754_finite s m e ->
  (Zpos m < 2 ^ 53 /\ -1074 <= e <= 971)%Z.
Proof.
  intros H. assert (Hv := Prim2SF_valid x). rewrite H in Hv.
  unfold valid_binary, bounded, canonical_mantissa, fexp, emin, emax, prec in Hv.
  apply andb_prop in Hv. destruct Hv as [Hc He].
  apply Z.eqb_eq in Hc. apply Z.leb_le in He.
  assert (Hd := digits2_pos_lt m).
  assert (Zpos (digits2_pos m) <= 53)%Z by lia.
  split; [|lia].
  eapply Z.lt_le_trans; [exact Hd|].
  apply Z.pow_le_mono_r; lia.
Qed.

Lemma Zpos_le_pos m N : (Z.pos m <= Z.pos N)%Z -> (m <= N)%positive.
Proof. intros H. exact H. Qed.

Lemma SFleb_finite_abs s m e N E :
  (m <= N)%positive -> (e <= E)%Z ->
  SFleb (SFabs (S754_finite s m e)) (S754_finite false N E) = true.
Proof.
  intros Hm He. unfold SFleb. cbv beta iota delta [SFabs SFcompare].
  change (PosDef.Pos.compare_cont Eq m N) with (Pos.compare m N).
  destruct (Z.compare_spec e E) as [Heq|Hlt|Hgt].
  - unfold Pos.le in Hm. destruct (m ?= N)%positive; [reflexivity|reflexivity|congruence].
  - reflexivity.
  - clear Hm. lia.
Qed.

Lemma SFeqb_finite_refl s m e :
  SFeqb (S754_finite s m e) (S754_finite s m e) = true.
Proof.
  unfold SFeqb. cbv beta iota delta [SFcompare].
  rewrite (Z.compare_refl e).
  change (PosDef.Pos.compare_cont Eq m m) with (Pos.compare m m).
  rewrite (Pos.compare_refl m). destruct s; reflexivity.
Qed.

Lemma maxval_SF : Prim2SF Math.maxval = S754_finite false 9007199254740991 971.
Proof. vm_compute. reflexivity. Qed.

Lemma mantissa_bound m : (Z.pos m < 2 ^ 53)%Z -> (m <= 9007199254740991)%positive.
Proof.
  intros H. apply Zpos_le_pos.
  assert (P : (2 ^ 53 = 9007199254740992)%Z) by (vm_compute; reflexivity).
  rewrite P in H. clear P. lia.
Qed.

Lemma isfinite_spec x : Math.isfinite x = negb (is_nan x || is_infinity x).
Proof.
  unfold Math.isfinite, is_nan, is_infinity.
  rewrite leb_spec, !eqb_spec, abs_spec, maxval_SF.
  change (Prim2SF infinity) with (S754_infinity false).
  destruct (Prim2SF x) as [s|s| |s m e] eqn:E; try reflexivity.
  - destruct s; reflexivity.
  - destruct (valid_finite x s m e E) as [Hm He].
    rewrite SFleb_finite_abs, SFeqb_finite_refl;
      [reflexivity | now apply mantissa_bound | lia].
Qed.

End FloatFacts.

(** ** Rounding of a quotient *)

Module RoundFacts.
Import FloatFacts.
Open Scope Z_scope.

Lemma Zdigits2_nonneg m : 0 <= Zdigits2 m.
Proof. destruct m; simpl; lia. Qed.

Lemma Zdigits2_lt m : 0 <= m -> m < 2 ^ Zdigits2 m.
Proof.
  destruct m as [|p|p]; simpl; intros H; try lia.
  apply digits2_pos_lt.
Qed.

Lemma digits2_pos_ge p : 2 ^ (Zpos (digits2_pos p) - 1) <= Zpos p.
Proof.
  induction p as [p IH|p IH|]; simpl digits2_pos;
    rewrite ?Pos2Z.inj_succ.
  - replace (Z.succ (Zpos (digits2_pos p)) - 1) with (Z.succ (Zpos (digits2_pos p) - 1)) by lia.
    rewrite Z.pow_succ_r by lia. lia.
  - replace (Z.succ (Zpos (digits2_pos p)) - 1) with (Z.succ (Zpos (digits2_pos p) - 1)) by lia.
    rewrite Z.pow_succ_r by lia. lia.
  - simpl. lia.
Qed.

Lemma Zdigits2_ge m : 0 < m -> 2 ^ (Zdigits2 m - 1) <= m.
Proof.
  destruct m as [|p|p]; simpl; intros H; try lia.
  apply digits2_pos_ge.
Qed.

(** [m < 2^k] bounds the number of digits. *)
Lemma Zdigits2_le_of_lt m k : 0 <= m -> 0 <= k -> m < 2 ^ k -> Zdigits2 m <= k.
Proof.
  intros Hm Hk H.
  destruct (Z.eq_dec m 0) as [->|Hz]; [simpl; lia|].
  assert (Hg := Zdigits2_ge m ltac:(lia)).
  assert (Hlt : 2 ^ (Zdigits2 m - 1) < 2 ^ k) by lia.
  apply Z.pow_lt_mono_r_iff in Hlt; lia.
Qed.

(** [2^k <= m] gives at least [k + 1] digits. *)
Lemma Zdigits2_gt_of_le m k : 0 <= k -> 2 ^ k <= m -> k < Zdigits2 m.
Proof.
  intros Hk H.
  assert (0 < 2 ^ k) by (apply Z.pow_pos_nonneg; lia).
  assert (Hl := Zdigits2_lt m ltac:(lia)).
  assert (Hlt : 2 ^ k < 2 ^ Zdigits2 m) by lia.
  apply Z.pow_lt_mono_r_iff in Hlt; [lia|lia|apply Zdigits2_nonneg].
Qed.

Lemma shr_1_half mrs :
  0 <= shr_m mrs -> 0 <= shr_m (shr_1 mrs) /\ 2 * shr_m (shr_1 mrs) <= shr_m mrs.
Proof.
  destruct mrs as [m r s]. simpl shr_m at 1. intros H.
  destruct m as [|p|p]; [simpl; lia| |lia].
  destruct p; simpl; lia.
Qed.

Lemma pow2_xO p : 2 ^ Zpos p~0 = 2 ^ Zpos p * 2 ^ Zpos p.
Proof.
  rewrite <- Z.pow_add_r by lia. f_equal. lia.
Qed.

Lemma pow2_xI p : 2 ^ Zpos p~1 = 2 * (2 ^ Zpos p * 2 ^ Zpos p).
Proof.
  rewrite <- Z.pow_add_r by lia. rewrite <- Z.pow_succ_r by lia. f_equal. lia.
Qed.

Lemma iter_shr_1 p : forall mrs,
  0 <= shr_m mrs ->
  0 <= shr_m (iter_pos shr_1 p mrs) /\
  2 ^ Zpos p * shr_m (iter_pos shr_1 p mrs) <= shr_m mrs.
Proof.
  induction p as [p IH|p IH|]; intros mrs H; simpl iter_pos.
  - destruct (shr_1_half mrs H) as [H0 H1].
    destruct (IH _ H0) as [H2 H3].
    destruct (IH _ H2) as [H4 H5].
    split; [exact H4|].
    rewrite pow2_xI.
    assert (0 < 2 ^ Zpos p) by (apply Z.pow_pos_nonneg; lia).
    nia.
  - destruct (IH _ H) as [H2 H3].
    destruct (IH _ H2) as [H4 H5].
    split; [exact H4|].
    rewrite pow2_xO.
    assert (0 < 2 ^ Zpos p) by (apply Z.pow_pos_nonneg; lia).
    nia.
  - destruct (shr_1_half mrs H) as [H0 H1]. split; [exact H0|].
    change (2 ^ 1) with 2. exact H1.
Qed.

Lemma shr_record_of_loc_m m l : shr_m (shr_record_of_loc m l) = m.
Proof. destruct l as [|[]]; reflexivity. Qed.

(** [shr] by [n]: the exponent grows by [n] (when positive) and the
    mantissa shrinks by [2^n] at least. *)
Lemma shr_spec mrs e n :
  0 <= shr_m mrs ->
  let '(mrs', e') := shr mrs e n in
  e' = e + Z.max n 0 /\ 0 <= shr_m mrs' /\
  2 ^ Z.max n 0 * shr_m mrs' <= shr_m mrs.
Proof.
  intros H. unfold shr. destruct n as [|p|p].
  - change (Z.max 0 0) with 0. change (2 ^ 0) with 1. split; [lia|]. split; [exact H|]. lia.
  - destruct (iter_shr_1 p mrs H) as [H0 H1].
    change (Z.max (Zpos p) 0) with (Zpos p). auto.
  - change (Z.max (Zneg p) 0) with 0. change (2 ^ 0) with 1. split; [lia|]. split; [exact H|]. lia.
Qed.

Lemma round_nearest_even_bounds m l :
  m <= round_nearest_even m l <= m + 1.
Proof.
  unfold round_nearest_even. destruct l as [|[]]; try lia.
  destruct (Z.even m); lia.
Qed.

Lemma fexp_eq x : fexp 53 1024 x = Z.max (x - 53) (-1074).
Proof. reflexivity. Qed.

Lemma SFleb_finite_pos m e N E :
  (Zpos m <= Zpos N) -> (e <= E) ->
  SFleb (S754_finite false m e) (S754_finite false N E) = true.
Proof.
  intros Hm He. apply (SFleb_finite_abs false m e N E); [|exact He].
  apply Zpos_le_pos. exact Hm.
Qed.

Lemma SFleb_finite_lt_exp m e N E :
  e < E -> SFleb (S754_finite false m e) (S754_finite false N E) = true.
Proof.
  intros He. unfold SFleb. cbv beta iota delta [SFcompare].
  apply Z.compare_lt_iff in He. rewrite He. reflexivity.
Qed.

(** A quotient below one, at working precision, rounds to at most one. *)
Lemma binary_round_aux_le_one mx ex lx N :
  Zpos N = 2 ^ 52 ->
  0 <= mx ->
  Zdigits2 mx + ex <= 0 ->
  ex <= fexp 53 1024 (Zdigits2 mx + ex) ->
  SFleb (binary_round_aux 53 1024 false mx ex lx) (S754_finite false N (-52)) = true.
Proof.
  intros HN Hmx Hd Hex.
  unfold binary_round_aux, shr_fexp.
  rewrite fexp_eq in Hex.
  set (n1 := fexp 53 1024 (Zdigits2 mx + ex) - ex).
  assert (Hn1 : n1 = Z.max (Zdigits2 mx + ex - 53) (-1074) - ex) by reflexivity.
  assert (H1 := shr_spec (shr_record_of_loc mx lx) ex n1).
  rewrite shr_record_of_loc_m in H1. specialize (H1 Hmx).
  destruct (shr (shr_record_of_loc mx lx) ex n1) as [mrs' e1].
  destruct H1 as (He1 & Hm1 & Hs1).
  assert (Hn1' : Z.max n1 0 = n1) by lia.
  rewrite Hn1' in He1, Hs1.
  assert (He1' : e1 <= -53) by lia.
  assert (Hlt := Zdigits2_lt mx Hmx).
  assert (Hpd : 2 ^ Zdigits2 mx <= 2 ^ (- ex))
    by (apply Z.pow_le_mono_r; [lia|]; lia).
  assert (Hsplit : 2 ^ (- ex) = 2 ^ n1 * 2 ^ (- e1))
    by (rewrite <- Z.pow_add_r by lia; f_equal; lia).
  assert (Hp1 : 0 < 2 ^ n1) by (apply Z.pow_pos_nonneg; lia).
  assert (Hb1 : shr_m mrs' < 2 ^ (- e1)) by nia.
  assert (Hr := round_nearest_even_bounds (shr_m mrs') (loc_of_shr_record mrs')).
  set (m2 := round_nearest_even (shr_m mrs') (loc_of_shr_record mrs')) in *.
  assert (Hm2 : 0 <= m2) by lia.
  assert (Hb2 : m2 <= 2 ^ (- e1)) by lia.
  assert (Hd2 : Zdigits2 m2 <= - e1 + 1).
  { apply Zdigits2_le_of_lt; [lia|lia|].
    rewrite Z.pow_add_r by lia. change (2 ^ 1) with 2.
    assert (0 < 2 ^ (- e1)) by (apply Z.pow_pos_nonneg; lia). lia. }
  set (n2 := fexp 53 1024 (Zdigits2 m2 + e1) - e1).
  assert (Hn2 : n2 = Z.max (Zdigits2 m2 + e1 - 53) (-1074) - e1) by reflexivity.
  assert (H2 := shr_spec (shr_record_of_loc m2 loc_Exact) e1 n2).
  rewrite shr_record_of_loc_m in H2. specialize (H2 Hm2).
  destruct (shr (shr_record_of_loc m2 loc_Exact) e1 n2) as [mrs'' e2].
  destruct H2 as (He2 & Hm3 & Hs2).
  assert (He2' : e2 <= -52) by lia.
  destruct (shr_m mrs'') as [|p|p] eqn:Ep.
  - reflexivity.
  - assert (Hle : (e2 <=? 1024 - 53) = true) by (apply Z.leb_le; lia).
    rewrite Hle.
    destruct (Z.eq_dec e2 (-52)) as [Heq|Hne];
      [|apply SFleb_finite_lt_exp; lia].
    apply SFleb_finite_pos; [|exact He2'].
    rewrite HN.
    assert (Hk : Z.max n2 0 = -52 - e1) by lia.
    rewrite Hk in Hs2.
    assert (Hsp : 2 ^ (- e1) = 2 ^ (-52 - e1) * 2 ^ 52)
      by (rewrite <- Z.pow_add_r by lia; f_equal; lia).
    assert (0 < 2 ^ (-52 - e1)) by (apply Z.pow_pos_nonneg; lia).
    nia.
  - lia.
Qed.

Lemma Zdigits2_53 m : 2 ^ 52 <= m < 2 ^ 53 -> Zdigits2 m = 53.
Proof.
  intros [Hl Hu].
  assert (H1 := Zdigits2_gt_of_le m 52 ltac:(lia) Hl).
  assert (H2 := Zdigits2_le_of_lt m 53 ltac:(lia) ltac:(lia) Hu).
  lia.
Qed.

(** One divided by a float above one, in the format. *)
Lemma SFdiv_one_le N my ey :
  Zpos N = 2 ^ 52 ->
  2 ^ 52 <= Zpos my < 2 ^ 53 ->
  -52 <= ey <= 971 ->
  -52 < ey \/ 2 ^ 52 < Zpos my ->
  SFleb (SFdiv 53 1024 (S754_finite false N (-52)) (S754_finite false my ey))
        (S754_finite false N (-52)) = true.
Proof.
  intros HN Hmy Hey Hgt.
  unfold SFdiv, SFdiv_core_binary.
  rewrite (Zdigits2_53 (Zpos N)) by (rewrite HN; split; [lia|apply Z.pow_lt_mono_r; lia]).
  rewrite (Zdigits2_53 (Zpos my)) by exact Hmy.
  rewrite fexp_eq.
  set (e' := Z.min (Z.max (53 + -52 - (53 + ey) - 53) (-1074)) (-52 - ey)).
  assert (He' : e' = Z.max (-105 - ey) (-1074)) by lia.
  set (s := -52 - ey - e').
  assert (Hs : 51 <= s <= 53) by lia.
  destruct s as [|ps|ps] eqn:Es; try lia.
  rewrite Z.shiftl_mul_pow2 by lia. rewrite HN.
  assert (Hdm := Z_div_mod (2 ^ 52 * 2 ^ Zpos ps) (Zpos my) ltac:(lia)).
  destruct (Z.div_eucl (2 ^ 52 * 2 ^ Zpos ps) (Zpos my)) as [q r].
  destruct Hdm as [Hq Hr].
  change (xorb false false) with false.
  assert (Hps : 0 < 2 ^ Zpos ps) by (apply Z.pow_pos_nonneg; lia).
  assert (H52 : 0 < 2 ^ 52) by (apply Z.pow_pos_nonneg; lia).
  assert (Hq0 : 0 <= q) by nia.
  assert (Hqs : q <= 2 ^ Zpos ps) by nia.
  apply binary_round_aux_le_one; [exact HN|exact Hq0| |].
  - destruct Hgt as [Hgt|Hgt].
    + assert (Zdigits2 q <= Zpos ps + 1); [|lia].
      apply Zdigits2_le_of_lt; [lia|lia|].
      rewrite Z.pow_add_r by lia. change (2 ^ 1) with 2. lia.
    + assert (Zdigits2 q <= Zpos ps); [|lia].
      apply Zdigits2_le_of_lt; [lia|lia|]. nia.
  - rewrite fexp_eq.
    destruct (Z_le_gt_dec (-105 - ey) (-1074)) as [Hc|Hc]; [lia|].
    assert (Hps53 : Zpos ps = 53) by lia.
    rewrite Hps53 in *.
    assert (H53 : 2 ^ 53 = 2 * 2 ^ 52) by reflexivity.
    assert (Hq52 : 2 ^ 52 <= q) by nia.
    assert (Hdq := Zdigits2_gt_of_le q 52 ltac:(lia) Hq52).
    lia.
Qed.

Lemma one_SF : Prim2SF 1 = S754_finite false 4503599627370496 (-52).
Proof. vm_compute. reflexivity. Qed.

Lemma two52 : Zpos 4503599627370496 = 2 ^ 52.
Proof. vm_compute. reflexivity. Qed.

Lemma two53 : 9007199254740992 = 2 ^ 53.
Proof. vm_compute. reflexivity. Qed.

(** The mantissa of a normal float has 53 digits. *)
Lemma valid_normal x s m e :
  Prim2SF x = S754_finite s m e -> -1074 < e ->
  2 ^ 52 <= Zpos m < 2 ^ 53 /\ e <= 971.
Proof.
  intros H He. assert (Hv := Prim2SF_valid x). rewrite H in Hv.
  unfold valid_binary, bounded, canonical_mantissa in Hv.
  apply andb_prop in Hv. destruct Hv as [Hc Hb].
  apply Z.eqb_eq in Hc. apply Z.leb_le in Hb. rewrite fexp_eq in Hc.
  assert (Hd : Zpos (digits2_pos m) = 53) by lia.
  assert (Hl := digits2_pos_lt m). assert (Hg := digits2_pos_ge m).
  rewrite Hd in Hl, Hg. change (53 - 1) with 52 in Hg.
  change (1024 - 53) with 971 in Hb.
  split; [split; assumption|exact Hb].
Qed.

Lemma div_one_le (f : float) :
  PrimFloat.ltb 1 f = true -> PrimFloat.leb (PrimFloat.div 1 f) 1 = true.
Proof.
  rewrite ltb_spec, leb_spec, div_spec, one_SF.
  assert (HN := two52).
  remember 4503599627370496%positive as N eqn:EN. clear EN.
  destruct (Prim2SF f) as [s|s| |s m e] eqn:E.
  - destruct s; discriminate.
  - destruct s; [discriminate|]. intros _. reflexivity.
  - discriminate.
  - unfold SFltb. cbv beta iota delta [SFcompare].
    destruct s; [discriminate|].
    destruct (Z.compare_spec (-52) e) as [He|He|He]; try discriminate.
    + intros Hc.
      change (PosDef.Pos.compare_cont Eq N m) with (Pos.compare N m) in Hc.
      destruct (Pos.compare_spec N m) as [Hm|Hm|Hm]; try discriminate.
      destruct (valid_normal f false m e E ltac:(lia)) as [Hb He'].
      apply SFdiv_one_le; [exact HN|exact Hb|lia|].
      right. rewrite <- HN. apply Pos2Z.pos_lt_pos. exact Hm.
    + intros _.
      destruct (valid_normal f false m e E ltac:(lia)) as [Hb He'].
      apply SFdiv_one_le; [exact HN|exact Hb|lia|]. left. exact He.
Qed.

End RoundFacts.

(** ** Floats and their signs *)

Module SignFacts.
Import FloatFacts.
Open Scope float_scope.

Lemma SFopp_involutive x : SFopp (SFopp x) = x.
Proof. destruct x as [s|s| |s m e]; simpl; rewrite ?negb_involutive; reflexivity. Qed.

Lemma opp_involutive x : - - x = x.
Proof. apply Prim2SF_inj. rewrite !opp_spec. apply SFopp_involutive. Qed.

Lemma abs_opp x : abs (- x) = abs x.
Proof.
  apply Prim2SF_inj. rewrite !abs_spec, opp_spec.
  destruct (Prim2SF x); reflexivity.
Qed.

(** Negation reverses the order. *)
Lemma SFcompare_opp x y :
  SFcompare (SFopp x) (SFopp y) = SFcompare y x.
Proof.
  rewrite (SFcompare_antisym x y).
  destruct x as [sx|sx| |sx mx ex], y as [sy|sy| |sy my ey]; simpl; auto;
    try (destruct sx; reflexivity); try (destruct sy; reflexivity);
    try (destruct sx, sy; reflexivity).
  destruct sx, sy; simpl; auto; destruct (ex ?= ey)%Z; simpl;
    rewrite ?CompOpp_involutive; auto.
Qed.

Lemma ltb_opp x y : (- x <? - y) = (y <? x).
Proof. rewrite !ltb_spec, !opp_spec. unfold SFltb. now rewrite SFcompare_opp. Qed.



Lemma ltb_leb x y : (x <? y) = true -> (x <=? y) = true.
Proof.
  rewrite ltb_spec, leb_spec. unfold SFltb, SFleb.
  destruct (SFcompare (Prim2SF x) (Prim2SF y)) as [[]|]; congruence.
Qed.

Lemma ltb_asym x y : (x <? y) = true -> (y <? x) = false.
Proof.
  rewrite !ltb_spec. unfold SFltb.
  rewrite (SFcompare_antisym (Prim2SF x) (Prim2SF y)).
  destruct (SFcompare (Prim2SF x) (Prim2SF y)) as [[]|]; simpl; congruence.
Qed.



(** The rounding functions commute with the sign. *)
Lemma binary_round_aux_opp s m e l :
  binary_round_aux 53 1024 (negb s) m e l = SFopp (binary_round_aux 53 1024 s m e l).
Proof.
  unfold binary_round_aux.
  destruct (shr_fexp 53 1024 m e l) as [mrs' e'].
  destruct (shr_fexp 53 1024 _ e' loc_Exact) as [mrs'' e''].
  destruct (shr_m mrs''); try reflexivity.
  destruct (e'' <=? 1024 - 53)%Z; reflexivity.
Qed.


Lemma SFmul_opp_r x y :
  SFmul 53 1024 x (SFopp y) = SFopp (SFmul 53 1024 x y).
Proof.
  destruct x as [sx|sx| |sx mx ex], y as [sy|sy| |sy my ey]; simpl; auto;
    try (destruct sx, sy; reflexivity).
  rewrite <- binary_round_aux_opp. destruct sx, sy; reflexivity.
Qed.


Lemma mul_opp_r x y : x * - y = - (x * y).
Proof. apply Prim2SF_inj. rewrite opp_spec, !mul_spec, opp_spec. apply SFmul_opp_r. Qed.



Definition SFnonzero (x : spec_float) : Prop :=
  match x with S754_zero _ => False | _ => True end.



Lemma eqb_zero_SF x : (x =? 0) = false -> SFnonzero (Prim2SF x).
Proof.
  rewrite eqb_spec. unfold SFeqb. change (Prim2SF 0) with (S754_zero false).
  destruct (Prim2SF x); simpl; try tauto. discriminate.
Qed.



Lemma leb_zero_opp x : (0 <=? - x) = (x <=? 0).
Proof.
  rewrite !leb_spec, opp_spec. unfold SFleb. change (Prim2SF 0) with (S754_zero false).
  destruct (Prim2SF x) as [s|s| |s m e]; try reflexivity; destruct s; reflexivity.
Qed.


(** A number that compares with something is positive, negative or zero. *)
Lemma sign_cases x y :
  (y <? x) = true -> (x =? 0) = false -> (0 <? x) = true \/ (x <? 0) = true.
Proof.
  rewrite !ltb_spec, eqb_spec. unfold SFltb, SFeqb.
  change (Prim2SF 0) with (S754_zero false).
  destruct (Prim2SF x) as [s|s| |s m e]; simpl.
  - discriminate.
  - destruct s; auto.
  - destruct (Prim2SF y); discriminate.
  - destruct s; auto.
Qed.

End SignFacts.

Module AngleFacts.
Import FloatFacts SignFacts.
Open Scope float_scope.


Lemma AngNormalize_id x :
  (-180 <? x) = true -> (x <? 180) = true -> Geodesic.AngNormalize x = x.
Proof.
  intros H1 H2. unfold Geodesic.AngNormalize.
  now rewrite (ltb_not_leb _ _ H2), (ltb_asym _ _ H1).
Qed.

Lemma AngNormalize_opp x :
  (-180 <? x) = true -> (x <? 180) = true -> Geodesic.AngNormalize (- x) = - x.
Proof.
  intros H1 H2. apply AngNormalize_id.
  - change (-180) with (- (180)). now rewrite ltb_opp.
  - change 180 with (- (-180)). now rewrite ltb_opp.
Qed.

End AngleFacts.

(** ** The heap of accumulators *)

Module HeapFacts.
Import PolygonArea.

(** The references of a PolygonArea object point into the heap. *)
Definition wf (self : t) (h : heap) : Prop :=
  (_perimetersum self < List.length h)%nat /\
  (forall r, _areasum self = Some r -> (r < List.length h)%nat).

Lemma Set_copy_id v : Accumulator.Set_copy v = v.
Proof. destruct v; reflexivity. Qed.

Lemma load_app_l (h t : heap) r :
  (r < List.length h)%nat -> load (h ++ t) r = load h r.
Proof. intros Hr. unfold load. now rewrite app_nth1. Qed.

Lemma load_last (h : heap) v : load (h ++ [v]) (List.length h) = v.
Proof. unfold load. now rewrite nth_middle. Qed.

Lemma length_update {A} (c : list A) i v :
  List.length (PyList.update c i v) = List.length c.
Proof.
  revert i; induction c as [|x c IH]; intros [|i]; simpl; auto.
Qed.

Lemma update_app_l {A} (c t : list A) i v :
  (i < List.length c)%nat ->
  PyList.update (c ++ t) i v = PyList.update c i v ++ t.
Proof.
  revert i; induction c as [|x c IH]; intros [|i] Hi; simpl in *; try lia; auto.
  now rewrite IH by lia.
Qed.

Lemma update_last {A} (c : list A) v w :
  PyList.update (c ++ [v]) (List.length c) w = c ++ [w].
Proof. induction c as [|x c IH]; simpl; auto. now rewrite IH. Qed.

Lemma length_Add h r y : List.length (Add h r y) = List.length h.
Proof. apply length_update. Qed.

Lemma Add_app_l (h t : heap) r y :
  (r < List.length h)%nat -> Add (h ++ t) r y = Add h r y ++ t.
Proof.
  intros Hr. unfold Add, store. now rewrite load_app_l, update_app_l.
Qed.

Lemma Add_last (h : heap) v y :
  Add (h ++ [v]) (List.length h) y = h ++ [Accumulator.Add v y].
Proof. unfold Add, store. now rewrite load_last, update_last. Qed.

Lemma Negate_last (h : heap) v :
  Negate (h ++ [v]) (List.length h) = h ++ [Accumulator.Negate v].
Proof. unfold Negate, store. now rewrite load_last, update_last. Qed.

Lemma Sum_zero h r : Sum h r 0 = (Accumulator._s (load h r), h).
Proof. reflexivity. Qed.

(** [Sum] reads the accumulator and leaves a copy behind when [y] is not
    zero. *)
Lemma Sum_spec h r y :
  Sum h r y =
  (Accumulator.Sum (load h r) y,
   h ++ (if y =? 0 then [] else [Accumulator.Add (load h r) y])).
Proof.
  unfold Sum, Accumulator.Sum.
  destruct (y =? 0).
  - now rewrite app_nil_r.
  - unfold Accumulator_of, new. rewrite Add_last, load_last.
    now rewrite Set_copy_id.
Qed.

(** What [Compute_normalize] leaves in the object [tempsum]. *)
Definition normalized (area0 : float) (sign : bool) (v : Accumulator.t)
  : Accumulator.t :=
  let s := Accumulator._s v in
  if sign then
    if area0 / 2 <? s then Accumulator.Add v (- area0)
    else if s <=? - area0 / 2 then Accumulator.Add v area0 else v
  else
    if area0 <=? s then Accumulator.Add v (- area0)
    else if s <? 0 then Accumulator.Add v area0 else v.

Lemma Compute_normalize_last area0 sign (h : heap) v :
  Compute_normalize area0 sign (List.length h) (h ++ [v])
  = h ++ [normalized area0 sign v].
Proof.
  unfold Compute_normalize, normalized.
  rewrite !Sum_zero, load_last.
  destruct sign.
  - destruct (area0 / 2 <? Accumulator._s v); [apply Add_last|].
    destruct (Accumulator._s v <=? - area0 / 2); [apply Add_last|reflexivity].
  - destruct (area0 <=? Accumulator._s v); [apply Add_last|].
    destruct (Accumulator._s v <? 0); [apply Add_last|reflexivity].
Qed.

(** The closing edge reads the two accumulators of the object and works on
    new objects only. *)
Lemma Compute_closing_ext self reverse h :
  wf self h ->
  exists (out : py_error + (float * Accumulator.t)) (g : heap),
    forall t,
      Compute_closing self reverse (h ++ t) =
      (match out with
       | inl e => Raise e
       | inr (perimeter, _) => Ok (perimeter, List.length ((h ++ t) ++ g))
       end,
       ((h ++ t) ++ g) ++ match out with inl _ => [] | inr (_, v) => [v] end).
Proof.
  intros [Hp Ha]. unfold Compute_closing.
  destruct (earth_GenInverse (_earth self) (_lat1 self) (_lon1 self)
              (_lat0 self) (_lon0 self) (_mask self))
    as [[[[[[[[a12 s12] azi1] azi2] m12] M12] M21] S12]|e].
  2:{ exists (inl e), []. intros t. now rewrite !app_nil_r. }
  set (g := if s12 =? 0 then []
            else [Accumulator.Add (load h (_perimetersum self)) s12]).
  assert (HS : forall t, Sum (h ++ t) (_perimetersum self) s12
                         = (Accumulator.Sum (load h (_perimetersum self)) s12,
                            (h ++ t) ++ g)).
  { intros t. rewrite Sum_spec. now rewrite load_app_l by lia. }
  unfold get_areasum. destruct (_areasum self) as [r|] eqn:Er.
  2:{ exists (inl (AttributeError "_areasum")), g. intros t.
      rewrite HS. now rewrite app_nil_r. }
  specialize (Ha r eq_refl).
  assert (HA : forall t, Accumulator_of ((h ++ t) ++ g) r
                         = (List.length ((h ++ t) ++ g), ((h ++ t) ++ g) ++ [load h r])).
  { intros t. unfold Accumulator_of, new. rewrite Set_copy_id.
    rewrite (load_app_l (h ++ t) g) by (rewrite length_app; lia).
    now rewrite (load_app_l h t) by lia. }
  unfold Accumulator_lt_int.
  destruct (negb (Z.land (_crossings self + transit (_lon1 self) (_lon0 self)) 1 =? 0)%Z);
    destruct (negb reverse);
    eexists (inr (_, _)), g; intros t; rewrite HS, HA;
    rewrite ?Add_last, ?Negate_last; reflexivity.
Qed.

(** [Compute] on a larger heap: same result, same new objects. *)
Lemma Compute_ext self reverse sign h :
  wf self h ->
  exists res g, forall t, Compute self reverse sign (h ++ t) = (res, (h ++ t) ++ g).
Proof.
  intros Hwf. unfold Compute.
  destruct (_num self <? 2)%Z.
  { exists (Ok (_num self, PInt 0,
                if negb (_polyline self) then PInt 0 else PFloat Math.nan)), [].
    intros t. rewrite app_nil_r. reflexivity. }
  destruct (_polyline self).
  { exists (Ok (_num self, PFloat (Accumulator._s (load h (_perimetersum self))),
                PFloat Math.nan)), [].
    intros t. rewrite Sum_zero, app_nil_r.
    rewrite load_app_l by (destruct Hwf; assumption). reflexivity. }
  destruct (Compute_closing_ext self reverse h Hwf) as (out & g & H).
  destruct out as [e|[perimeter v]].
  - exists (Raise e), g. intros t. rewrite H. now rewrite app_nil_r.
  - eexists _, (g ++ [normalized (_area0 self) sign v]). intros t. rewrite H.
    rewrite Compute_normalize_last, Sum_zero, load_last.
    now rewrite <- app_assoc.
Qed.

(** [AddPoint] on a larger heap. *)
Lemma AddPoint_ext self lat lon h t :
  wf self h ->
  AddPoint self lat lon (h ++ t)
  = (let '(r, self', h') := AddPoint self lat lon h in (r, self', h' ++ t)).
Proof.
  intros [Hp Ha]. unfold AddPoint.
  destruct (_num self =? 0)%Z; [reflexivity|].
  destruct (earth_GenInverse (_earth self) (_lat1 self) (_lon1 self) lat lon (_mask self))
    as [[[[[[[[a12 s12] azi1] azi2] m12] M12] M21] S12]|e]; [|reflexivity].
  rewrite Add_app_l by lia.
  destruct (negb (_polyline self)); [|reflexivity].
  unfold get_areasum. destruct (_areasum self) as [r|] eqn:Er; [|reflexivity].
  rewrite Add_app_l by (rewrite length_Add; auto).
  reflexivity.
Qed.

End HeapFacts.

(** ** Exact products *)

Module ExactFacts.
Import RoundFacts.
Open Scope Z_scope.

(** Shifting out [p] zero bits is exact. *)
Lemma shr_1_double m :
  0 <= m ->
  shr_1 {| shr_m := 2 * m; shr_r := false; shr_s := false |}
  = {| shr_m := m; shr_r := false; shr_s := false |}.
Proof.
  intros H. destruct m as [|q|q]; [reflexivity|reflexivity|lia].
Qed.

Lemma iter_shr_1_exact p : forall m,
  0 <= m ->
  iter_pos shr_1 p {| shr_m := 2 ^ Zpos p * m; shr_r := false; shr_s := false |}
  = {| shr_m := m; shr_r := false; shr_s := false |}.
Proof.
  induction p as [p IH|p IH|]; intros m H.
  - rewrite pow2_xI.
    assert (0 < 2 ^ Zpos p) by (apply Z.pow_pos_nonneg; lia).
    replace (2 * (2 ^ Zpos p * 2 ^ Zpos p) * m)
      with (2 * (2 ^ Zpos p * (2 ^ Zpos p * m))) by ring.
    match goal with
    | |- iter_pos shr_1 p~1 ?x = _ =>
        change (iter_pos shr_1 p (iter_pos shr_1 p (shr_1 x)) = {| shr_m := m; shr_r := false; shr_s := false |})
    end.
    rewrite shr_1_double by nia. rewrite IH by nia. apply IH; exact H.
  - rewrite pow2_xO.
    assert (0 < 2 ^ Zpos p) by (apply Z.pow_pos_nonneg; lia).
    replace (2 ^ Zpos p * 2 ^ Zpos p * m)
      with (2 ^ Zpos p * (2 ^ Zpos p * m)) by ring.
    match goal with
    | |- iter_pos shr_1 p~0 ?x = _ =>
        change (iter_pos shr_1 p (iter_pos shr_1 p x) = {| shr_m := m; shr_r := false; shr_s := false |})
    end.
    rewrite IH by nia. apply IH; exact H.
  - change (2 ^ 1) with 2. apply shr_1_double; exact H.
Qed.

Lemma Zdigits2_shift m k :
  0 < m -> 0 <= k -> Zdigits2 (m * 2 ^ k) = Zdigits2 m + k.
Proof.
  intros Hm Hk.
  assert (Hp : 0 < 2 ^ k) by (apply Z.pow_pos_nonneg; lia).
  assert (Hl := Zdigits2_lt m ltac:(lia)).
  assert (Hg := Zdigits2_ge m Hm).
  assert (Hd := Zdigits2_nonneg m).
  assert (Hd1 : 1 <= Zdigits2 m).
  { destruct m as [|q|q]; try lia. simpl. lia. }
  assert (H1 : Zdigits2 (m * 2 ^ k) <= Zdigits2 m + k).
  { apply Zdigits2_le_of_lt; [nia|lia|].
    rewrite Z.pow_add_r by lia. nia. }
  assert (H2 : Zdigits2 m - 1 + k < Zdigits2 (m * 2 ^ k)).
  { apply Zdigits2_gt_of_le; [lia|].
    rewrite Z.pow_add_r by lia. nia. }
  lia.
Qed.

(** A product with [2^52 * 2^-52] is rounded to the other factor. *)
Lemma binary_round_aux_exact s m e N :
  Zpos N = 2 ^ 52 ->
  valid_binary (S754_finite s m e) = true ->
  binary_round_aux 53 1024 s (Zpos (m * N)) (e + -52) loc_Exact = S754_finite s m e.
Proof.
  intros HN Hv.
  unfold valid_binary, bounded, canonical_mantissa in Hv.
  apply andb_prop in Hv. destruct Hv as [Hc Hb].
  apply Z.eqb_eq in Hc.
  change prec with 53 in Hc, Hb. change emax with 1024 in Hc, Hb.
  unfold binary_round_aux, shr_fexp.
  rewrite Pos2Z.inj_mul, HN.
  rewrite Zdigits2_shift by lia.
  replace (Zdigits2 (Zpos m) + 52 + (e + -52)) with (Zpos (digits2_pos m) + e)
    by (simpl Zdigits2; lia).
  rewrite Hc.
  replace (e - (e + -52)) with 52 by lia.
  unfold shr at 1.
  change (shr_record_of_loc (Zpos m * 2 ^ 52) loc_Exact)
    with {| shr_m := Zpos m * 2 ^ 52; shr_r := false; shr_s := false |}.
  rewrite (Z.mul_comm (Zpos m)).
  rewrite (iter_shr_1_exact 52 (Zpos m)) by lia.
  cbv beta iota delta [shr_m loc_of_shr_record shr_r shr_s round_nearest_even].
  replace (e + -52 + 52) with e by lia.
  change (Zdigits2 (Zpos m)) with (Zpos (digits2_pos m)).
  rewrite Hc. rewrite Z.sub_diag.
  cbv beta iota delta [shr shr_record_of_loc shr_m].
  rewrite Hb. reflexivity.
Qed.

Lemma SFmul_one_r x N :
  Zpos N = 2 ^ 52 -> valid_binary x = true ->
  SFmul 53 1024 x (S754_finite false N (-52)) = x.
Proof.
  intros HN Hv. destruct x as [s|s| |s m e]; simpl SFmul.
  - now rewrite xorb_false_r.
  - now rewrite xorb_false_r.
  - reflexivity.
  - rewrite xorb_false_r. apply binary_round_aux_exact; assumption.
Qed.

End ExactFacts.

(** Multiplying by 1 and by -1 is exact. *)
Module MulFacts.
Import SignFacts.
Open Scope float_scope.

Lemma mul_one_r (x : float) : x * 1 = x.
Proof.
  apply Prim2SF_inj. rewrite mul_spec, RoundFacts.one_SF.
  assert (HN := RoundFacts.two52).
  remember 4503599627370496%positive as N eqn:EN. clear EN.
  apply ExactFacts.SFmul_one_r; [exact HN|apply Prim2SF_valid].
Qed.

Lemma mul_neg_one_r (x : float) : x * -1 = - x.
Proof.
  change (x * PrimFloat.opp 1 = - x).
  now rewrite mul_opp_r, mul_one_r.
Qed.

End MulFacts.

(** ** Not-a-number and signs *)

Module NanFacts.
Import FloatFacts SignFacts.
Open Scope float_scope.

Lemma is_nan_SF x : is_nan x = true <-> Prim2SF x = S754_nan.
Proof.
  unfold is_nan. rewrite eqb_spec.
  destruct (Prim2SF x) as [s|s| |s m e].
  - destruct s; cbn; split; discriminate.
  - destruct s; cbn; split; discriminate.
  - cbn. split; reflexivity.
  - rewrite FloatFacts.SFeqb_finite_refl. cbn. split; discriminate.
Qed.

Lemma SFcompare_None x y :
  SFcompare x y = None -> x = S754_nan \/ y = S754_nan.
Proof.
  destruct x as [sx|sx| |sx mx ex], y as [sy|sy| |sy my ey]; cbn; auto;
    try discriminate;
    try (destruct sx; discriminate); try (destruct sy; discriminate);
    try (destruct sx, sy; discriminate).
Qed.

(** Two numbers are ordered one way or the other. *)
Lemma leb_false x y :
  (x <=? y) = false -> (y <? x) = true \/ is_nan x = true \/ is_nan y = true.
Proof.
  rewrite leb_spec, ltb_spec, !is_nan_SF. unfold SFleb, SFltb.
  rewrite (FloatFacts.SFcompare_antisym (Prim2SF x) (Prim2SF y)).
  destruct (SFcompare (Prim2SF x) (Prim2SF y)) as [[]|] eqn:E; cbn;
    try discriminate; auto.
  intros _. right. now apply SFcompare_None.
Qed.

Lemma ltb_false x y :
  (x <? y) = false -> (y <=? x) = true \/ is_nan x = true \/ is_nan y = true.
Proof.
  rewrite leb_spec, ltb_spec, !is_nan_SF. unfold SFleb, SFltb.
  rewrite (FloatFacts.SFcompare_antisym (Prim2SF x) (Prim2SF y)).
  destruct (SFcompare (Prim2SF x) (Prim2SF y)) as [[]|] eqn:E; cbn;
    try discriminate; auto.
  intros _. right. now apply SFcompare_None.
Qed.

Lemma ltb_not_nan x y : (x <? y) = true -> is_nan x = false /\ is_nan y = false.
Proof.
  intros H. split.
  - destruct (is_nan x) eqn:E; [|reflexivity].
    apply is_nan_SF in E. rewrite ltb_spec, E in H. discriminate H.
  - destruct (is_nan y) eqn:E; [|reflexivity].
    apply is_nan_SF in E. rewrite ltb_spec, E in H.
    destruct (Prim2SF x) as [[]|[]| |[]]; discriminate H.
Qed.


Lemma is_nan_opp x : is_nan (- x) = is_nan x.
Proof.
  destruct (is_nan x) eqn:E.
  - apply is_nan_SF in E. apply is_nan_SF. now rewrite opp_spec, E.
  - destruct (is_nan (- x)) eqn:E'; [|reflexivity].
    apply is_nan_SF in E'. rewrite opp_spec in E'.
    assert (Prim2SF x = S754_nan) by (destruct (Prim2SF x); cbn in E'; congruence).
    apply is_nan_SF in H. congruence.
Qed.

Lemma is_nan_abs x : is_nan (abs x) = is_nan x.
Proof.
  destruct (is_nan x) eqn:E.
  - apply is_nan_SF in E. apply is_nan_SF. now rewrite abs_spec, E.
  - destruct (is_nan (abs x)) eqn:E'; [|reflexivity].
    apply is_nan_SF in E'. rewrite abs_spec in E'.
    assert (Prim2SF x = S754_nan) by (destruct (Prim2SF x); cbn in E'; congruence).
    apply is_nan_SF in H. congruence.
Qed.

(** Adding zero to a number that is not a zero changes nothing. *)
Lemma add_zero_r x : (x =? 0) = false -> x + 0 = x.
Proof.
  intros H. apply Prim2SF_inj. rewrite add_spec.
  rewrite eqb_spec in H. change (Prim2SF 0) with (S754_zero false) in *.
  destruct (Prim2SF x) as [s|s| |s m e]; try reflexivity.
  destruct s; discriminate H.
Qed.

End NanFacts.

(** ** Sums and differences *)

Module AddFacts.
Import FloatFacts SignFacts.
Open Scope float_scope.

Lemma SFadd_comm x y : SFadd 53 1024 x y = SFadd 53 1024 y x.
Proof.
  destruct x as [sx|sx| |sx mx ex], y as [sy|sy| |sy my ey];
    try reflexivity; try (destruct sx, sy; reflexivity).
  unfold SFadd. rewrite (Z.min_comm ey ex). f_equal. apply Z.add_comm.
Qed.

Lemma add_comm x y : x + y = y + x.
Proof. apply Prim2SF_inj. rewrite !add_spec. apply SFadd_comm. Qed.

Lemma cond_Zopp_negb s m : cond_Zopp (negb s) m = (- cond_Zopp s m)%Z.
Proof. destruct s; simpl; lia. Qed.




(** Adding [-0] changes nothing at all. *)
Lemma add_neg_zero x : x + -0 = x.
Proof.
  apply Prim2SF_inj. rewrite add_spec. change (Prim2SF (-0)) with (S754_zero true).
  destruct (Prim2SF x) as [s|s| |s m e]; try reflexivity. destruct s; reflexivity.
Qed.

(** Two equal numbers are the same float, unless they are zeros. *)
Lemma SFcompare_Eq x y :
  SFcompare x y = Some Eq -> SFnonzero y -> x = y.
Proof.
  destruct x as [sx|sx| |sx mx ex], y as [sy|sy| |sy my ey]; simpl;
    try discriminate; try tauto;
    try (destruct sx; discriminate); try (destruct sy; discriminate);
    try (destruct sx, sy; (discriminate || reflexivity)).
  intros H _.
  destruct sx, sy; try discriminate H;
    destruct (Z.compare ex ey) eqn:E; try discriminate H;
    apply Z.compare_eq in E; subst ey;
    injection H as H.
  - destruct (Pos.compare_cont Eq mx my) eqn:E; try discriminate H.
    apply Pos.compare_eq in E. now subst.
  - apply Pos.compare_eq in H. now subst.
Qed.

Lemma eqb_eq x y : (x =? y) = true -> (y =? 0) = false -> x = y.
Proof.
  intros H Hy. apply eqb_zero_SF in Hy. apply Prim2SF_inj.
  rewrite eqb_spec in H. unfold SFeqb in H.
  destruct (SFcompare (Prim2SF x) (Prim2SF y)) as [[]|] eqn:E; try discriminate H.
  now apply SFcompare_Eq.
Qed.



End AddFacts.

(** ** Order *)

Module CompareFacts.
Import FloatFacts SignFacts NanFacts.
Open Scope float_scope.








End CompareFacts.

(** ** Sums without error *)

Module SumFacts.
Import FloatFacts SignFacts NanFacts AddFacts CompareFacts MulFacts.
Open Scope float_scope.

(** Equal, or zeros both: what no comparison and no sum with a number other
    than zero can tell apart. *)
Definition zeq (x y : float) : Prop :=
  x = y \/ ((x =? 0) = true /\ (y =? 0) = true).


Lemma zeq_zero x y : (x =? 0) = true -> (y =? 0) = true -> zeq x y.
Proof. intros; right; auto. Qed.
























End SumFacts.

Module StoreFacts.
Import PolygonArea.







End StoreFacts.

(** ** The claims *)

(** C7: [Compute] never mutates the PolygonArea state.  The object itself is
    not written to; the heap after [Compute] is the heap before it, with the
    temporary accumulators appended.  So a second [Compute] returns the same
    result, and an [AddPoint] after [Compute] does what it would have done
    without it. *)
Theorem Compute_does_not_mutate (self : PolygonArea.t) (reverse sign : bool)
    (h : PolygonArea.heap) :
  HeapFacts.wf self h ->
  exists res g,
    PolygonArea.Compute self reverse sign h = (res, h ++ g) /\
    (forall r, (r < List.length h)%nat ->
               PolygonArea.load (h ++ g) r = PolygonArea.load h r) /\
    fst (PolygonArea.Compute self reverse sign (h ++ g)) = res /\
    (forall lat lon,
        PolygonArea.AddPoint self lat lon (h ++ g)
        = (let '(r, self', h') := PolygonArea.AddPoint self lat lon h in
           (r, self', h' ++ g))).
Proof.
  intros Hwf.
  destruct (HeapFacts.Compute_ext self reverse sign h Hwf) as (res & g & H).
  exists res, g. repeat split.
  - specialize (H []). now rewrite !app_nil_r in H.
  - intros r Hr. now apply HeapFacts.load_app_l.
  - now rewrite H.
  - intros lat lon. now apply HeapFacts.AddPoint_ext.
Qed.

(** An earth whose solver always raises: to see that it is not called. *)
Definition broken_earth : PolygonArea.Earth :=
  PolygonArea.mkEarth 1 (fun _ _ _ _ _ => Raise ZeroDivisionError).

(** A polygon after three points on the equator of WGS84. *)
Definition wgs84 : Geodesic.t :=
  match WGS84 RefLibm.libm with
  | Ok g => g
  | Raise _ => Geodesic.mk 0 0 0 0 0 0 0 0 0 [] [] []
  end.

Definition ref_earth : PolygonArea.Earth := PolygonArea.of_Geodesic RefLibm.libm wgs84.

Definition add_points (earth : PolygonArea.Earth) (polyline : bool)
    (points : list (float * float)) : PolygonArea.t * PolygonArea.heap :=
  let '(poly, h) := PolygonArea.__init__ earth polyline [] in
  let '(_, poly, h) := PolygonArea.AddPoints poly points h in
  (poly, h).

Definition triangle : PolygonArea.t * PolygonArea.heap :=
  add_points ref_earth false [(0, 0); (0, 180); (-90, 0)].

Lemma Compute_does_not_mutate_witness :
  HeapFacts.wf (fst triangle) (snd triangle) /\
  exists res g,
    PolygonArea.Compute (fst triangle) false true (snd triangle)
    = (res, snd triangle ++ g) /\
    (forall r, (r < List.length (snd triangle))%nat ->
               PolygonArea.load (snd triangle ++ g) r = PolygonArea.load (snd triangle) r) /\
    fst (PolygonArea.Compute (fst triangle) false true (snd triangle ++ g)) = res /\
    (forall lat lon,
        PolygonArea.AddPoint (fst triangle) lat lon (snd triangle ++ g)
        = (let '(r, self', h') := PolygonArea.AddPoint (fst triangle) lat lon (snd triangle) in
           (r, self', h' ++ g))).
Proof.
  assert (Hwf : HeapFacts.wf (fst triangle) (snd triangle)).
  { split; [vm_compute; lia|].
    intros r Hr. vm_compute in Hr. injection Hr as <-. vm_compute. lia. }
  split; [exact Hwf|].
  exact (Compute_does_not_mutate (fst triangle) false true (snd triangle) Hwf).
Defined.

(** C10: with fewer than two vertices a polygon has perimeter 0 and area 0:
    [Compute] returns them with the vertex count, without calling the
    solver (the result is the same for every earth, even one whose solver
    raises) and without touching the heap; so does [Area] on an empty or
    one-point sequence. *)
Theorem Compute_fewer_than_two (self : PolygonArea.t) (reverse sign : bool)
    (h : PolygonArea.heap) (earth : PolygonArea.Earth) (p : float * float) :
  PolygonArea._polyline self = false ->
  (PolygonArea._num self < 2)%Z ->
  PolygonArea.Compute self reverse sign h
    = (Ok (PolygonArea._num self, PInt 0, PInt 0), h) /\
  PolygonArea.Area earth [] false = Ok (0%Z, PInt 0, PInt 0) /\
  PolygonArea.Area earth [p] false = Ok (1%Z, PInt 0, PInt 0).
Proof.
  intros Hpoly Hnum. split; [|split].
  - unfold PolygonArea.Compute.
    apply Z.ltb_lt in Hnum. rewrite Hnum, Hpoly. reflexivity.
  - vm_compute. reflexivity.
  - destruct p as [lat lon]. vm_compute. reflexivity.
Qed.

Lemma Compute_fewer_than_two_witness :
  let self := fst (add_points broken_earth false [(10, 20)]) in
  let h := snd (add_points broken_earth false [(10, 20)]) in
  PolygonArea.Compute self true false h = (Ok (1%Z, PInt 0, PInt 0), h) /\
  PolygonArea.Area broken_earth [] false = Ok (0%Z, PInt 0, PInt 0) /\
  PolygonArea.Area broken_earth [(10, 20)] false = Ok (1%Z, PInt 0, PInt 0).
Proof.
  exact (Compute_fewer_than_two
           (fst (add_points broken_earth false [(10, 20)])) true false
           (snd (add_points broken_earth false [(10, 20)]))
           broken_earth (10, 20) eq_refl eq_refl).
Defined.

(** The ranges that [CheckPosition], [CheckAzimuth] and [CheckDistance]
    accept. *)
Definition in_interval (lo hi x : float) : bool := (lo <=? x) && (x <=? hi).

Definition Direct_input_ok (lat1 lon1 azi1 s12 : float) : bool :=
  in_interval (-90) 90 lat1 && in_interval (-180) 360 lon1
  && in_interval (-180) 360 azi1 && negb (is_nan s12 || is_infinity s12).

Definition Inverse_input_ok (lat1 lon1 lat2 lon2 : float) : bool :=
  in_interval (-90) 90 lat1 && in_interval (-180) 360 lon1
  && in_interval (-90) 90 lat2 && in_interval (-180) 360 lon2.

Lemma abs_leb_90 x : (abs x <=? 90) = in_interval (-90) 90 x.
Proof. unfold in_interval. now apply (FloatFacts.abs_leb x 90 _ _ eq_refl). Qed.

Lemma lift_not_input {A} (m : M A) e : lift m <> Raise (InputError e).
Proof. destruct m; discriminate. Qed.

(** C4: [Direct] raises an input error exactly when [lat1] is outside
    [-90, 90], [lon1] or [azi1] outside [-180, 360], or [s12] is not
    finite; [Inverse] exactly when a latitude or a longitude is out of
    range.  The error does not depend on the ellipsoid, the C library or the
    mask (it is raised before they are used), and a call that passes returns
    the latitude and the distance as given, the angles only normalized. *)
Theorem Direct_Inverse_validation (L : Libm) (g : Geodesic.t)
    (lat1 lon1 azi1 s12 lat2 lon2 : float) (outmask : Z) :
  ((exists e, GeodesicDirect.Direct L g lat1 lon1 azi1 s12 outmask = Raise (InputError e))
   <-> Direct_input_ok lat1 lon1 azi1 s12 = false) /\
  ((exists e, Geodesic.Inverse L g lat1 lon1 lat2 lon2 outmask = Raise (InputError e))
   <-> Inverse_input_ok lat1 lon1 lat2 lon2 = false) /\
  (forall e L' g' outmask',
      GeodesicDirect.Direct L g lat1 lon1 azi1 s12 outmask = Raise (InputError e) ->
      GeodesicDirect.Direct L' g' lat1 lon1 azi1 s12 outmask' = Raise (InputError e)) /\
  (forall e L' g' outmask',
      Geodesic.Inverse L g lat1 lon1 lat2 lon2 outmask = Raise (InputError e) ->
      Geodesic.Inverse L' g' lat1 lon1 lat2 lon2 outmask' = Raise (InputError e)) /\
  (forall r, GeodesicDirect.Direct L g lat1 lon1 azi1 s12 outmask = Ok r ->
             GeodesicDirect.d_lat1 r = lat1 /\
             GeodesicDirect.d_lon1 r = Geodesic.AngNormalize lon1 /\
             GeodesicDirect.d_azi1 r = Geodesic.AngNormalize azi1 /\
             GeodesicDirect.d_s12 r = s12) /\
  (forall r, Geodesic.Inverse L g lat1 lon1 lat2 lon2 outmask = Ok r ->
             Geodesic.i_lat1 r = lat1 /\ Geodesic.i_lon1 r = Geodesic.AngNormalize lon1 /\
             Geodesic.i_lat2 r = lat2 /\ Geodesic.i_lon2 r = Geodesic.AngNormalize lon2).
Proof.
  unfold GeodesicDirect.Direct, Geodesic.Inverse, Direct_input_ok, Inverse_input_ok,
    Geodesic.CheckPosition, Geodesic.CheckAzimuth, Geodesic.CheckDistance.
  rewrite !abs_leb_90, ?FloatFacts.isfinite_spec.
  fold (in_interval (-180) 360 lon1) (in_interval (-180) 360 lon2)
       (in_interval (-180) 360 azi1).
  destruct (in_interval (-90) 90 lat1), (in_interval (-180) 360 lon1); simpl.
  2-4: (repeat split; intros;
        try (eexists; reflexivity); try assumption; try discriminate).
  repeat split.
  - intros [e H].
    destruct (in_interval (-180) 360 azi1), (negb (is_nan s12 || is_infinity s12)); simpl in *;
      try reflexivity.
    destruct (GeodesicDirect.GenDirect L g lat1 (Geodesic.AngNormalize lon1)
                (Geodesic.AngNormalize azi1) false s12 outmask)
      as [[[[[[[[[? ?] ?] ?] ?] ?] ?] ?] ?]|?]; discriminate.
  - destruct (in_interval (-180) 360 azi1), (negb (is_nan s12 || is_infinity s12)); simpl;
      intros; try discriminate; eexists; reflexivity.
  - intros [e H].
    destruct (in_interval (-90) 90 lat2), (in_interval (-180) 360 lon2); simpl in *;
      try reflexivity.
    destruct (Geodesic.GenInverse L g lat1 (Geodesic.AngNormalize lon1) lat2
                (Geodesic.AngNormalize lon2) outmask)
      as [[[[[[[[? ?] ?] ?] ?] ?] ?] ?]|?]; discriminate.
  - destruct (in_interval (-90) 90 lat2), (in_interval (-180) 360 lon2); simpl;
      intros; try discriminate; eexists; reflexivity.
  - intros e L' g' outmask'.
    destruct (in_interval (-180) 360 azi1), (negb (is_nan s12 || is_infinity s12)); simpl;
      try (intros; assumption).
    destruct (GeodesicDirect.GenDirect L g lat1 (Geodesic.AngNormalize lon1)
                (Geodesic.AngNormalize azi1) false s12 outmask)
      as [[[[[[[[[? ?] ?] ?] ?] ?] ?] ?] ?]|?]; discriminate.
  - intros e L' g' outmask'.
    destruct (in_interval (-90) 90 lat2), (in_interval (-180) 360 lon2); simpl;
      try (intros; assumption).
    destruct (Geodesic.GenInverse L g lat1 (Geodesic.AngNormalize lon1) lat2
                (Geodesic.AngNormalize lon2) outmask)
      as [[[[[[[[? ?] ?] ?] ?] ?] ?] ?]|?]; discriminate.
  - destruct (in_interval (-180) 360 azi1), (negb (is_nan s12 || is_infinity s12)); simpl in *;
      try discriminate.
    destruct (GeodesicDirect.GenDirect L g lat1 (Geodesic.AngNormalize lon1)
                (Geodesic.AngNormalize azi1) false s12 outmask)
      as [[[[[[[[[? ?] ?] ?] ?] ?] ?] ?] ?]|?]; simpl in *; try discriminate.
    injection H as <-. reflexivity.
  - destruct (in_interval (-180) 360 azi1), (negb (is_nan s12 || is_infinity s12)); simpl in *;
      try discriminate.
    destruct (GeodesicDirect.GenDirect L g lat1 (Geodesic.AngNormalize lon1)
                (Geodesic.AngNormalize azi1) false s12 outmask)
      as [[[[[[[[[? ?] ?] ?] ?] ?] ?] ?] ?]|?]; simpl in *; try discriminate.
    injection H as <-. reflexivity.
  - destruct (in_interval (-180) 360 azi1), (negb (is_nan s12 || is_infinity s12)); simpl in *;
      try discriminate.
    destruct (GeodesicDirect.GenDirect L g lat1 (Geodesic.AngNormalize lon1)
                (Geodesic.AngNormalize azi1) false s12 outmask)
      as [[[[[[[[[? ?] ?] ?] ?] ?] ?] ?] ?]|?]; simpl in *; try discriminate.
    injection H as <-. reflexivity.
  - destruct (in_interval (-180) 360 azi1), (negb (is_nan s12 || is_infinity s12)); simpl in *;
      try discriminate.
    destruct (GeodesicDirect.GenDirect L g lat1 (Geodesic.AngNormalize lon1)
                (Geodesic.AngNormalize azi1) false s12 outmask)
      as [[[[[[[[[? ?] ?] ?] ?] ?] ?] ?] ?]|?]; simpl in *; try discriminate.
    injection H as <-. reflexivity.
  - destruct (in_interval (-90) 90 lat2), (in_interval (-180) 360 lon2); simpl in *;
      try discriminate.
    destruct (Geodesic.GenInverse L g lat1 (Geodesic.AngNormalize lon1) lat2
                (Geodesic.AngNormalize lon2) outmask)
      as [[[[[[[[? ?] ?] ?] ?] ?] ?] ?]|?]; simpl in *; try discriminate.
    injection H as <-. reflexivity.
  - destruct (in_interval (-90) 90 lat2), (in_interval (-180) 360 lon2); simpl in *;
      try discriminate.
    destruct (Geodesic.GenInverse L g lat1 (Geodesic.AngNormalize lon1) lat2
                (Geodesic.AngNormalize lon2) outmask)
      as [[[[[[[[? ?] ?] ?] ?] ?] ?] ?]|?]; simpl in *; try discriminate.
    injection H as <-. reflexivity.
  - destruct (in_interval (-90) 90 lat2), (in_interval (-180) 360 lon2); simpl in *;
      try discriminate.
    destruct (Geodesic.GenInverse L g lat1 (Geodesic.AngNormalize lon1) lat2
                (Geodesic.AngNormalize lon2) outmask)
      as [[[[[[[[? ?] ?] ?] ?] ?] ?] ?]|?]; simpl in *; try discriminate.
    injection H as <-. reflexivity.
  - destruct (in_interval (-90) 90 lat2), (in_interval (-180) 360 lon2); simpl in *;
      try discriminate.
    destruct (Geodesic.GenInverse L g lat1 (Geodesic.AngNormalize lon1) lat2
                (Geodesic.AngNormalize lon2) outmask)
      as [[[[[[[[? ?] ?] ?] ?] ?] ?] ?]|?]; simpl in *; try discriminate.
    injection H as <-. reflexivity.
Qed.

(** The range that [Compute] aims at: (-area0/2, area0/2] when [sign],
    [0, area0) otherwise. *)
Definition in_range (area0 : float) (sign : bool) (x : float) : bool :=
  if sign then (- area0 / 2 <? x) && (x <=? area0 / 2)
  else (0 <=? x) && (x <? area0).

(** A clockwise triangle with sides of 11 cm at the origin. *)
Definition small_triangle_points : list (float * float) :=
  [(0, 0); (0.000001, 0); (0, 0.000001)].

Definition small_triangle : PolygonArea.t * PolygonArea.heap :=
  add_points ref_earth false small_triangle_points.

(** Four times along the equator to the antipode and on to the start. *)
Definition zigzag_points : list (float * float) :=
  [(0, 0); (0, 180); (0, 0); (0, 180); (0, 0); (0, 180); (0, 0); (0, 180)].

Definition zigzag : PolygonArea.t * PolygonArea.heap :=
  add_points ref_earth false zigzag_points.

(** The perimeter of a returned triple. *)
Definition perimeter_of (r : M (Z * pynum * pynum)) : float :=
  match r with
  | Ok (_, p, _) => PyNum.to_float p
  | Raise _ => Math.nan
  end.

(** The area of a returned triple. *)
Definition area_of (r : M (Z * pynum * pynum)) : float :=
  match r with
  | Ok (_, _, a) => PyNum.to_float a
  | Raise _ => Math.nan
  end.

(** C6 fails in the code.  [Compute] adds or subtracts [area0] once, in
    floating point.  The signed area of the small clockwise triangle is
    -0.006 square metres; without [sign] the area returned for it is
    [area0 + -0.006], which is rounded to [area0] itself, outside
    [0, area0).  The eight-vertex polygon that runs four times between two
    antipodal points of the equator has the signed area [- area0], outside
    (-area0/2, area0/2], and, reversed and unsigned, the area [area0]. *)
Theorem Compute_area_out_of_range :
  let area0 := PolygonArea._area0 (fst small_triangle) in
  (0 <? area0) = true /\
  in_range area0 false area0 = false /\
  in_range area0 true (- area0) = false /\
  (exists perimeter signed_area,
      fst (PolygonArea.Compute (fst small_triangle) false true (snd small_triangle))
      = Ok (3%Z, PFloat perimeter, PFloat signed_area) /\
      (signed_area <? 0) = true /\ (-0.01 <? signed_area) = true /\
      in_range area0 true signed_area = true /\
      signed_area + area0 = area0 /\
      fst (PolygonArea.Compute (fst small_triangle) false false (snd small_triangle))
      = Ok (3%Z, PFloat perimeter, PFloat area0)) /\
  PolygonArea._area0 (fst zigzag) = area0 /\
  (exists perimeter,
      PolygonArea.Area ref_earth zigzag_points false
      = Ok (8%Z, PFloat perimeter, PFloat (- area0)) /\
      fst (PolygonArea.Compute (fst zigzag) true false (snd zigzag))
      = Ok (8%Z, PFloat perimeter, PFloat area0)).
Proof.
  cbv zeta. split; [vm_compute; reflexivity|].
  split; [vm_compute; reflexivity|]. split; [vm_compute; reflexivity|].
  split; [|split; [vm_compute; reflexivity|]].
  - exists (perimeter_of
              (fst (PolygonArea.Compute (fst small_triangle) false true (snd small_triangle)))),
           (area_of
              (fst (PolygonArea.Compute (fst small_triangle) false true (snd small_triangle)))).
    split; [|split; [|split; [|split; [|split]]]]; vm_compute; reflexivity.
  - exists (perimeter_of (PolygonArea.Area ref_earth zigzag_points false)).
    split; vm_compute; reflexivity.
Qed.















(** The mask that [Inverse] and [Direct] use when none is given. *)
Definition default_mask : Z := Z.lor Geodesic.DISTANCE Geodesic.AZIMUTH.

(** [Geodesic(6378137, -0.01)]: a prolate earth. *)
Definition prolate_earth : Geodesic.t :=
  match Geodesic.__init__ RefLibm.libm 6378137 (-0.01) with
  | Ok g => g
  | Raise _ => wgs84
  end.

(** C2 fails in the code: valid inputs reach statements that cannot run.  On
    WGS84 the nearly antipodal pair (-30, 0), (29.9, 179.8) passes the
    validation and arrives at [k = Astroid(x, y)], where the name [Astroid]
    is not defined; on a prolate ellipsoid the same pair arrives at the call
    of [Lengths] that reads [dummy] before it is assigned. *)
Theorem Inverse_raises_on_valid_input :
  Inverse_input_ok (-30) 0 29.9 179.8 = true /\
  Geodesic.Inverse RefLibm.libm wgs84 (-30) 0 29.9 179.8 default_mask
  = Raise (RuntimeError (NameError "Astroid")) /\
  Geodesic.Inverse RefLibm.libm prolate_earth (-30) 0 29.9 179.8 default_mask
  = Raise (RuntimeError (UnboundLocalError "dummy")).
Proof. split; [|split]; vm_compute; reflexivity. Qed.

(** What C99 (Annex F) fixes of the functions at zero. *)
Record C99_zero (L : Libm) : Prop := {
  sin_zero : math.c_sin L 0 = 0;
  sin_neg_zero : math.c_sin L (-0) = -0;
  cos_zero : math.c_cos L 0 = 1;
  cos_neg_zero : math.c_cos L (-0) = 1;
  hypot_zero_one : math.c_hypot L (-0) 1 = 1;
  atan2_zero_pos : math.c_atan2 L 0 1 = 0;
  atan2_zero_neg : math.c_atan2 L 0 (-1) = math.pi;
  atan2_neg_zero_neg : math.c_atan2 L (-0) (-1) = - math.pi
}.

(** Identity of floats: it tells the two zeros apart. *)
Definition same (x y : float) : bool := Leibniz.eqb x y.

(** A library that answers the calls at zero from the table above. *)
Definition tabled (L : Libm) : Libm :=
  {| math.c_sin := fun x => if same x 0 then 0 else if same x (-0) then -0 else math.c_sin L x;
     math.c_cos := fun x => if same x 0 then 1 else if same x (-0) then 1 else math.c_cos L x;
     math.c_atan := math.c_atan L;
     math.c_atan2 := fun y x =>
       if same y 0 && same x 1 then 0
       else if same y 0 && same x (-1) then math.pi
       else if same y (-0) && same x (-1) then - math.pi
       else math.c_atan2 L y x;
     math.c_atanh := math.c_atanh L;
     math.c_hypot := fun x y => if same x (-0) && same y 1 then 1 else math.c_hypot L x y;
     math.c_pow := math.c_pow L;
     math.c_floor := math.c_floor L |}.

Lemma same_true x y : same x y = true -> x = y.
Proof. apply Leibniz.eqb_spec. Qed.

Ltac tabled_cases :=
  repeat match goal with
         | |- context [if ?b then _ else _] => destruct b eqn:?
         end;
  try reflexivity;
  repeat match goal with
         | E : (_ && _) = true |- _ => apply andb_prop in E; destruct E
         end;
  repeat match goal with
         | A : same _ _ = true |- _ => apply same_true in A; subst
         end;
  symmetry; assumption.

Lemma tabled_eq L : C99_zero L -> tabled L = L.
Proof.
  intros [H1 H2 H3 H4 H5 H6 H7 H8]. destruct L as [s c a a2 ah hy pw fl].
  unfold tabled; simpl in *. f_equal.
  - apply functional_extensionality; intros x. tabled_cases.
  - apply functional_extensionality; intros x. tabled_cases.
  - apply functional_extensionality; intros y.
    apply functional_extensionality; intros x. tabled_cases.
  - apply functional_extensionality; intros x.
    apply functional_extensionality; intros y. tabled_cases.
Qed.

(** [g] with another [_c2]. *)
Definition with_c2 (g : Geodesic.t) (c2 : float) : Geodesic.t :=
  Geodesic.mk (Geodesic._a g) (Geodesic._f g) (Geodesic._f1 g) (Geodesic._e2 g)
    (Geodesic._ep2 g) (Geodesic._n g) (Geodesic._b g) c2 (Geodesic._etol2 g)
    (Geodesic._A3x g) (Geodesic._C3x g) (Geodesic._C4x g).

Lemma WGS84_fields L g :
  WGS84 L = Ok g -> g = with_c2 wgs84 (Geodesic._c2 g).
Proof.
  intros H. vm_compute in H.
  repeat match type of H with
         | context [if ?b then _ else _] => destruct b
         end;
    try discriminate; injection H as <-; vm_compute; reflexivity.
Qed.

(** C8: on WGS84, [Inverse(0, 0, 0, 0)] returns the distance 0 and the
    azimuths 180 and -180, not NaN; this for every C library that returns
    what C99 fixes at zero. *)
Theorem Inverse_coincident_points (L : Libm) (g : Geodesic.t) :
  C99_zero L ->
  WGS84 L = Ok g ->
  Geodesic.Inverse L g 0 0 0 0 default_mask
  = Ok (Geodesic.mkInverseResult 0 0 0 0 0 (Some 0) (Some 180) (Some (-180))
          None None None None).
Proof.
  intros HL Hg. rewrite <- (tabled_eq L HL).
  rewrite (WGS84_fields L g Hg). generalize (Geodesic._c2 g). intros c2.
  vm_compute. reflexivity.
Qed.

Lemma RefLibm_C99_zero : C99_zero RefLibm.libm.
Proof. constructor; vm_compute; reflexivity. Qed.

Lemma Inverse_coincident_points_witness :
  C99_zero RefLibm.libm /\
  WGS84 RefLibm.libm = Ok wgs84 /\
  Geodesic.Inverse RefLibm.libm wgs84 0 0 0 0 default_mask
  = Ok (Geodesic.mkInverseResult 0 0 0 0 0 (Some 0) (Some 180) (Some (-180))
          None None None None).
Proof.
  assert (Hg : WGS84 RefLibm.libm = Ok wgs84) by (vm_compute; reflexivity).
  split; [exact RefLibm_C99_zero|]. split; [exact Hg|].
  exact (Inverse_coincident_points RefLibm.libm wgs84 RefLibm_C99_zero Hg).
Defined.


Ltac inv_bind H :=
  repeat match type of H with
         | bind ?m _ = Ok _ =>
             let E := fresh "E" in
             destruct m eqn:E; cbn [bind] in H; [|discriminate H]
         | (let '(_, _) := ?p in _) = Ok _ => destruct p
         | (if ?b then _ else _) = Ok _ => destruct b
         end.

Lemma Lengths_no_scale g eps sig12 ssig1 csig1 ssig2 csig2 cbet1 cbet2 C1a C2a
    s12b m12a m0 M12 M21 :
  Geodesic.Lengths g eps sig12 ssig1 csig1 ssig2 csig2 cbet1 cbet2 false C1a C2a
  = Ok (s12b, m12a, m0, M12, M21) ->
  M12 = Math.nan /\ M21 = Math.nan.
Proof.
  unfold Geodesic.Lengths. intros H. inv_bind H.
  injection H as _ _ _ <- <-. split; reflexivity.
Qed.

Lemma meridional_no_scale L g sbet1 cbet1 sbet2 cbet2 slam12 clam12 outmask C1a C2a
    v M12 M21 :
  Geodesic.has outmask Geodesic.GEODESICSCALE = false ->
  Geodesic.meridional L g sbet1 cbet1 sbet2 cbet2 slam12 clam12 outmask C1a C2a
  = Ok (v, M12, M21) ->
  M12 = Math.nan /\ M21 = Math.nan.
Proof.
  intros Hs. unfold Geodesic.meridional. rewrite Hs. intros H.
  destruct (math.atan2 L _ _) as [sig12|] in H; cbn [bind] in H; [|discriminate H].
  destruct (Geodesic.Lengths _ _ _ _ _ _ _ _ _ _ _ _) as [[[[[s12x m12x] m0] M12'] M21']|] eqn:EL in H;
    cbn [bind] in H; [|discriminate H].
  apply Lengths_no_scale in EL.
  destruct (_ || _) in H; injection H as _ <- <-; exact EL.
Qed.

(** C9: a flattening [f > 1] is taken as an inverse flattening:
    [Geodesic(a, f)] is [Geodesic(a, 1/f)], field by field and error by
    error; the object holds [1/f], and the check of the minor radius is made
    on [a * (1 - 1/f)].  Whenever [Geodesic(a, 1/f)] returns an object,
    [Geodesic(a, f)] returns that object.  For the inverse flattening of
    WGS84, 298.257223563, an object is returned for every major radius that
    passes the two checks, with every C library whose [atanh] returns a
    number at the eccentricity. *)
Theorem Geodesic_inverse_flattening (L : Libm) (a f : float) :
  (1 <? f) = true ->
  Geodesic.__init__ L a f = Geodesic.__init__ L a (1 / f) /\
  (forall g, Geodesic.__init__ L a f = Ok g ->
             Geodesic._f g = 1 / f /\ Geodesic._b g = a * (1 - 1 / f) /\
             Math.isfinite (a * (1 - 1 / f)) = true /\ (0 <? a * (1 - 1 / f)) = true) /\
  (Geodesic.__init__ L a f = Raise (InputError BadMinorRadius) ->
   Math.isfinite (a * (1 - 1 / f)) && (0 <? a * (1 - 1 / f)) = false) /\
  (forall g, Geodesic.__init__ L a (1 / f) = Ok g ->
             Geodesic.__init__ L a f = Ok g /\ Geodesic._a g = a /\
             Geodesic._f g = 1 / f /\ Geodesic._f1 g = 1 - 1 / f /\
             Geodesic._e2 g = 1 / f * (2 - 1 / f)) /\
  (f = 298.257223563 ->
   Math.isfinite a && (0 <? a) = true ->
   Math.isfinite (a * (1 - 1 / f)) && (0 <? a * (1 - 1 / f)) = true ->
   forall t, math.atanh L (math.sqrt (1 / f * (2 - 1 / f))%float) = Ok t ->
             exists g, Geodesic.__init__ L a f = Ok g).
Proof.
  intros H.
  assert (Hwgs : f = 298.257223563 ->
                 Math.isfinite a && (0 <? a) = true ->
                 Math.isfinite (a * (1 - 1 / f)) && (0 <? a * (1 - 1 / f)) = true ->
                 forall t, math.atanh L (math.sqrt (1 / f * (2 - 1 / f))%float) = Ok t ->
                           exists g, Geodesic.__init__ L a f = Ok g).
  { intros -> Ha Hb t Ht.
    unfold Geodesic.__init__. cbv zeta.
    change (298.257223563 <=? 1) with false. cbv iota.
    set (r := 1 / 298.257223563) in *.
    set (e2 := r * (2 - r)) in *.
    change (e2 =? 0) with false. change (0 <? e2) with true. cbv iota.
    rewrite Ht, Ha, Hb.
    cbv -[PrimFloat.mul PrimFloat.add PrimFloat.div PrimFloat.sub Geodesic.A3coeff
          Geodesic.C3coeff Geodesic.C4coeff r e2].
    eexists; reflexivity. }
  assert (Hmain :
      Geodesic.__init__ L a f = Geodesic.__init__ L a (1 / f) /\
      (forall g, Geodesic.__init__ L a f = Ok g ->
                 Geodesic._f g = 1 / f /\ Geodesic._b g = a * (1 - 1 / f) /\
                 Math.isfinite (a * (1 - 1 / f)) = true /\
                 (0 <? a * (1 - 1 / f)) = true) /\
      (Geodesic.__init__ L a f = Raise (InputError BadMinorRadius) ->
       Math.isfinite (a * (1 - 1 / f)) && (0 <? a * (1 - 1 / f)) = false) /\
      (forall g, Geodesic.__init__ L a (1 / f) = Ok g ->
                 Geodesic.__init__ L a f = Ok g /\ Geodesic._a g = a /\
                 Geodesic._f g = 1 / f /\ Geodesic._f1 g = 1 - 1 / f /\
                 Geodesic._e2 g = 1 / f * (2 - 1 / f))).
  {
    assert (H1 : (f <=? 1) = false) by (apply FloatFacts.ltb_not_leb; exact H).
    assert (H2 : (1 / f <=? 1) = true) by (apply RoundFacts.div_one_le; exact H).
    unfold Geodesic.__init__. rewrite H1, H2.
    split; [reflexivity|]. split; [|split].
    - intros g Hg.
      repeat match type of Hg with
             | bind (lift ?m) _ = _ =>
                 destruct m; cbn [bind lift] in Hg; [|discriminate Hg]
             end.
      destruct (negb (Math.isfinite a && (0 <? a))); [discriminate Hg|].
      destruct (Math.isfinite (a * (1 - 1 / f)) && (0 <? a * (1 - 1 / f))) eqn:Eb;
        cbn [negb] in Hg; [|discriminate Hg].
      injection Hg as <-. apply andb_prop in Eb. cbn. tauto.
    - intros Hg.
      repeat match type of Hg with
             | bind (lift ?m) _ = _ =>
                 destruct m; cbn [bind lift] in Hg; [|discriminate Hg]
             end.
      destruct (negb (Math.isfinite a && (0 <? a))); [discriminate Hg|].
      destruct (Math.isfinite (a * (1 - 1 / f)) && (0 <? a * (1 - 1 / f)));
        [discriminate Hg|reflexivity].
    - intros g Hg. split; [exact Hg|].
      repeat match type of Hg with
             | bind (lift ?m) _ = _ =>
                 destruct m; cbn [bind lift] in Hg; [|discriminate Hg]
             end.
      destruct (negb (Math.isfinite a && (0 <? a))); [discriminate Hg|].
      destruct (negb (Math.isfinite (a * (1 - 1 / f)) && (0 <? a * (1 - 1 / f))));
        [discriminate Hg|].
      injection Hg as <-. cbn. tauto. }
  destruct Hmain as (M1 & M2 & M3 & M4).
  split; [exact M1|]. split; [exact M2|]. split; [exact M3|]. split; [exact M4|].
  exact Hwgs.
Qed.

(** [Geodesic(6378137, 298.257223563)] returns the WGS84 ellipsoid. *)
Lemma Geodesic_inverse_flattening_witness :
  (1 <? 298.257223563) = true /\
  Geodesic.__init__ RefLibm.libm 6378137 298.257223563 = Ok wgs84 /\
  Geodesic.__init__ RefLibm.libm 6378137 (1 / 298.257223563) = Ok wgs84 /\
  Geodesic._a wgs84 = 6378137 /\
  Geodesic._f wgs84 = 1 / 298.257223563 /\
  Geodesic._f1 wgs84 = 1 - 1 / 298.257223563 /\
  Geodesic._e2 wgs84 = 1 / 298.257223563 * (2 - 1 / 298.257223563).
Proof.
  assert (Hg : Geodesic.__init__ RefLibm.libm 6378137 (1 / 298.257223563) = Ok wgs84)
    by (vm_compute; reflexivity).
  destruct (Geodesic_inverse_flattening RefLibm.libm 6378137 298.257223563 eq_refl)
    as (_ & _ & _ & H & _).
  destruct (H wgs84 Hg) as (H1 & H2 & H3 & H4 & H5).
  repeat split; assumption.
Defined.










Module ReverseFacts.
Import FloatFacts SignFacts AngleFacts NanFacts AddFacts CompareFacts MulFacts.
Open Scope float_scope.














End ReverseFacts.

Import FloatFacts SignFacts AngleFacts.






Lemma canonical_signs lat1 lon1 lat2 lon2 :
  let c := Geodesic.canonicalize lat1 lon1 lat2 lon2 in
  (Geodesic.c_lonsign c = 1 \/ Geodesic.c_lonsign c = -1)%Z /\
  (Geodesic.c_swapp c = 1 \/ Geodesic.c_swapp c = -1)%Z /\
  (Geodesic.c_latsign c = 1 \/ Geodesic.c_latsign c = -1)%Z.
Proof.
  unfold Geodesic.canonicalize.
  repeat match goal with
         | |- context [if ?b then _ else _] => destruct b
         end; cbn; auto.
Qed.











(** ** Further properties of the code *)

Import MulFacts.

(** X1: [Math.isfinite(x)], written [abs(x) <= Math.maxval], holds exactly
    for the floats that are neither a NaN nor an infinity: no finite double
    is larger than [maxval]. *)
Theorem isfinite_iff_number (x : float) :
  Math.isfinite x = true <-> is_nan x = false /\ is_infinity x = false.
Proof.
  rewrite FloatFacts.isfinite_spec.
  destruct (is_nan x), (is_infinity x); cbn; intuition congruence.
Qed.

(** X2: [Math.cbrt] is an odd function on the numbers other than zero:
    [cbrt(-x)] is [-cbrt(x)], and raises what [cbrt(x)] raises, whatever the
    C library's [pow] returns. *)
Theorem cbrt_odd (L : Libm) (x : float) :
  (0 <? x) = true \/ (x <? 0) = true ->
  Math.cbrt L (- x) = (y <- Math.cbrt L x ;; Ok (- y)).
Proof.
  unfold Math.cbrt. rewrite abs_opp, leb_zero_opp.
  intros [H|H].
  - rewrite (ltb_leb _ _ H), (FloatFacts.ltb_not_leb _ _ H).
    destruct (math.pow L _ _); reflexivity.
  - rewrite (ltb_leb _ _ H), (FloatFacts.ltb_not_leb _ _ H).
    destruct (math.pow L _ _); cbn [bind]; [|reflexivity].
    now rewrite opp_involutive.
Qed.

Lemma cbrt_odd_witness :
  Math.cbrt RefLibm.libm (- 8) = (y <- Math.cbrt RefLibm.libm 8 ;; Ok (- y)).
Proof.
  exact (cbrt_odd RefLibm.libm 8 (or_introl eq_refl)).
Defined.

Module AccumulatorFacts.

Lemma Add_to_zero_s y :
  (y =? 0) = false ->
  Accumulator._s (Accumulator.Add (Accumulator.Set_float 0) y) = y.
Proof.
  intros H.
  unfold Accumulator.Add, Accumulator.sum, Accumulator.Set_float.
  cbn [Accumulator._s Accumulator._t].
  rewrite !(NanFacts.add_zero_r y H), H. reflexivity.
Qed.

End AccumulatorFacts.

(** X3: a cleared accumulator to which a number [y] other than zero is added
    holds [y] in its first word: [Accumulator(0)], [Add(y)], [Sum()] gives
    back [y], and so does [Accumulator(0).Sum(y)].  (For [y = 0.0] the first
    word becomes [-0.0].) *)
Theorem Accumulator_Add_to_zero (y : float) :
  (y =? 0) = false ->
  Accumulator._s (Accumulator.Add (Accumulator.Set_float 0) y) = y /\
  Accumulator.Sum (Accumulator.Add (Accumulator.Set_float 0) y) 0 = y /\
  Accumulator.Sum (Accumulator.Set_float 0) y = y.
Proof.
  intros H.
  assert (E := AccumulatorFacts.Add_to_zero_s y H).
  split; [exact E|]. split.
  - exact E.
  - unfold Accumulator.Sum. rewrite H. exact E.
Qed.

Lemma Accumulator_Add_to_zero_witness :
  Accumulator._s (Accumulator.Add (Accumulator.Set_float 0) 2.5) = 2.5 /\
  Accumulator.Sum (Accumulator.Add (Accumulator.Set_float 0) 2.5) 0 = 2.5 /\
  Accumulator.Sum (Accumulator.Set_float 0) 2.5 = 2.5.
Proof.
  exact (Accumulator_Add_to_zero 2.5 eq_refl).
Defined.

(** X4: [Negate] changes the sign of both words and nothing else: the
    products by [-1] are exact.  Negating twice gives the accumulator
    back. *)
Theorem Negate_involutive (a : Accumulator.t) :
  Accumulator.Negate a
  = Accumulator.mk (- Accumulator._s a) (- Accumulator._t a) /\
  Accumulator.Negate (Accumulator.Negate a) = a.
Proof.
  assert (E : forall b, Accumulator.Negate b
                        = Accumulator.mk (- Accumulator._s b) (- Accumulator._t b)).
  { intros b. unfold Accumulator.Negate. now rewrite !mul_neg_one_r. }
  split; [apply E|].
  rewrite !E. cbn [Accumulator._s Accumulator._t].
  rewrite !opp_involutive. destruct a; reflexivity.
Qed.

(** X5: [Sum(y)] does not change the accumulator it is called on, nor any
    other: for [y] other than zero it works on a new object [b], a copy to
    which [y] is added, and returns the first word of [b]; [Sum()] returns
    the first word and makes no object. *)
Theorem Sum_works_on_a_copy (h : PolygonArea.heap) (r : PolygonArea.ref) (y : float) :
  fst (PolygonArea.Sum h r y) = Accumulator.Sum (PolygonArea.load h r) y /\
  (exists g, snd (PolygonArea.Sum h r y) = h ++ g /\
             (List.length g <= 1)%nat /\
             ((y =? 0) = true -> g = [])) /\
  (forall r', (r' < List.length h)%nat ->
              PolygonArea.load (snd (PolygonArea.Sum h r y)) r' = PolygonArea.load h r').
Proof.
  rewrite HeapFacts.Sum_spec. cbn [fst snd].
  split; [reflexivity|]. split.
  - eexists. split; [reflexivity|].
    destruct (y =? 0); cbn; split; auto; discriminate.
  - intros r' Hr. now apply HeapFacts.load_app_l.
Qed.

Module ProductFacts.

(** Rounding keeps the sign, and makes no NaN of a non-negative mantissa. *)
Lemma binary_round_aux_sign s m e l :
  (0 <= m)%Z ->
  match binary_round_aux 53 1024 s m e l with
  | S754_zero s' | S754_infinity s' | S754_finite s' _ _ => s' = s
  | S754_nan => False
  end.
Proof.
  intros Hm. unfold binary_round_aux, shr_fexp.
  set (n1 := (fexp 53 1024 (Zdigits2 m + e) - e)%Z).
  assert (H1 := RoundFacts.shr_spec (shr_record_of_loc m l) e n1).
  rewrite RoundFacts.shr_record_of_loc_m in H1. specialize (H1 Hm).
  destruct (shr (shr_record_of_loc m l) e n1) as [mrs' e1].
  destruct H1 as (_ & Hm1 & _).
  assert (Hr := RoundFacts.round_nearest_even_bounds (shr_m mrs') (loc_of_shr_record mrs')).
  set (m2 := round_nearest_even (shr_m mrs') (loc_of_shr_record mrs')) in *.
  assert (Hm2 : (0 <= m2)%Z) by lia.
  set (n2 := (fexp 53 1024 (Zdigits2 m2 + e1) - e1)%Z).
  assert (H2 := RoundFacts.shr_spec (shr_record_of_loc m2 loc_Exact) e1 n2).
  rewrite RoundFacts.shr_record_of_loc_m in H2. specialize (H2 Hm2).
  destruct (shr (shr_record_of_loc m2 loc_Exact) e1 n2) as [mrs'' e2].
  destruct H2 as (_ & Hm3 & _).
  destruct (shr_m mrs'') as [|p|p]; [reflexivity| |lia].
  destruct (e2 <=? 1024 - 53)%Z; reflexivity.
Qed.

Lemma SFltb_zero_pos r :
  SFltb (S754_zero false) r = true ->
  r = S754_infinity false \/ exists m e, r = S754_finite false m e.
Proof.
  destruct r as [s|s| |s m e]; cbn; try discriminate;
    destruct s; try discriminate; eauto.
Qed.

(** A positive product with a positive factor has a positive other factor. *)
Lemma mul_pos_pos a x : (0 <? a) = true -> (0 <? a * x) = true -> (0 <? x) = true.
Proof.
  rewrite !ltb_spec, mul_spec. change (Prim2SF 0) with (S754_zero false).
  intros Ha Hp. apply SFltb_zero_pos in Ha.
  destruct Ha as [Ha|(ma & ea & Ha)]; rewrite Ha in Hp; clear Ha;
    destruct (Prim2SF x) as [s|s| |s m e]; try discriminate Hp;
    try (destruct s; try discriminate Hp; reflexivity).
  cbv beta iota delta [SF64mul SFmul] in Hp.
  change prec with 53%Z in Hp. change emax with 1024%Z in Hp.
  assert (Hs := binary_round_aux_sign (xorb false s) (Zpos (ma * m)) (ea + e)%Z
                  loc_Exact ltac:(lia)).
  destruct (binary_round_aux 53 1024 (xorb false s) (Zpos (ma * m)) (ea + e) loc_Exact)
    as [s'|s'| |s' m' e']; try contradiction; cbn in Hs; subst s';
    destruct s; try discriminate Hp; reflexivity.
Qed.

(** A NaN operand makes a NaN. *)
Lemma div_nan_r x y : is_nan y = true -> is_nan (x / y) = true.
Proof.
  rewrite !NanFacts.is_nan_SF, div_spec. intros ->.
  destruct (Prim2SF x); reflexivity.
Qed.

Lemma sub_nan_r x y : is_nan y = true -> is_nan (x - y) = true.
Proof.
  rewrite !NanFacts.is_nan_SF, sub_spec. intros ->.
  destruct (Prim2SF x); reflexivity.
Qed.

Lemma mul_nan_r x y : is_nan y = true -> is_nan (x * y) = true.
Proof.
  rewrite !NanFacts.is_nan_SF, mul_spec. intros ->.
  destruct (Prim2SF x); reflexivity.
Qed.

End ProductFacts.

(** X6: what [Geodesic(a, f)] guarantees of the object it returns: the major
    radius is the argument, positive and finite; the stored flattening is
    [f], or [1/f] when [f > 1], and never above 1; [_f1 = 1 - _f] is
    positive; the minor radius [_b = _a * _f1] is positive and finite; and
    the three coefficient tables have 6, 15 and 21 entries. *)
Theorem Geodesic_init_invariants (L : Libm) (a f : float) (g : Geodesic.t) :
  Geodesic.__init__ L a f = Ok g ->
  Geodesic._a g = a /\
  Geodesic._f g = (if f <=? 1 then f else 1 / f) /\
  (Geodesic._f g <=? 1) = true /\
  Geodesic._f1 g = 1 - Geodesic._f g /\
  (0 <? Geodesic._f1 g) = true /\
  Geodesic._b g = Geodesic._a g * Geodesic._f1 g /\
  Math.isfinite (Geodesic._a g) = true /\ (0 <? Geodesic._a g) = true /\
  Math.isfinite (Geodesic._b g) = true /\ (0 <? Geodesic._b g) = true /\
  List.length (Geodesic._A3x g) = Geodesic.nA3x_ /\
  List.length (Geodesic._C3x g) = Geodesic.nC3x_ /\
  List.length (Geodesic._C4x g) = Geodesic.nC4x_.
Proof.
  unfold Geodesic.__init__. intros Hg.
  repeat match type of Hg with
         | bind (lift ?m) _ = _ =>
             destruct m; cbn [bind lift] in Hg; [|discriminate Hg]
         end.
  destruct (Math.isfinite a && (0 <? a)) eqn:Ea; cbn [negb] in Hg; [|discriminate Hg].
  match type of Hg with
  | (if negb (?c) then _ else _) = _ => destruct c eqn:Eb
  end; cbn [negb] in Hg; [|discriminate Hg].
  injection Hg as <-.
  cbn [Geodesic._a Geodesic._f Geodesic._f1 Geodesic._b Geodesic._A3x Geodesic._C3x
       Geodesic._C4x].
  apply andb_prop in Ea. destruct Ea as [Ea1 Ea2].
  apply andb_prop in Eb. destruct Eb as [Eb1 Eb2].
  assert (Hf1 : (0 <? 1 - (if f <=? 1 then f else 1 / f)) = true)
    by exact (ProductFacts.mul_pos_pos a _ Ea2 Eb2).
  repeat split; try assumption; try reflexivity.
  destruct (f <=? 1) eqn:Ef; [exact Ef|].
  destruct (NanFacts.leb_false _ _ Ef) as [H|[H|H]].
  - now apply RoundFacts.div_one_le.
  - apply (ProductFacts.div_nan_r 1) in H.
    apply (ProductFacts.sub_nan_r 1) in H.
    apply NanFacts.ltb_not_nan in Hf1. destruct Hf1 as [_ Hf1]. congruence.
  - discriminate H.
Qed.

Lemma Geodesic_init_invariants_witness :
  Geodesic.__init__ RefLibm.libm 6378137 298.257223563 = Ok wgs84 /\
  Geodesic._a wgs84 = 6378137 /\
  Geodesic._f wgs84 = (if 298.257223563 <=? 1 then 298.257223563 else 1 / 298.257223563) /\
  (Geodesic._f wgs84 <=? 1) = true /\
  Geodesic._f1 wgs84 = 1 - Geodesic._f wgs84 /\
  (0 <? Geodesic._f1 wgs84) = true /\
  Geodesic._b wgs84 = Geodesic._a wgs84 * Geodesic._f1 wgs84 /\
  Math.isfinite (Geodesic._a wgs84) = true /\ (0 <? Geodesic._a wgs84) = true /\
  Math.isfinite (Geodesic._b wgs84) = true /\ (0 <? Geodesic._b wgs84) = true /\
  List.length (Geodesic._A3x wgs84) = Geodesic.nA3x_ /\
  List.length (Geodesic._C3x wgs84) = Geodesic.nC3x_ /\
  List.length (Geodesic._C4x wgs84) = Geodesic.nC4x_.
Proof.
  assert (Hg : Geodesic.__init__ RefLibm.libm 6378137 298.257223563 = Ok wgs84)
    by (vm_compute; reflexivity).
  split; [exact Hg|].
  exact (Geodesic_init_invariants RefLibm.libm 6378137 298.257223563 wgs84 Hg).
Defined.

(** ** Indexing *)

Module ListFacts.
Open Scope Z_scope.

Lemma getitem_ok {A} (c : list A) (k : Z) :
  0 <= k < Z.of_nat (List.length c) -> exists v, PyList.getitem c k = Ok v.
Proof.
  intros H. unfold PyList.getitem, PyList.position.
  destruct (Z.ltb_spec k (- Z.of_nat (List.length c))); [lia|].
  destruct (Z.ltb_spec k 0); [lia|].
  destruct (Z.ltb_spec k (Z.of_nat (List.length c))); [|lia].
  destruct (nth_error c (Z.to_nat k)) as [v|] eqn:E; [eauto|].
  apply nth_error_None in E. lia.
Qed.

Lemma getitem_beyond {A} (c : list A) (k : Z) :
  Z.of_nat (List.length c) <= k -> PyList.getitem c k = Raise IndexError.
Proof.
  intros H. unfold PyList.getitem, PyList.position.
  destruct (Z.ltb_spec k (- Z.of_nat (List.length c))); [reflexivity|].
  destruct (Z.ltb_spec k 0); [lia|].
  destruct (Z.ltb_spec k (Z.of_nat (List.length c))); [lia|reflexivity].
Qed.

Lemma setitem_ok {A} (c : list A) (k : Z) (v : A) :
  0 <= k < Z.of_nat (List.length c) ->
  PyList.setitem c k v = Ok (PyList.update c (Z.to_nat k) v).
Proof.
  intros H. unfold PyList.setitem, PyList.position.
  destruct (Z.ltb_spec k (- Z.of_nat (List.length c))); [lia|].
  destruct (Z.ltb_spec k 0); [lia|].
  destruct (Z.ltb_spec k (Z.of_nat (List.length c))); [reflexivity|lia].
Qed.

Lemma setitem_beyond {A} (c : list A) (k : Z) (v : A) :
  Z.of_nat (List.length c) <= k -> PyList.setitem c k v = Raise IndexError.
Proof.
  intros H. unfold PyList.setitem, PyList.position.
  destruct (Z.ltb_spec k (- Z.of_nat (List.length c))); [reflexivity|].
  destruct (Z.ltb_spec k 0); [lia|].
  destruct (Z.ltb_spec k (Z.of_nat (List.length c))); [lia|reflexivity].
Qed.

Lemma setitem_length {A} (c c' : list A) (k : Z) (v : A) :
  PyList.setitem c k v = Ok c' -> List.length c' = List.length c.
Proof.
  unfold PyList.setitem. destruct (PyList.position c k); [|discriminate].
  intros H. injection H as <-. apply HeapFacts.length_update.
Qed.

Lemma hd_update {A} (c : list A) (i : nat) (v : A) :
  hd_error (PyList.update c (S i) v) = hd_error c.
Proof. destruct c; reflexivity. Qed.

(** The Clenshaw loop reads [c[k-1]] down to [c[k - 2*n]]. *)
Lemma clenshaw_ok (c : list float) (ar : float) (n : nat) : forall k y0 y1,
  2 * Z.of_nat n <= k <= Z.of_nat (List.length c) ->
  exists r, Geodesic.clenshaw n ar c k y0 y1 = Ok r.
Proof.
  induction n as [|n IH]; intros k y0 y1 H; cbn [Geodesic.clenshaw].
  - eauto.
  - destruct (getitem_ok c (k - 1) ltac:(lia)) as [v1 ->]. cbn [bind].
    destruct (getitem_ok c (k - 1 - 1) ltac:(lia)) as [v2 ->]. cbn [bind].
    apply IH. lia.
Qed.

End ListFacts.

(** X7: [SinCosSeries(sinp, sinx, cosx, c, n)] reads [c[sinp]] to
    [c[n + sinp - 1]] and nothing else: on a list of at least [n + sinp]
    numbers it returns a value; on a shorter list, with [n > 0], it raises
    IndexError (the first element read is the last one). *)
Theorem SinCosSeries_within_bounds (sinp : bool) (sinx cosx : float) (c : list float)
    (n : nat) :
  ((n + (if sinp then 1 else 0) <= List.length c)%nat ->
   exists v, Geodesic.SinCosSeries sinp sinx cosx c n = Ok v) /\
  ((0 < n)%nat -> (List.length c < n + (if sinp then 1 else 0))%nat ->
   Geodesic.SinCosSeries sinp sinx cosx c n = Raise IndexError).
Proof.
  unfold Geodesic.SinCosSeries.
  set (s := (if sinp then 1 else 0)%Z).
  assert (Hs : s = Z.of_nat (if sinp then 1 else 0)) by (destruct sinp; reflexivity).
  assert (Hs0 : (0 <= s)%Z) by (destruct sinp; subst s; lia).
  assert (Hdiv : (Z.of_nat n = 2 * Z.of_nat (Nat.div n 2)
                               + (if Nat.odd n then 1 else 0))%Z).
  { assert (E := Nat.div_mod_eq n 2).
    destruct (Nat.odd n) eqn:Eo.
    - apply Nat.odd_spec in Eo. destruct Eo as [m Hm].
      assert (Nat.modulo n 2 = 1%nat).
      { replace n with (1 + m * 2)%nat by lia. now rewrite Nat.Div0.mod_add. }
      lia.
    - assert (Ee : Nat.even n = true) by (rewrite <- Nat.negb_odd, Eo; reflexivity).
      apply Nat.even_spec in Ee. destruct Ee as [m Hm].
      assert (Nat.modulo n 2 = 0%nat).
      { replace n with (m * 2)%nat by lia. now rewrite Nat.Div0.mod_mul. }
      lia. }
  split.
  - intros Hlen.
    destruct (Nat.odd n).
    + destruct (ListFacts.getitem_ok c (Z.of_nat n + s - 1)%Z ltac:(lia)) as [v ->].
      cbn [bind].
      destruct (ListFacts.clenshaw_ok c (2 * (cosx - sinx) * (cosx + sinx))
                  (Nat.div n 2) (Z.of_nat n + s - 1)%Z v 0 ltac:(lia)) as [[y0 y1] ->].
      cbn [bind]. eauto.
    + cbn [bind].
      destruct (ListFacts.clenshaw_ok c (2 * (cosx - sinx) * (cosx + sinx))
                  (Nat.div n 2) (Z.of_nat n + s)%Z 0 0 ltac:(lia)) as [[y0 y1] ->].
      cbn [bind]. eauto.
  - intros Hn Hlen.
    destruct (Nat.odd n).
    + rewrite ListFacts.getitem_beyond by lia. reflexivity.
    + cbn [bind]. destruct (Nat.div n 2) as [|m] eqn:Em; [lia|].
      cbn [Geodesic.clenshaw].
      rewrite ListFacts.getitem_beyond by lia. reflexivity.
Qed.

Lemma SinCosSeries_within_bounds_witness :
  (exists v, Geodesic.SinCosSeries true 0.6 0.8 (PyList.range 7) 6 = Ok v) /\
  Geodesic.SinCosSeries true 0.6 0.8 (PyList.range 6) 6 = Raise IndexError.
Proof.
  split.
  - apply (proj1 (SinCosSeries_within_bounds true 0.6 0.8 (PyList.range 7) 6)).
    cbn. lia.
  - apply (proj2 (SinCosSeries_within_bounds true 0.6 0.8 (PyList.range 6) 6));
      cbn; lia.
Defined.

Module SeriesFacts.

Ltac list_of_length c H :=
  repeat (let x := fresh "x" in destruct c as [|x c]; [discriminate H|]);
  destruct c; [|discriminate H]; clear H.

(** The tables that [__init__] makes. *)
Lemma init_tables L a f g :
  Geodesic.__init__ L a f = Ok g ->
  Geodesic._A3x g = Geodesic.A3coeff (Geodesic._n g) /\
  Geodesic._C3x g = Geodesic.C3coeff (Geodesic._n g) /\
  Geodesic._C4x g = Geodesic.C4coeff (Geodesic._ep2 g).
Proof.
  unfold Geodesic.__init__. intros Hg.
  repeat match type of Hg with
         | bind (lift ?m) _ = _ =>
             destruct m; cbn [bind lift] in Hg; [|discriminate Hg]
         end.
  repeat match type of Hg with
         | (if ?c then _ else _) = _ => destruct c; [discriminate Hg|]
         end.
  injection Hg as <-. repeat split.
Qed.

Lemma A3f_ok g eps :
  List.length (Geodesic._A3x g) = 6%nat -> exists v, Geodesic.A3f g eps = Ok v.
Proof.
  destruct g as [? ? ? ? ? ? ? ? ? A3x C3x C4x]. cbn [Geodesic._A3x].
  intros H. destruct A3x as [|x0 c]; [discriminate H|].
  list_of_length c H. eexists. reflexivity.
Qed.

Lemma C3f_ok g eps c :
  List.length (Geodesic._C3x g) = 15%nat -> List.length c = 6%nat ->
  exists c', Geodesic.C3f g eps c = Ok c' /\ List.length c' = 6%nat.
Proof.
  destruct g as [? ? ? ? ? ? ? ? ? A3x C3x C4x]. cbn [Geodesic._C3x].
  intros H Hc. destruct C3x as [|x0 t]; [discriminate H|].
  list_of_length t H.
  destruct c as [|y0 c]; [discriminate Hc|]. list_of_length c Hc.
  eexists. split; reflexivity.
Qed.

Lemma C4f_ok g k2 c :
  List.length (Geodesic._C4x g) = 21%nat -> List.length c = 6%nat ->
  exists c', Geodesic.C4f g k2 c = Ok c' /\ List.length c' = 6%nat.
Proof.
  destruct g as [? ? ? ? ? ? ? ? ? A3x C3x C4x]. cbn [Geodesic._C4x].
  intros H Hc. destruct C4x as [|x0 t]; [discriminate H|].
  list_of_length t H.
  destruct c as [|y0 c]; [discriminate Hc|]. list_of_length c Hc.
  eexists. split; reflexivity.
Qed.

End SeriesFacts.

(** X8: on a Geodesic object made by the constructor, [A3f], [C3f] and [C4f]
    index their coefficient tables within bounds: [A3f] returns a value, and
    [C3f] and [C4f] fill a scratch list of [nC3_] resp. [nC4_] numbers and
    return it with the same length; none raises IndexError or anything
    else. *)
Theorem series_coefficients_in_bounds (L : Libm) (a f x : float) (g : Geodesic.t)
    (c : list float) :
  Geodesic.__init__ L a f = Ok g ->
  List.length c = Geodesic.GEOD_ORD ->
  (exists v, Geodesic.A3f g x = Ok v) /\
  (exists c', Geodesic.C3f g x c = Ok c' /\ List.length c' = Geodesic.nC3_) /\
  (exists c', Geodesic.C4f g x c = Ok c' /\ List.length c' = Geodesic.nC4_).
Proof.
  intros Hg Hc.
  destruct (SeriesFacts.init_tables L a f g Hg) as (H3 & H4 & H5).
  split; [|split].
  - apply SeriesFacts.A3f_ok. now rewrite H3.
  - apply SeriesFacts.C3f_ok; [now rewrite H4|exact Hc].
  - apply SeriesFacts.C4f_ok; [now rewrite H5|exact Hc].
Qed.

Lemma series_coefficients_in_bounds_witness :
  Geodesic.__init__ RefLibm.libm 6378137 298.257223563 = Ok wgs84 /\
  List.length (PyList.range 6) = Geodesic.GEOD_ORD /\
  (exists v, Geodesic.A3f wgs84 0.001 = Ok v) /\
  (exists c', Geodesic.C3f wgs84 0.001 (PyList.range 6) = Ok c'
              /\ List.length c' = Geodesic.nC3_) /\
  (exists c', Geodesic.C4f wgs84 0.001 (PyList.range 6) = Ok c'
              /\ List.length c' = Geodesic.nC4_).
Proof.
  assert (Hg : Geodesic.__init__ RefLibm.libm 6378137 298.257223563 = Ok wgs84)
    by (vm_compute; reflexivity).
  split; [exact Hg|]. split; [reflexivity|].
  exact (series_coefficients_in_bounds RefLibm.libm 6378137 298.257223563 0.001 wgs84
           (PyList.range 6) Hg eq_refl).
Defined.

Module FillFacts.

(** Six assignments [c[1] = v1; ...; c[6] = v6]. *)
Definition fill (c : list float) (v1 v2 v3 v4 v5 v6 : float) : M (list float) :=
  c <- PyList.setitem c 1 v1 ;;
  c <- PyList.setitem c 2 v2 ;;
  c <- PyList.setitem c 3 v3 ;;
  c <- PyList.setitem c 4 v4 ;;
  c <- PyList.setitem c 5 v5 ;;
  PyList.setitem c 6 v6.

Lemma fill_ok c v1 v2 v3 v4 v5 v6 :
  (7 <= List.length c)%nat ->
  exists c', fill c v1 v2 v3 v4 v5 v6 = Ok c' /\
             List.length c' = List.length c /\ hd_error c' = hd_error c /\
             firstn 6 (tl c') = [v1; v2; v3; v4; v5; v6] /\
             skipn 7 c' = skipn 7 c.
Proof.
  intros H. unfold fill.
  repeat (rewrite ListFacts.setitem_ok
            by (rewrite ?HeapFacts.length_update; lia); cbn [bind]).
  eexists. split; [reflexivity|].
  do 7 (destruct c as [|? c]; [cbn in H; lia|]).
  repeat split.
Qed.

Lemma fill_short c v1 v2 v3 v4 v5 v6 :
  (List.length c < 7)%nat -> fill c v1 v2 v3 v4 v5 v6 = Raise IndexError.
Proof.
  intros H.
  do 7 (destruct c as [|? c]; [reflexivity|]).
  cbn in H. lia.
Qed.

Lemma as_fill eps c F :
  In F [Geodesic.C1f; Geodesic.C1pf; Geodesic.C2f] ->
  exists v1 v2 v3 v4 v5 v6, F eps c = fill c v1 v2 v3 v4 v5 v6.
Proof.
  intros [<-|[<-|[<-|[]]]]; do 6 eexists; reflexivity.
Qed.

End FillFacts.

(** X9: [C1f], [C1pf] and [C2f] assign the entries 1 to 6 of the list they
    are given and nothing else: on a list of at least 7 elements they
    succeed, and the length, the entry 0 and the entries from 7 on are
    unchanged; on a shorter list they raise IndexError. *)
Theorem C1f_C1pf_C2f_in_bounds (eps : float) (c : list float) :
  ((7 <= List.length c)%nat ->
   forall F, In F [Geodesic.C1f; Geodesic.C1pf; Geodesic.C2f] ->
     exists c', F eps c = Ok c' /\ List.length c' = List.length c /\
                hd_error c' = hd_error c /\ skipn 7 c' = skipn 7 c) /\
  ((List.length c < 7)%nat ->
   forall F, In F [Geodesic.C1f; Geodesic.C1pf; Geodesic.C2f] ->
     F eps c = Raise IndexError).
Proof.
  split; intros H F HF;
    destruct (FillFacts.as_fill eps c F HF) as (v1 & v2 & v3 & v4 & v5 & v6 & ->).
  - destruct (FillFacts.fill_ok c v1 v2 v3 v4 v5 v6 H) as (c' & E & Hl & Hh & _ & Hs).
    exists c'. auto.
  - now apply FillFacts.fill_short.
Qed.

Lemma C1f_C1pf_C2f_in_bounds_witness :
  (exists c', Geodesic.C1f 0.001 (PyList.range 7) = Ok c' /\
              List.length c' = List.length (PyList.range 7) /\
              hd_error c' = hd_error (PyList.range 7) /\
              skipn 7 c' = skipn 7 (PyList.range 7)) /\
  Geodesic.C2f 0.001 (PyList.range 6) = Raise IndexError.
Proof.
  split.
  - apply (proj1 (C1f_C1pf_C2f_in_bounds 0.001 (PyList.range 7)));
      [cbn; lia|left; reflexivity].
  - apply (proj2 (C1f_C1pf_C2f_in_bounds 0.001 (PyList.range 6)));
      [cbn; lia|right; right; left; reflexivity].
Defined.

Module RoundingFacts.



(** A difference of two numbers is a NaN for two infinities only. *)
Lemma SFsub_nan x y :
  SFsub 53 1024 x y = S754_nan ->
  x = S754_nan \/ y = S754_nan \/ (exists sx sy, x = S754_infinity sx /\ y = S754_infinity sy).
Proof.
  destruct x as [sx|sx| |sx mx ex], y as [sy|sy| |sy my ey]; cbn; auto;
    try discriminate; try (intros _; right; right; eauto; fail).
  - destruct sx, sy; discriminate.
  - cbv beta iota delta [binary_normalize binary_round].
    match goal with
    | |- match ?m with _ => _ end = _ -> _ => destruct m as [|p|p]
    end; [discriminate| |].
    + destruct (shl_align p _ _) as [mz ez].
      intros H.
      assert (Hs := ProductFacts.binary_round_aux_sign false (Zpos mz) ez loc_Exact
                      ltac:(lia)).
      rewrite H in Hs. contradiction.
    + destruct (shl_align p _ _) as [mz ez].
      intros H.
      assert (Hs := ProductFacts.binary_round_aux_sign true (Zpos mz) ez loc_Exact
                      ltac:(lia)).
      rewrite H in Hs. contradiction.
Qed.

Lemma sub_finite_not_nan c x mc ec :
  Prim2SF c = S754_finite false mc ec ->
  is_nan x = false -> is_nan (c - x) = false.
Proof.
  intros Hc Hx. destruct (is_nan (c - x)) eqn:E; [|reflexivity].
  apply NanFacts.is_nan_SF in E. rewrite sub_spec, Hc in E.
  apply SFsub_nan in E. destruct E as [E|[E|(sx & sy & E & _)]]; try discriminate E.
  apply NanFacts.is_nan_SF in E. congruence.
Qed.

Lemma is_nan_AngRound x : is_nan x = false -> is_nan (Geodesic.AngRound x) = false.
Proof.
  intros H. unfold Geodesic.AngRound.
  assert (Ha : is_nan (abs x) = false) by now rewrite NanFacts.is_nan_abs.
  assert (Hz : Prim2SF 0.0625 = S754_finite false 4503599627370496 (-56))
    by (vm_compute; reflexivity).
  remember 4503599627370496%positive as N eqn:EN. clear EN.
  assert (Hy : is_nan (if abs x <? 0.0625 then 0.0625 - (0.0625 - abs x) else abs x)
               = false).
  { destruct (abs x <? 0.0625); [|exact Ha].
    eapply sub_finite_not_nan; [exact Hz|].
    eapply sub_finite_not_nan; [exact Hz|exact Ha]. }
  destruct (x <? 0); [rewrite NanFacts.is_nan_opp|]; exact Hy.
Qed.

End RoundingFacts.



Module OrderFacts.

Lemma leb_opp_zero x : (- x <=? 0) = (0 <=? x).
Proof. rewrite <- (opp_involutive x) at 2. now rewrite leb_zero_opp. Qed.

(** [|q| <= |p|] with [p <= 0] is [p <= q <= -p]. *)
Lemma abs_order p q :
  (abs q <=? abs p) = true -> (p <=? 0) = true ->
  (p <=? q) = true /\ (q <=? - p) = true.
Proof.
  intros Ha Hp.
  destruct (Prim2SF p) as [s|s| |s m e] eqn:Ep.
  - rewrite !leb_spec, ?abs_spec, ?opp_spec, ?Ep in *.
    destruct (Prim2SF q) as [sq|sq| |sq mq eq]; cbn in *;
      try discriminate; auto; destruct sq; discriminate.
  - rewrite !leb_spec, ?abs_spec, ?opp_spec, ?Ep in *.
    change (Prim2SF 0) with (S754_zero false) in Hp.
    destruct s; [|discriminate Hp].
    destruct (Prim2SF q) as [sq|sq| |sq mq eq]; cbn in *;
      try discriminate; auto; destruct sq; auto.
  - rewrite leb_spec, Ep in Hp. discriminate Hp.
  - destruct s.
    + assert (E1 : abs p = - p)
        by (apply Prim2SF_inj; rewrite abs_spec, opp_spec, Ep; reflexivity).
      assert (E2 : - abs p = p)
        by (apply Prim2SF_inj; rewrite opp_spec, abs_spec, Ep; reflexivity).
      rewrite (FloatFacts.abs_leb q (abs p) m e) in Ha
        by (rewrite abs_spec, Ep; reflexivity).
      rewrite E2, E1 in Ha. now apply andb_prop in Ha.
    + rewrite leb_spec, Ep in Hp. discriminate Hp.
Qed.

End OrderFacts.

(** X11: the canonical form that [GenInverse] brings the coordinates to, as
    its comment states it: for latitudes that are numbers, [lat1 <= 0] and
    [lat1 <= lat2 <= -lat1]; the longitude difference is non-negative (or a
    NaN); and each of [lonsign], [swapp], [latsign] is 1 or -1. *)
Theorem canonical_form (lat1 lon1 lat2 lon2 : float) (c : Geodesic.canonical) :
  is_nan lat1 = false -> is_nan lat2 = false ->
  Geodesic.canonicalize lat1 lon1 lat2 lon2 = c ->
  (Geodesic.c_lat1 c <=? 0) = true /\
  (Geodesic.c_lat1 c <=? Geodesic.c_lat2 c) = true /\
  (Geodesic.c_lat2 c <=? - Geodesic.c_lat1 c) = true /\
  ((0 <=? Geodesic.c_lon12 c) = true \/ is_nan (Geodesic.c_lon12 c) = true) /\
  (Geodesic.c_lonsign c = 1 \/ Geodesic.c_lonsign c = -1)%Z /\
  (Geodesic.c_swapp c = 1 \/ Geodesic.c_swapp c = -1)%Z /\
  (Geodesic.c_latsign c = 1 \/ Geodesic.c_latsign c = -1)%Z.
Proof.
  intros H1 H2 <-.
  assert (Hs := canonical_signs lat1 lon1 lat2 lon2). cbv zeta in Hs.
  destruct Hs as (Hs1 & Hs3 & Hs2).
  assert (Hlat : forall p q, is_nan p = false -> is_nan q = false ->
            (abs q <=? abs p) = true ->
            let k := if p <? 0 then 1%Z else (-1)%Z in
            (p * PyFloat.of_Z k <=? 0) = true /\
            (abs (q * PyFloat.of_Z k) <=? abs (p * PyFloat.of_Z k)) = true).
  { intros p q Hp Hq Hpq. cbv zeta. destruct (p <? 0) eqn:E.
    - change (PyFloat.of_Z 1) with 1. rewrite !mul_one_r.
      split; [now apply ltb_leb|exact Hpq].
    - change (PyFloat.of_Z (-1)) with (-1). rewrite !mul_neg_one_r, !abs_opp.
      split; [|exact Hpq]. rewrite OrderFacts.leb_opp_zero.
      destruct (NanFacts.ltb_false _ _ E) as [H|[H|H]]; [exact H|congruence|discriminate H]. }
  assert (Ha := RoundingFacts.is_nan_AngRound lat1 H1).
  assert (Hb := RoundingFacts.is_nan_AngRound lat2 H2).
  assert (Hlon : forall r,
            let k := if 0 <=? r then 1%Z else (-1)%Z in
            (0 <=? r * PyFloat.of_Z k) = true \/ is_nan (r * PyFloat.of_Z k) = true).
  { intros r. cbv zeta. destruct (0 <=? r) eqn:E.
    - change (PyFloat.of_Z 1) with 1. rewrite mul_one_r. now left.
    - change (PyFloat.of_Z (-1)) with (-1). rewrite mul_neg_one_r.
      rewrite leb_zero_opp, NanFacts.is_nan_opp.
      destruct (NanFacts.leb_false _ _ E) as [H|[H|H]];
        [left; now apply ltb_leb|discriminate H|now right]. }
  assert (HL : (Geodesic.c_lat1 (Geodesic.canonicalize lat1 lon1 lat2 lon2) <=? 0) = true /\
               (abs (Geodesic.c_lat2 (Geodesic.canonicalize lat1 lon1 lat2 lon2))
                <=? abs (Geodesic.c_lat1 (Geodesic.canonicalize lat1 lon1 lat2 lon2))) = true).
  { unfold Geodesic.canonicalize.
    set (a := Geodesic.AngRound lat1) in *. set (b := Geodesic.AngRound lat2) in *.
    destruct (abs b <=? abs a) eqn:Es;
      cbn [Geodesic.c_lat1 Geodesic.c_lat2 Z.ltb Z.compare].
    - exact (Hlat a b Ha Hb Es).
    - apply (Hlat b a Hb Ha).
      destruct (NanFacts.leb_false _ _ Es) as [H|[H|H]];
        [now apply ltb_leb
        |rewrite NanFacts.is_nan_abs in H; congruence
        |rewrite NanFacts.is_nan_abs in H; congruence]. }
  destruct HL as [HL1 HL2].
  destruct (OrderFacts.abs_order _ _ HL2 HL1) as [HL3 HL4].
  split; [exact HL1|]. split; [exact HL3|]. split; [exact HL4|].
  split; [|split; [exact Hs1|split; [|exact Hs2]]].
  - unfold Geodesic.canonicalize.
    destruct (abs (Geodesic.AngRound lat2) <=? abs (Geodesic.AngRound lat1));
      cbn [Geodesic.c_lon12 Z.ltb Z.compare]; apply Hlon.
  - unfold Geodesic.canonicalize.
    destruct (abs (Geodesic.AngRound lat2) <=? abs (Geodesic.AngRound lat1));
      cbn; auto.
Qed.

Lemma canonical_form_witness :
  is_nan 10 = false /\ is_nan (-40) = false /\
  (Geodesic.c_lat1 (Geodesic.canonicalize 10 20 (-40) (-30)) <=? 0) = true /\
  (Geodesic.c_lat1 (Geodesic.canonicalize 10 20 (-40) (-30))
   <=? Geodesic.c_lat2 (Geodesic.canonicalize 10 20 (-40) (-30))) = true /\
  (Geodesic.c_lat2 (Geodesic.canonicalize 10 20 (-40) (-30))
   <=? - Geodesic.c_lat1 (Geodesic.canonicalize 10 20 (-40) (-30))) = true /\
  ((0 <=? Geodesic.c_lon12 (Geodesic.canonicalize 10 20 (-40) (-30))) = true \/
   is_nan (Geodesic.c_lon12 (Geodesic.canonicalize 10 20 (-40) (-30))) = true) /\
  (Geodesic.c_lonsign (Geodesic.canonicalize 10 20 (-40) (-30)) = 1 \/
   Geodesic.c_lonsign (Geodesic.canonicalize 10 20 (-40) (-30)) = -1)%Z /\
  (Geodesic.c_swapp (Geodesic.canonicalize 10 20 (-40) (-30)) = 1 \/
   Geodesic.c_swapp (Geodesic.canonicalize 10 20 (-40) (-30)) = -1)%Z /\
  (Geodesic.c_latsign (Geodesic.canonicalize 10 20 (-40) (-30)) = 1 \/
   Geodesic.c_latsign (Geodesic.canonicalize 10 20 (-40) (-30)) = -1)%Z.
Proof.
  split; [reflexivity|]. split; [reflexivity|].
  exact (canonical_form 10 20 (-40) (-30) _ eq_refl eq_refl eq_refl).
Defined.

(** ** PolygonArea *)

Module PolygonFacts.
Import PolygonArea.

(** The attributes that [AddPoint] never assigns. *)
Definition same_setup (self self' : t) : Prop :=
  _earth self' = _earth self /\ _area0 self' = _area0 self /\
  _polyline self' = _polyline self /\ _mask self' = _mask self /\
  _areasum self' = _areasum self /\ _perimetersum self' = _perimetersum self.

Lemma same_setup_refl self : same_setup self self.
Proof. repeat split. Qed.

Lemma same_setup_trans a b c : same_setup a b -> same_setup b c -> same_setup a c.
Proof.
  unfold same_setup. intros (?&?&?&?&?&?) (?&?&?&?&?&?).
  repeat split; congruence.
Qed.

Lemma AddPoint_setup self lat lon h :
  let '(_, self', h') := AddPoint self lat lon h in
  same_setup self self' /\ List.length h' = List.length h.
Proof.
  unfold AddPoint.
  destruct (_num self =? 0)%Z; [split; [repeat split|reflexivity]|].
  destruct (earth_GenInverse _ _ _ _ _ _)
    as [[[[[[[[a12 s12] azi1] azi2] m12] M12] M21] S12]|e];
    [|split; [repeat split|reflexivity]].
  destruct (negb (_polyline self)).
  - destruct (get_areasum self) as [r|e].
    + split; [repeat split|]. now rewrite !HeapFacts.length_Add.
    + split; [repeat split|]. now rewrite !HeapFacts.length_Add.
  - split; [repeat split|]. now rewrite !HeapFacts.length_Add.
Qed.

Lemma AddPoints_setup points : forall self h,
  let '(_, self', h') := AddPoints self points h in
  same_setup self self' /\ List.length h' = List.length h.
Proof.
  induction points as [|[lat lon] points IH]; intros self h; cbn [AddPoints].
  - split; [apply same_setup_refl|reflexivity].
  - assert (H := AddPoint_setup self lat lon h).
    destruct (AddPoint self lat lon h) as [[[u|e] self1] h1].
    + specialize (IH self1 h1).
      destruct (AddPoints self1 points h1) as [[res self2] h2].
      destruct H as [H1 H2], IH as [H3 H4].
      split; [eapply same_setup_trans; eassumption|congruence].
    + exact H.
Qed.

End PolygonFacts.

(** X12: [AddPoint] is all or nothing.  On an object whose area accumulator
    exists when it is a polygon (as [__init__] makes it), either it raises
    what the solver raised and leaves the object and the accumulators
    untouched, or it returns and the vertex count is one more, the current
    point is [(lat, lon)], the first point is [(lat, lon)] for the first
    vertex and unchanged otherwise; it makes no accumulator, and never
    changes the earth, the mask or the polyline flag. *)
Theorem AddPoint_all_or_nothing (self : PolygonArea.t) (lat lon : float)
    (h : PolygonArea.heap) :
  (PolygonArea._polyline self = false -> PolygonArea._areasum self <> None) ->
  let '(res, self', h') := PolygonArea.AddPoint self lat lon h in
  match res with
  | Raise e =>
      self' = self /\ h' = h /\ (PolygonArea._num self =? 0)%Z = false /\
      PolygonArea.earth_GenInverse (PolygonArea._earth self)
        (PolygonArea._lat1 self) (PolygonArea._lon1 self) lat lon
        (PolygonArea._mask self) = Raise e
  | Ok _ =>
      PolygonArea._num self' = (PolygonArea._num self + 1)%Z /\
      PolygonArea._lat1 self' = lat /\ PolygonArea._lon1 self' = lon /\
      (if (PolygonArea._num self =? 0)%Z
       then PolygonArea._lat0 self' = lat /\ PolygonArea._lon0 self' = lon /\ h' = h
       else PolygonArea._lat0 self' = PolygonArea._lat0 self /\
            PolygonArea._lon0 self' = PolygonArea._lon0 self) /\
      List.length h' = List.length h /\
      PolygonFacts.same_setup self self'
  end.
Proof.
  intros Hwf.
  assert (Hs := PolygonFacts.AddPoint_setup self lat lon h).
  unfold PolygonArea.AddPoint in *.
  destruct (PolygonArea._num self =? 0)%Z eqn:En.
  { destruct Hs as [Hs Hl]. repeat split; try apply Hs. }
  destruct (PolygonArea.earth_GenInverse _ _ _ _ _ _)
    as [[[[[[[[a12 s12] azi1] azi2] m12] M12] M21] S12]|e]; [|repeat split].
  destruct (PolygonArea._polyline self) eqn:Ep; cbn [negb] in *.
  - destruct Hs as [Hs Hl]. repeat split; try apply Hs; exact Hl.
  - unfold PolygonArea.get_areasum in *.
    destruct (PolygonArea._areasum self) as [r|]; [|now destruct (Hwf eq_refl)].
    destruct Hs as [Hs Hl]. repeat split; try apply Hs; exact Hl.
Qed.

(** A polygon with one vertex, on an earth whose solver raises. *)
Definition one_point : PolygonArea.t * PolygonArea.heap :=
  add_points broken_earth false [(10, 20)].

Lemma AddPoint_all_or_nothing_witness :
  let '(res, self', h') :=
    PolygonArea.AddPoint (fst one_point) 30 40
      (snd one_point) in
  match res with
  | Raise e =>
      self' = fst one_point /\
      h' = snd one_point /\
      (PolygonArea._num (fst one_point) =? 0)%Z = false /\
      PolygonArea.earth_GenInverse
        (PolygonArea._earth (fst one_point))
        (PolygonArea._lat1 (fst one_point))
        (PolygonArea._lon1 (fst one_point)) 30 40
        (PolygonArea._mask (fst one_point)) = Raise e
  | Ok _ =>
      PolygonArea._num self'
      = (PolygonArea._num (fst one_point) + 1)%Z /\
      PolygonArea._lat1 self' = 30 /\ PolygonArea._lon1 self' = 40 /\
      (if (PolygonArea._num (fst one_point) =? 0)%Z
       then PolygonArea._lat0 self' = 30 /\ PolygonArea._lon0 self' = 40 /\
            h' = snd one_point
       else PolygonArea._lat0 self'
            = PolygonArea._lat0 (fst one_point) /\
            PolygonArea._lon0 self'
            = PolygonArea._lon0 (fst one_point)) /\
      List.length h' = List.length (snd one_point) /\
      PolygonFacts.same_setup (fst one_point) self'
  end.
Proof.
  apply (AddPoint_all_or_nothing (fst one_point) 30 40
           (snd one_point)).
  intros _. cbn. discriminate.
Defined.

(** [s12], the second of the values that [GenInverse] returns. *)
Definition inverse_s12 (r : PolygonArea.inverse) : float :=
  let '(_, s12, _, _, _, _, _, _) := r in s12.

(** X13: the perimeter of a polyline of two points is the distance that the
    solver returns for them, bit for bit (when it is not zero), with the
    count 2 and a NaN for the area; and [Area] raises what the solver
    raises.  The solver is asked for DISTANCE only. *)
Theorem polyline_two_points (earth : PolygonArea.Earth) (p q : float * float) :
  (forall r,
      PolygonArea.earth_GenInverse earth (fst p) (snd p) (fst q) (snd q)
        Geodesic.DISTANCE = Ok r ->
      (inverse_s12 r =? 0) = false ->
      PolygonArea.Area earth [p; q] true
      = Ok (2%Z, PFloat (inverse_s12 r), PFloat Math.nan)) /\
  (forall e,
      PolygonArea.earth_GenInverse earth (fst p) (snd p) (fst q) (snd q)
        Geodesic.DISTANCE = Raise e ->
      PolygonArea.Area earth [p; q] true = Raise e).
Proof.
  destruct p as [lat1 lon1], q as [lat2 lon2]. cbn [fst snd].
  unfold PolygonArea.Area.
  cbn -[PolygonArea.earth_GenInverse Accumulator.Add Accumulator.Set_float].
  change (Z.lor Geodesic.DISTANCE 0) with Geodesic.DISTANCE.
  split.
  - intros r Hr Hz. cbn -[PolygonArea.earth_GenInverse Accumulator.Add] in Hr.
    rewrite Hr.
    destruct r as [[[[[[[a12 s12] azi1] azi2] m12] M12] M21] S12].
    cbn -[Accumulator.Add Accumulator.Set_float] in *.
    now rewrite (AccumulatorFacts.Add_to_zero_s s12 Hz).
  - intros e He. cbn -[PolygonArea.earth_GenInverse Accumulator.Add] in He.
    rewrite He. reflexivity.
Qed.

Lemma polyline_two_points_witness :
  PolygonArea.Area ref_earth [(0, 0); (0, 1)] true
  = Ok (2%Z, PFloat (inverse_s12 (0, 111319.49079327357, 0, 0, 0, 0, 0, 0)),
        PFloat Math.nan) /\
  PolygonArea.Area broken_earth [(0, 0); (0, 1)] true = Raise ZeroDivisionError.
Proof.
  split.
  - assert (H : exists a12 azi1 azi2 m12 M12 M21 S12,
        PolygonArea.earth_GenInverse ref_earth 0 0 0 1 Geodesic.DISTANCE
        = Ok (a12, 111319.49079327357, azi1, azi2, m12, M12, M21, S12)).
    { do 7 eexists. vm_compute. reflexivity. }
    destruct H as (a12 & azi1 & azi2 & m12 & M12 & M21 & S12 & H).
    exact (proj1 (polyline_two_points ref_earth (0, 0) (0, 1)) _ H eq_refl).
  - exact (proj2 (polyline_two_points broken_earth (0, 0) (0, 1)) _ eq_refl).
Defined.

(** X14: [transit] counts a crossing of the prime meridian only between a
    negative and a non-negative longitude (after [AngNormalize]): its value
    is -1, 0 or 1; it is 0 from a longitude to itself; and the two
    directions of one step never count the same way. *)
Theorem transit_straddles (lon1 lon2 : float) :
  (-1 <= PolygonArea.transit lon1 lon2 <= 1)%Z /\
  PolygonArea.transit lon1 lon1 = 0%Z /\
  (PolygonArea.transit lon1 lon2 = 1%Z ->
   (Geodesic.AngNormalize lon1 <? 0) = true /\
   (0 <=? Geodesic.AngNormalize lon2) = true /\
   PolygonArea.transit lon2 lon1 <> 1%Z) /\
  (PolygonArea.transit lon1 lon2 = (-1)%Z ->
   (Geodesic.AngNormalize lon2 <? 0) = true /\
   (0 <=? Geodesic.AngNormalize lon1) = true /\
   PolygonArea.transit lon2 lon1 <> (-1)%Z).
Proof.
  unfold PolygonArea.transit.
  set (a := Geodesic.AngNormalize lon1). set (b := Geodesic.AngNormalize lon2).
  split; [|split; [|split]].
  - destruct ((a <? 0) && (0 <=? b) && _); [lia|].
    destruct ((b <? 0) && (0 <=? a) && _); lia.
  - destruct (a <? 0) eqn:E.
    + rewrite (FloatFacts.ltb_not_leb _ _ E). reflexivity.
    + reflexivity.
  - destruct (a <? 0) eqn:Ea; cbn [andb].
    + destruct (0 <=? b) eqn:Eb; cbn [andb].
      * intros _. split; [reflexivity|]. split; [reflexivity|].
        rewrite (FloatFacts.leb_not_ltb _ _ Eb). cbn [andb].
        destruct (- Geodesic.AngNormalize (b - a) <? 0); discriminate.
      * destruct ((b <? 0) && (0 <=? a) && _); discriminate.
    + destruct ((b <? 0) && (0 <=? a) && _); discriminate.
  - destruct ((a <? 0) && (0 <=? b) && _) eqn:E1; [discriminate|].
    destruct (b <? 0) eqn:Eb; cbn [andb]; [|discriminate].
    destruct (0 <=? a) eqn:Ea; cbn [andb]; [|discriminate].
    intros _. split; [reflexivity|]. split; [reflexivity|].
    rewrite (FloatFacts.ltb_not_leb _ _ Eb), (FloatFacts.leb_not_ltb _ _ Ea).
    rewrite andb_false_r. cbn [andb].
    destruct (0 <? - Geodesic.AngNormalize (b - a)); discriminate.
Qed.

(** X15: [Clear] brings a PolygonArea back to what the constructor made:
    after any sequence of [AddPoint] calls (whether or not one of them
    raised), [Clear] gives the object and the two accumulators of
    [PolygonArea(earth, polyline)]. *)
Theorem Clear_restores_fresh (earth : PolygonArea.Earth) (polyline : bool)
    (points : list (float * float)) :
  let '(poly0, h0) := PolygonArea.__init__ earth polyline [] in
  let '(_, poly, h) := PolygonArea.AddPoints poly0 points h0 in
  PolygonArea.Clear poly h = (poly0, h0).
Proof.
  destruct (PolygonArea.__init__ earth polyline []) as [poly0 h0] eqn:E0.
  assert (H := PolygonFacts.AddPoints_setup points poly0 h0).
  destruct (PolygonArea.AddPoints poly0 points h0) as [[res poly] h].
  destruct H as [(H1 & H2 & H3 & H4 & H5 & H6) Hl].
  unfold PolygonArea.Clear. rewrite H1, H2, H3, H4, H5, H6.
  destruct polyline; cbn in E0; injection E0 as <- <-; cbn in *.
  - destruct h as [|v0 [|v1 h]]; try discriminate Hl. reflexivity.
  - destruct h as [|v0 [|v1 [|v2 h]]]; try discriminate Hl. reflexivity.
Qed.


(** The positions that [CheckPosition] accepts. *)
Definition position_ok (p : float * float) : bool :=
  in_interval (-90) 90 (fst p) && in_interval (-180) 360 (snd p).

Module AreaFacts.

Lemma CheckPosition_ok lat lon :
  match Geodesic.CheckPosition lat lon with
  | Ok _ => position_ok (lat, lon) = true
  | Raise (InputError _) => position_ok (lat, lon) = false
  | Raise (RuntimeError _) => False
  end.
Proof.
  unfold Geodesic.CheckPosition, position_ok. cbn [fst snd].
  rewrite abs_leb_90. fold (in_interval (-180) 360 lon).
  destruct (in_interval (-90) 90 lat); cbn [negb andb]; [|reflexivity].
  destruct (in_interval (-180) 360 lon); reflexivity.
Qed.

Lemma CheckPositions_ok points :
  match GeodesicArea.CheckPositions points with
  | Ok _ => forallb position_ok points = true
  | Raise (InputError _) => forallb position_ok points = false
  | Raise (RuntimeError _) => False
  end.
Proof.
  induction points as [|[lat lon] points IH]; cbn [GeodesicArea.CheckPositions forallb].
  - reflexivity.
  - assert (H := CheckPosition_ok lat lon).
    destruct (Geodesic.CheckPosition lat lon) as [v|[e|e]]; cbn [bind];
      [|rewrite H; reflexivity|contradiction].
    rewrite H. exact IH.
Qed.

Lemma AddPoints_num points : forall self h u self' h',
  PolygonArea.AddPoints self points h = (Ok u, self', h') ->
  PolygonArea._num self' = (PolygonArea._num self + Z.of_nat (List.length points))%Z.
Proof.
  induction points as [|[lat lon] points IH]; intros self h u self' h' H;
    cbn [PolygonArea.AddPoints] in H.
  - injection H as _ <- _. cbn. lia.
  - destruct (PolygonArea.AddPoint self lat lon h) as [[[u1|e] self1] h1] eqn:E;
      [|discriminate H].
    apply IH in H. rewrite H.
    assert (PolygonArea._num self1 = PolygonArea._num self + 1)%Z; [|cbn [List.length]; lia].
    unfold PolygonArea.AddPoint in E.
    destruct (PolygonArea._num self =? 0)%Z; [injection E as _ <- _; reflexivity|].
    destruct (PolygonArea.earth_GenInverse _ _ _ _ _ _)
      as [[[[[[[[a12 s12] azi1] azi2] m12] M12] M21] S12]|e]; [|discriminate E].
    destruct (negb (PolygonArea._polyline self)).
    + destruct (PolygonArea.get_areasum self); [|discriminate E].
      injection E as _ <- _; reflexivity.
    + injection E as _ <- _; reflexivity.
Qed.

Lemma Area_number earth points polyline num perimeter area :
  PolygonArea.Area earth points polyline = Ok (num, perimeter, area) ->
  num = Z.of_nat (List.length points).
Proof.
  unfold PolygonArea.Area.
  destruct (PolygonArea.__init__ earth polyline []) as [poly0 h0] eqn:E0.
  assert (H0 : PolygonArea._num poly0 = 0%Z).
  { unfold PolygonArea.__init__ in E0.
    destruct (negb polyline); cbn in E0; injection E0 as <- _; reflexivity. }
  destruct (PolygonArea.AddPoints poly0 points h0) as [[[u|e] poly] h] eqn:E;
    [|discriminate].
  apply AddPoints_num in E. rewrite H0 in E.
  unfold PolygonArea.Compute.
  destruct (PolygonArea._num poly <? 2)%Z.
  { cbn [fst]. intros H. injection H as <- _ _. lia. }
  destruct (PolygonArea._polyline poly).
  { rewrite HeapFacts.Sum_zero. cbn [fst]. intros H. injection H as <- _ _. lia. }
  destruct (PolygonArea.Compute_closing poly false h) as [[[per t]|e] h1];
    [|discriminate].
  destruct (PolygonArea.Sum _ _ 0). cbn [fst]. intros H. injection H as <- _ _. lia.
Qed.

End AreaFacts.

(** X16: [Geodesic.Area] checks every point before it computes anything: it
    raises an input error exactly when some point has a latitude outside
    [-90, 90] or a longitude outside [-180, 360], whatever the ellipsoid,
    the C library and the polyline flag.  When it returns, [number] is the
    number of points and the dictionary has an [area] entry exactly for a
    polygon. *)
Theorem Geodesic_Area_checks_points (L : Libm) (g : Geodesic.t)
    (points : list (float * float)) (polyline : bool) :
  ((exists e, GeodesicArea.Area L g points polyline = Raise (InputError e))
   <-> forallb position_ok points = false) /\
  (forall e L' g' polyline',
      GeodesicArea.Area L g points polyline = Raise (InputError e) ->
      GeodesicArea.Area L' g' points polyline' = Raise (InputError e)) /\
  (forall r, GeodesicArea.Area L g points polyline = Ok r ->
             GeodesicArea.r_number r = Z.of_nat (List.length points) /\
             (GeodesicArea.r_area r = None <-> polyline = true)).
Proof.
  unfold GeodesicArea.Area.
  assert (H := AreaFacts.CheckPositions_ok points).
  destruct (GeodesicArea.CheckPositions points) as [[]|[e|e]]; cbn [bind];
    [| |contradiction].
  - split; [|split].
    + rewrite H. split; [|discriminate].
      intros [e He]. exfalso.
      destruct (PolygonArea.Area _ points polyline) as [[[n p] a]|e']; discriminate He.
    + intros e L' g' polyline' He. exfalso.
      destruct (PolygonArea.Area _ points polyline) as [[[n p] a]|e']; discriminate He.
    + intros r Hr.
      destruct (PolygonArea.Area _ points polyline) as [[[n p] a]|e'] eqn:E;
        [|discriminate Hr].
      cbn [lift bind] in Hr. injection Hr as <-.
      cbn [GeodesicArea.r_number GeodesicArea.r_area].
      split; [eapply AreaFacts.Area_number; exact E|].
      destruct polyline; cbn; split; congruence.
  - split; [|split].
    + rewrite H. split; [reflexivity|]. intros _. eauto.
    + intros e0 L' g' polyline' He. exact He.
    + intros r Hr. discriminate Hr.
Qed.

(** ** What the solver leaves unset *)

Module MaskFacts.
Import Geodesic.

Ltac inv_ok H :=
  repeat match type of H with
         | bind ?m _ = Ok _ =>
             let E := fresh "E" in
             destruct m eqn:E; cbn [bind] in H; [|discriminate H]
         | (let '(_, _) := ?p in _) = Ok _ => destruct p
         | (if ?b then _ else _) = Ok _ => destruct b
         | match ?r with Converged _ _ _ => _ | Exhausted => _ end = Ok _ => destruct r
         end.

Lemma meridional_locals L g sbet1 cbet1 sbet2 cbet2 slam12 clam12 outmask C1a C2a
    v M12 M21 :
  meridional L g sbet1 cbet1 sbet2 cbet2 slam12 clam12 outmask C1a C2a
  = Ok (Some v, M12, M21) ->
  v_M12 v = M12 /\ v_M21 v = M21.
Proof.
  unfold meridional. intros H. inv_ok H; [|discriminate H].
  injection H as <- <- <-. split; reflexivity.
Qed.

Lemma equatorial_no_scale L g lon12 lam12 outmask M12 M21 v :
  has outmask GEODESICSCALE = false ->
  equatorial L g lon12 lam12 outmask M12 M21 = Ok v ->
  v_M12 v = M12 /\ v_M21 v = M21.
Proof.
  intros Hs. unfold equatorial. rewrite Hs. intros H.
  repeat match type of H with
         | bind (Ok _) _ = Ok _ => cbn [bind] in H
         | bind ?m _ = Ok _ => destruct m; cbn [bind] in H; [|discriminate H]
         end.
  injection H as <-. split; reflexivity.
Qed.

Lemma general_no_scale L g sbet1 cbet1 sbet2 cbet2 lam12 outmask M12 M21 C1a C2a C3a v :
  has outmask GEODESICSCALE = false ->
  M12 = Math.nan -> M21 = Math.nan ->
  general L g sbet1 cbet1 sbet2 cbet2 lam12 outmask M12 M21 C1a C2a C3a = Ok (Some v) ->
  v_M12 v = Math.nan /\ v_M21 v = Math.nan.
Proof.
  intros Hs -> ->. unfold general. rewrite Hs. intros H.
  destruct (InverseStart _ _ _ _ _ _ _ _ _) as [[[[[sig12 salp1] calp1] salp2] calp2]|];
    cbn [bind] in H; [|discriminate H].
  destruct (ge0 sig12).
  - repeat match type of H with
           | bind (Ok _) _ = Ok _ => cbn [bind] in H
           | bind ?m _ = Ok _ => destruct m; cbn [bind] in H; [|discriminate H]
           end.
    injection H as <-. split; reflexivity.
  - destruct (newton _ _ _ _ _ _ _ _ _ _ _ _ _ _ _) as [[salp1' calp1' r|]|];
      cbn [bind] in H; try discriminate H.
    destruct (Lengths _ _ _ _ _ _ _ _ _ _ _ _) as [[[[[s12x m12x] m0] M12'] M21']|] eqn:EL;
      cbn [bind] in H; [|discriminate H].
    apply Lengths_no_scale in EL. destruct EL as [-> ->].
    injection H as <-. split; reflexivity.
Qed.

(** What [solve] leaves as NaN. *)
Lemma solve_unset L g lat1 lat2 lon12 outmask s :
  solve L g lat1 lat2 lon12 outmask = Ok (Solved s) ->
  (has outmask DISTANCE = false -> s_s12 s = Math.nan) /\
  (has outmask REDUCEDLENGTH = false -> s_m12 s = Math.nan) /\
  (has outmask GEODESICSCALE = false -> s_M12 s = Math.nan /\ s_M21 s = Math.nan) /\
  (has outmask AREA = false -> s_S12 s = Math.nan).
Proof.
  unfold solve. intros H.
  destruct (reduced _ _ _ _ _)
    as [[[[[[[sbet1 cbet1] sbet2] cbet2] lam12] slam12] clam12]|] in H;
    cbn [bind] in H; [|discriminate H].
  match type of H with
  | bind ?m _ = _ => destruct m as [[[v M12'] M21']|] eqn:EM
  end; cbn [bind] in H; [|discriminate H].
  match type of H with
  | bind ?m _ = _ => destruct m as [[v'|]|] eqn:EV
  end; cbn [bind] in H; try discriminate H.
  assert (HM : has outmask GEODESICSCALE = false ->
               v_M12 v' = Math.nan /\ v_M21 v' = Math.nan).
  { intros Hs.
    assert (HN : M12' = Math.nan /\ M21' = Math.nan).
    { destruct (_ || _) in EM.
      - eapply meridional_no_scale; eassumption.
      - injection EM as _ <- <-. split; reflexivity. }
    destruct HN as [-> ->].
    destruct v as [v|].
    - injection EV as <-.
      destruct (_ || _) in EM; [|discriminate EM].
      apply meridional_locals in EM. exact EM.
    - destruct (_ && _) in EV.
      + destruct (equatorial _ _ _ _ _ _ _) as [w|] eqn:EQ in EV;
          cbn [bind] in EV; [|discriminate EV].
        injection EV as <-. eapply equatorial_no_scale; eassumption.
      + eapply general_no_scale; try eassumption; reflexivity. }
  destruct (has outmask AREA) eqn:EA.
  - destruct (area _ _ _ _ _ _ _) as [S12|]; cbn [bind] in H; [|discriminate H].
    injection H as <-. cbn [s_s12 s_m12 s_M12 s_M21 s_S12].
    destruct (has outmask DISTANCE), (has outmask REDUCEDLENGTH);
      repeat split; try discriminate; try (apply HM; assumption).
  - cbn [bind] in H. injection H as <-. cbn [s_s12 s_m12 s_M12 s_M21 s_S12].
    destruct (has outmask DISTANCE), (has outmask REDUCEDLENGTH);
      repeat split; try discriminate; try (apply HM; assumption).
Qed.

Lemma signed_S12 c mask s :
  has mask AREA = false -> d_S12 (signed c mask s) = s_S12 s.
Proof.
  intros Ha. unfold signed. rewrite Ha. destruct (c_swapp c <? 0)%Z; reflexivity.
Qed.

Lemma signed_scales c mask s :
  has mask GEODESICSCALE = false ->
  d_M12 (signed c mask s) = s_M12 s /\ d_M21 (signed c mask s) = s_M21 s.
Proof.
  intros Hs. unfold signed. rewrite Hs.
  destruct (c_swapp c <? 0)%Z; split; reflexivity.
Qed.

(** The scales that a failed iteration returns. *)
Lemma solve_failed_scales L g lat1 lat2 lon12 outmask M12 M21 :
  solve L g lat1 lat2 lon12 outmask = Ok (NoConvergence M12 M21) ->
  has outmask GEODESICSCALE = false ->
  M12 = Math.nan /\ M21 = Math.nan.
Proof.
  intros ES Hs. unfold solve in ES.
  destruct (reduced _ _ _ _ _)
    as [[[[[[[sbet1 cbet1] sbet2] cbet2] lam12] slam12] clam12]|] in ES;
    cbn [bind] in ES; [|discriminate ES].
  match type of ES with
  | bind ?m _ = _ => destruct m as [[[v M12''] M21'']|] eqn:EM
  end; cbn [bind] in ES; [|discriminate ES].
  assert (HM : M12'' = Math.nan /\ M21'' = Math.nan).
  { destruct (_ || _) in EM.
    - eapply meridional_no_scale; eassumption.
    - injection EM as _ <- <-. split; reflexivity. }
  match type of ES with
  | bind ?m _ = _ => destruct m as [[v'|]|]
  end; cbn [bind] in ES; try discriminate ES.
  - destruct (if has outmask AREA then _ else _) in ES;
      cbn [bind] in ES; discriminate ES.
  - injection ES as <- <-. apply HM.
Qed.

End MaskFacts.

(** X17: [GenInverse] returns NaN for every output that the mask does not
    ask for: [s12] without DISTANCE, [azi1] and [azi2] without AZIMUTH,
    [m12] without REDUCEDLENGTH, [M12] and [M21] without GEODESICSCALE and
    [S12] without AREA ([a12] is always computed). *)
Theorem GenInverse_unrequested_outputs (L : Libm) (g : Geodesic.t)
    (lat1 lon1 lat2 lon2 : float) (outmask : Z)
    (a12 s12 azi1 azi2 m12 M12 M21 S12 : float) :
  Geodesic.GenInverse L g lat1 lon1 lat2 lon2 outmask
  = Ok (a12, s12, azi1, azi2, m12, M12, M21, S12) ->
  (Geodesic.has (Z.land outmask Geodesic.OUT_ALL) Geodesic.DISTANCE = false ->
   s12 = Math.nan) /\
  (Geodesic.has (Z.land outmask Geodesic.OUT_ALL) Geodesic.AZIMUTH = false ->
   azi1 = Math.nan /\ azi2 = Math.nan) /\
  (Geodesic.has (Z.land outmask Geodesic.OUT_ALL) Geodesic.REDUCEDLENGTH = false ->
   m12 = Math.nan) /\
  (Geodesic.has (Z.land outmask Geodesic.OUT_ALL) Geodesic.GEODESICSCALE = false ->
   M12 = Math.nan /\ M21 = Math.nan) /\
  (Geodesic.has (Z.land outmask Geodesic.OUT_ALL) Geodesic.AREA = false ->
   S12 = Math.nan).
Proof.
  unfold Geodesic.GenInverse.
  set (c := Geodesic.canonicalize lat1 lon1 lat2 lon2).
  set (mask := Z.land outmask Geodesic.OUT_ALL).
  destruct (Geodesic.solve L g _ _ _ mask) as [[s|M12' M21']|] eqn:ES;
    cbn [bind]; [| |discriminate].
  - destruct (MaskFacts.solve_unset _ _ _ _ _ _ _ ES) as (H1 & H2 & H3 & H4).
    unfold Geodesic.restore.
    assert (HS := MaskFacts.signed_S12 c mask s).
    assert (HM := MaskFacts.signed_scales c mask s).
    destruct (Geodesic.has mask Geodesic.AZIMUTH) eqn:EA.
    + destruct (Geodesic.azimuth L _ _) as [z1|]; cbn [bind]; [|discriminate].
      destruct (Geodesic.azimuth L _ _) as [z2|]; cbn [bind]; [|discriminate].
      intros H. injection H as <- <- <- <- <- <- <- <-.
      split; [exact H1|]. split; [discriminate|]. split; [exact H2|].
      split.
      * intros Hs. destruct (HM Hs) as [-> ->]. now apply H3.
      * intros Ha. rewrite (HS Ha). now apply H4.
    + cbn [bind]. intros H. injection H as <- <- <- <- <- <- <- <-.
      split; [exact H1|]. split; [auto|]. split; [exact H2|].
      split.
      * intros Hs. destruct (HM Hs) as [-> ->]. now apply H3.
      * intros Ha. rewrite (HS Ha). now apply H4.
  - intros H. injection H as <- <- <- <- <- <- <- <-.
    split; [reflexivity|]. split; [auto|]. split; [reflexivity|].
    split; [|reflexivity].
    intros Hs. exact (MaskFacts.solve_failed_scales _ _ _ _ _ _ _ _ ES Hs).
Qed.

Lemma GenInverse_unrequested_outputs_witness :
  exists r,
    Geodesic.GenInverse RefLibm.libm wgs84 0 0 0 0 default_mask = Ok r /\
    let '(a12, s12, azi1, azi2, m12, M12, M21, S12) := r in
    (Geodesic.has (Z.land default_mask Geodesic.OUT_ALL) Geodesic.DISTANCE = false ->
     s12 = Math.nan) /\
    (Geodesic.has (Z.land default_mask Geodesic.OUT_ALL) Geodesic.AZIMUTH = false ->
     azi1 = Math.nan /\ azi2 = Math.nan) /\
    (Geodesic.has (Z.land default_mask Geodesic.OUT_ALL) Geodesic.REDUCEDLENGTH = false ->
     m12 = Math.nan) /\
    (Geodesic.has (Z.land default_mask Geodesic.OUT_ALL) Geodesic.GEODESICSCALE = false ->
     M12 = Math.nan /\ M21 = Math.nan) /\
    (Geodesic.has (Z.land default_mask Geodesic.OUT_ALL) Geodesic.AREA = false ->
     S12 = Math.nan).
Proof.
  eexists. split; [vm_compute; reflexivity|].
  cbv beta iota.
  refine (GenInverse_unrequested_outputs RefLibm.libm wgs84 0 0 0 0 default_mask
            _ _ _ _ _ _ _ _ _).
  vm_compute. reflexivity.
Defined.

(** ** The Newton iteration *)

(** The start of the iteration for the points (0, 0) and (10, 10) on WGS84:
    the reduced latitudes and the longitude difference, and the direction
    that [InverseStart] proposes. *)
Definition example_start : float * float * float * float * float * (float * float) :=
  let c := Geodesic.canonicalize 0 0 10 10 in
  match Geodesic.reduced RefLibm.libm wgs84
          (Geodesic.c_lat1 c) (Geodesic.c_lat2 c) (Geodesic.c_lon12 c) with
  | Ok (sbet1, cbet1, sbet2, cbet2, lam12, _, _) =>
      match Geodesic.InverseStart RefLibm.libm wgs84 sbet1 cbet1 sbet2 cbet2 lam12
              (PyList.range (Geodesic.nC1_ + 1)) (PyList.range (Geodesic.nC2_ + 1)) with
      | Ok (_, salp1, calp1, _, _) => (sbet1, cbet1, sbet2, cbet2, lam12, (salp1, calp1))
      | Raise _ => (0, 0, 0, 0, 0, (0, 0))
      end
  | Raise _ => (0, 0, 0, 0, 0, (0, 0))
  end.

(** X18: the Newton iteration accepts a direction only when the longitude
    difference it gives is the wanted one to within [tiny_], the square root
    of the smallest normal double (1.5e-154).  The statement [++trip] of the
    source assigns nothing, [trip] stays 0, and the exit on the tolerances
    [tol0_] and [tol1_] is never taken: an iteration that comes within
    rounding of the solution, but not onto it, runs until [maxit_] and
    fails. *)
Theorem newton_accepts_tiny_residual (L : Libm) (g : Geodesic.t)
    (sbet1 cbet1 sbet2 cbet2 lam12 : float) (C1a C2a C3a : list float) (fuel : nat) :
  forall (salp1 calp1 ov sa ca : float) (r : Geodesic.lambda12),
    Geodesic.newton L g sbet1 cbet1 sbet2 cbet2 lam12 C1a C2a C3a fuel salp1 calp1 ov 0
    = Ok (Geodesic.Converged sa ca r) ->
    (Geodesic.tiny_ <? abs (Geodesic.l_lam12 r - lam12)) = false /\
    Geodesic.Lambda12 L g sbet1 cbet1 sbet2 cbet2 sa ca true C1a C2a C3a = Ok r.
Proof.
  induction fuel as [|fuel IH]; intros salp1 calp1 ov sa ca r H; [discriminate H|].
  cbn [Geodesic.newton] in H. change (0 <? 1)%Z with true in H.
  destruct (Geodesic.Lambda12 L g sbet1 cbet1 sbet2 cbet2 salp1 calp1 true C1a C2a C3a)
    as [r0|] eqn:EL; cbn [bind] in H; [|discriminate H].
  rewrite orb_false_r in H.
  destruct (Geodesic.tiny_ <? abs (Geodesic.l_lam12 r0 - lam12)) eqn:Ev; cbn [negb] in H.
  - repeat match type of H with
           | bind ?m _ = Ok _ => destruct m; cbn [bind] in H; [|discriminate H]
           | (let '(_, _) := ?p in _) = Ok _ => destruct p
           end.
    match type of H with
    | context [if ?b then 0%Z else 0%Z] => destruct b
    end; exact (IH _ _ _ _ _ _ H).
  - destruct (negb (abs (Geodesic.l_lam12 r0 - lam12) <=? PyFloat.max Geodesic.tol1_ ov));
      [discriminate H|].
    injection H as <- <- <-. split; [exact Ev|exact EL].
Qed.

Lemma newton_accepts_tiny_residual_witness :
  let '(sbet1, cbet1, sbet2, cbet2, lam12, (salp1, calp1)) := example_start in
  exists sa ca r,
    Geodesic.newton RefLibm.libm wgs84 sbet1 cbet1 sbet2 cbet2 lam12
      (PyList.range (Geodesic.nC1_ + 1)) (PyList.range (Geodesic.nC2_ + 1))
      (PyList.range Geodesic.nC3_) Geodesic.maxit_ salp1 calp1 0 0
    = Ok (Geodesic.Converged sa ca r) /\
    (Geodesic.tiny_ <? abs (Geodesic.l_lam12 r - lam12)) = false /\
    Geodesic.Lambda12 RefLibm.libm wgs84 sbet1 cbet1 sbet2 cbet2 sa ca true
      (PyList.range (Geodesic.nC1_ + 1)) (PyList.range (Geodesic.nC2_ + 1))
      (PyList.range Geodesic.nC3_) = Ok r.
Proof.
  destruct example_start as [[[[[sbet1 cbet1] sbet2] cbet2] lam12] [salp1 calp1]] eqn:E.
  vm_compute in E. injection E as <- <- <- <- <- <- <-.
  destruct (Geodesic.newton RefLibm.libm wgs84 _ _ _ _ _ _ _ _ Geodesic.maxit_ _ _ 0 0)
    as [[sa ca r|]|] eqn:EN; try (vm_compute in EN; discriminate EN).
  exists sa, ca, r. split; [reflexivity|].
  exact (newton_accepts_tiny_residual _ _ _ _ _ _ _ _ _ _ _ _ _ _ _ _ _ EN).
Defined.

(** X19: [Lambda12] cannot return when it is called without the derivative
    ([diffp] false): its [return] reads [dlam12], which only the branch
    [if diffp:] assigns.  The call raises UnboundLocalError, if nothing was
    raised before. *)
Theorem Lambda12_needs_derivative (L : Libm) (g : Geodesic.t)
    (sbet1 cbet1 sbet2 cbet2 salp1 calp1 : float) (C1a C2a C3a : list float) :
  exists e,
    Geodesic.Lambda12 L g sbet1 cbet1 sbet2 cbet2 salp1 calp1 false C1a C2a C3a = Raise e.
Proof.
  unfold Geodesic.Lambda12.
  repeat match goal with
         | |- exists e, bind ?m _ = Raise e =>
             destruct m; cbn [bind]; [|eexists; reflexivity]
         | |- exists e, (let '(_, _) := ?p in _) = Raise e => destruct p
         end.
  eexists; reflexivity.
Qed.
